(** * Screen-recorder upload service: the handlers of [fuck.py] over a model
      of the file system

    The service is a Flask application.  Every handler reads and writes files
    below one storage directory ([VIDEO_DIR]), so the development has three
    layers:

    - strings and paths ([os.path.join], [os.path.basename],
      [os.path.splitext], the [glob] patterns);
    - a file system: a finite map from resolved absolute paths to regular
      files and directories, with path resolution ("." and ".." included),
      [open] in append and truncate mode, [os.rename], [os.makedirs];
    - the handlers, written in a small state-and-exception monad over that
      file system, and the URL rule table that dispatches to them.

    Conventions.  A path is the list of its components below the root.  Clock
    readings and modification times are integers counting microseconds; the
    ISO-8601 strings the program prints have a resolution of one second and,
    for the years 1000 to 9999, a fixed width, so they compare as the whole
    second they print, and a listing entry carries that second.  Requests
    carry no conditional or range headers.  Symbolic links and permissions
    are outside the model.

    Where the operating system or a library is narrower than the model (a
    name [open] rejects, a directory path that [glob] reads as a pattern, a
    time that does not print with a four-digit year, a transcoder that never
    exits), the condition is a definition of its own ([path_ok],
    [plain_directory], [listing_prints], [exited]) and a hypothesis of the
    statements that depend on it.  The modification time of a directory is
    not followed when an entry is created, renamed or removed in it, so a
    statement about what a write leaves as it was speaks of the entries that
    are not directories above the written name. *)

From Stdlib Require Import ZArith.
From Stdlib.Strings Require Import Ascii String.
From Stdlib.Strings Require Byte.
From stdpp Require Import base strings list gmap pretty sorting.

Local Open Scope string_scope.
Local Open Scope list_scope.
Local Open Scope Z_scope.

(** ** Strings *)

Module Str.

Fixpoint starts_with (p s : string) : bool :=
  match p, s with
  | EmptyString, _ => true
  | String a p', String b s' => Ascii.eqb a b && starts_with p' s'
  | String _ _, EmptyString => false
  end.

(** [s.endswith(p)]: [p] is [s] or ends a proper suffix of [s]. *)
Fixpoint ends_with (p s : string) : bool :=
  String.eqb p s ||
  match s with
  | EmptyString => false
  | String _ s' => ends_with p s'
  end.

(** The last character of a string (a blank for the empty string). *)
Fixpoint last_char (s : string) : ascii :=
  match s with
  | EmptyString => " "%char
  | String c EmptyString => c
  | String _ s' => last_char s'
  end.

(** [s.removeprefix(p)] when [s] starts with [p]. *)
Fixpoint strip_prefix (p s : string) : option string :=
  match p, s with
  | EmptyString, _ => Some s
  | String a p', String b s' =>
      if Ascii.eqb a b then strip_prefix p' s' else None
  | String _ _, EmptyString => None
  end.

Fixpoint has_slash (s : string) : bool :=
  match s with
  | EmptyString => false
  | String c s' => Ascii.eqb c "/"%char || has_slash s'
  end.

(** [s.split("/")] *)
Fixpoint split_slash (s : string) : list string :=
  match s with
  | EmptyString => [EmptyString]
  | String c s' =>
      if Ascii.eqb c "/"%char then EmptyString :: split_slash s'
      else match split_slash s' with
           | [] => [String c EmptyString]
           | h :: t => String c h :: t
           end
  end.

Fixpoint all_dots (s : string) : bool :=
  match s with
  | EmptyString => true
  | String c s' => Ascii.eqb c "."%char && all_dots s'
  end.

(** Cut [s] at its last dot: [(s[:i], s[i:])] for [i = s.rfind(".")]. *)
Fixpoint rsplit_dot (s : string) : option (string * string) :=
  match s with
  | EmptyString => None
  | String c s' =>
      match rsplit_dot s' with
      | Some (r, e) => Some (String c r, e)
      | None => if Ascii.eqb c "."%char then Some (EmptyString, s) else None
      end
  end.

(** [os.path.splitext] on one path component: the extension starts at the
    last dot, unless only dots come before it. *)
Definition splitext (name : string) : string * string :=
  match rsplit_dot name with
  | Some (r, e) => if all_dots r then (name, EmptyString) else (r, e)
  | None => (name, EmptyString)
  end.

End Str.

(** ** Paths *)

Abbreviation path := (list string).

(** A directory entry name: anything but the empty name, ".", ".." and names
    with a separator. *)
Definition proper_name (c : string) : bool :=
  negb (String.eqb c EmptyString) && negb (String.eqb c ".")
  && negb (String.eqb c "..") && negb (Str.has_slash c).

(** [os.path.join(a, b)] for an absolute [a] that does not end in "/": an
    absolute [b] replaces [a], anything else is appended after a separator. *)
Definition os_path_join (a : path) (b : string) : path :=
  match b with
  | String c b' => if Ascii.eqb c "/"%char then Str.split_slash b'
                   else a ++ Str.split_slash b
  | EmptyString => a ++ [EmptyString]
  end.

(** [os.path.basename] *)
Definition basename (p : path) : string := List.last p EmptyString.

(** [os.path.splitext(p)[0] + suffix] *)
Definition replace_ext (p : path) (suffix : string) : path :=
  removelast p ++ [fst (Str.splitext (basename p)) +:+ suffix].

(** ** The file system *)

(** What a resolved path holds: a regular file with its bytes, or a
    directory.  Both carry the modification time [os.stat] reports; a
    directory also carries the size the file system reports for it. *)
Inductive node :=
  | File (data : list Byte.byte) (mtime : Z)
  | Dir (size : Z) (mtime : Z).

Definition st_size (n : node) : Z :=
  match n with
  | File data _ => Z.of_nat (length data)
  | Dir size _ => size
  end.

Definition st_mtime (n : node) : Z :=
  match n with File _ t => t | Dir _ t => t end.

(** The state of the disk: resolved absolute paths (component lists, the
    root being the empty list) to nodes. *)
Abbreviation fs := (gmap path node).

Inductive mode := Append | Truncate.

Module FS.

(** The root always exists and is a directory. *)
Definition node_at (σ : fs) (q : path) : option node :=
  match q with
  | [] => Some (Dir 0 0)
  | _ :: _ => σ !! q
  end.

Definition is_dir_at (σ : fs) (q : path) : bool :=
  match node_at σ q with
  | Some (Dir _ _) => true
  | _ => false
  end.

(** One component of a path walk, from the directory [cur]. *)
Definition step (cur : path) (c : string) : path :=
  if String.eqb c EmptyString || String.eqb c "." then cur
  else if String.eqb c ".." then removelast cur
  else cur ++ [c].

(** Path resolution: every component is looked up in a directory, so the
    walk fails as soon as it stands on something that is not one. *)
Fixpoint walk (σ : fs) (cur : path) (comps : list string) : option path :=
  match comps with
  | [] => Some cur
  | c :: rest =>
      if is_dir_at σ cur then walk σ (step cur c) rest else None
  end.

Definition resolve (σ : fs) (p : path) : option path := walk σ [] p.

(** [os.stat] *)
Definition stat (σ : fs) (p : path) : option node :=
  match resolve σ p with
  | Some q => node_at σ q
  | None => None
  end.

(** [os.path.exists]: true for files and for directories. *)
Definition exists_ (σ : fs) (p : path) : bool :=
  match stat σ p with Some _ => true | None => false end.

(** [os.path.isdir] *)
Definition isdir (σ : fs) (p : path) : bool :=
  match stat σ p with Some (Dir _ _) => true | _ => false end.

(** [os.path.getsize] and [os.path.getmtime] *)
Definition getsize (σ : fs) (p : path) : option Z := st_size <$> stat σ p.
Definition getmtime (σ : fs) (p : path) : option Z := st_mtime <$> stat σ p.

(** [open(p, "ab")] / [open(p, "wb")], one [write] of [data], [close].
    Opening a directory, or a path whose parent is missing, fails.  An
    append of no bytes issues no write, so it leaves the modification time
    of an existing file alone.  The names are those the operating system
    accepts ([path_ok]); the node of the directory in which a file is
    created stays as it was (its modification time is not followed). *)
Definition open_write (m : mode) (now : Z) (p : path)
    (data : list Byte.byte) (σ : fs) : option fs :=
  match resolve σ p with
  | None => None
  | Some q =>
      match node_at σ q with
      | Some (Dir _ _) => None
      | Some (File old t) =>
          match m with
          | Append =>
              Some (<[q := File (old ++ data)
                                (match data with [] => t | _ => now end)]> σ)
          | Truncate => Some (<[q := File data now]> σ)
          end
      | None => Some (<[q := File data now]> σ)
      end
  end.

(** [open(p, "rb").read()] *)
Definition read (σ : fs) (p : path) : option (list Byte.byte) :=
  match stat σ p with
  | Some (File data _) => Some data
  | _ => None
  end.

Definition has_children (σ : fs) (q : path) : bool :=
  existsb (λ k, bool_decide (q `prefix_of` k ∧ k ≠ q)) (map_to_list σ).*1.

(** Move the subtree rooted at [src] to [dst]. *)
Definition rekey (src dst k : path) : path :=
  if bool_decide (src `prefix_of` k) then dst ++ drop (length src) k else k.

Definition move_tree (src dst : path) (σ : fs) : fs :=
  list_to_map (prod_map (rekey src dst) id <$> map_to_list (delete dst σ)).

(** [os.rename]: a file replaces a file, a directory replaces an empty
    directory, and nothing moves into its own subtree.  The nodes of the
    directories that hold the two names stay as they were (their
    modification times are not followed). *)
Definition rename (src dst : path) (σ : fs) : option fs :=
  match resolve σ src, resolve σ dst with
  | Some qs, Some qd =>
      match σ !! qs with
      | Some (File data t) =>
          match node_at σ qd with
          | Some (Dir _ _) => None
          | _ => Some (<[qd := File data t]> (delete qs σ))
          end
      | Some (Dir _ _) =>
          if bool_decide (qs = qd) then Some σ
          else if bool_decide (qs `prefix_of` qd) then None
          else match node_at σ qd with
               | Some (File _ _) => None
               | Some (Dir _ _) =>
                   if has_children σ qd then None
                   else Some (move_tree qs qd σ)
               | None => Some (move_tree qs qd σ)
               end
      | None => None
      end
  | _, _ => None
  end.

(** [os.makedirs(p, exist_ok=True)] for a normalised path: the missing
    directories are created from the root down; a regular file in the way
    is an error. *)
Fixpoint makedirs_from (now : Z) (cur : path) (comps : list string)
    (σ : fs) : option fs :=
  match comps with
  | [] => Some σ
  | c :: rest =>
      let q := cur ++ [c] in
      match node_at σ q with
      | Some (Dir _ _) => makedirs_from now q rest σ
      | Some (File _ _) => None
      | None => makedirs_from now q rest (<[q := Dir 0 now]> σ)
      end
  end.

Definition makedirs (now : Z) (p : path) (σ : fs) : option fs :=
  makedirs_from now [] p σ.

(** The names of the entries of the directory [q], in the order in which
    the finite map enumerates them. *)
Definition entries (σ : fs) (q : path) : list string :=
  omap (λ k, match last k with
            | Some n => if bool_decide (k = q ++ [n]) && proper_name n
                        then Some n else None
            | None => None
            end) (map_to_list σ).*1.

End FS.

(** ** Stable sort in descending key order

    [list.sort(key=..., reverse=True)] and [sorted(..., reverse=True)]:
    entries with equal keys keep their relative order. *)
Section sort_desc.
Context {A : Type} (key : A → Z).

(** [x] goes in front of the first entry whose key is not larger. *)
Fixpoint insert_desc (x : A) (l : list A) : list A :=
  match l with
  | [] => [x]
  | y :: l' => if key x <? key y then y :: insert_desc x l' else x :: l
  end.

Definition sort_desc (l : list A) : list A := foldr insert_desc [] l.
End sort_desc.

(** ** Responses *)

(** JSON values.  A Python [dict] is kept as its items in insertion order;
    [JIso s] is the ISO-8601 string that prints the second [s]. *)
#[local] Unset Elimination Schemes.
Inductive json :=
  | JNull
  | JBool (b : bool)
  | JNum (n : Z)
  | JStr (s : string)
  | JIso (second : Z)
  | JList (items : list json)
  | JObj (items : list (string * json)).
#[local] Set Elimination Schemes.

(** [d[k]] and [d[k] = v] on the items of a [dict]. *)
Fixpoint dict_get (k : string) (d : list (string * json)) : option json :=
  match d with
  | [] => None
  | (k', v) :: d' => if String.eqb k k' then Some v else dict_get k d'
  end.

Fixpoint dict_set (k : string) (v : json) (d : list (string * json))
    : list (string * json) :=
  match d with
  | [] => [(k, v)]
  | (k', v') :: d' =>
      if String.eqb k k' then (k, v) :: d' else (k', v') :: dict_set k v d'
  end.

(** The field [k] of a JSON object, if the object has that key. *)
Definition field (k : string) (j : json) : option json :=
  match j with
  | JObj d => dict_get k d
  | _ => None
  end.

Inductive body :=
  | Text (s : string)
  | Page                       (* the capture page of [index] *)
  | Json (j : json)
  | Stream (data : list Byte.byte) (mimetype : option string).

Record response := Response {
  status_code : Z;
  payload : body;
  headers : list (string * string);
}.

Definition jsonify (code : Z) (j : json) : response :=
  {| status_code := code; payload := Json j; headers := [] |}.

Definition set_header (k v : string) (r : response) : response :=
  {| status_code := status_code r; payload := payload r;
     headers := headers r ++ [(k, v)] |}.

(** ** Handlers as state transformers that may raise

    A handler maps the disk to a result, the disk it leaves and the trace of
    the calls it made that change file contents or names.  [None] as a result
    is an exception that leaves the handler (Flask answers 500); the disk
    that comes with it keeps the effects that happened before. *)
Inductive event :=
  | Opened (m : mode) (q : path) (created : bool)
  | Renamed (src dst : path)
  | Encoded (q : path).

Definition io (A : Type) : Type := fs → option A * fs * list event.

Definition ret {A} (a : A) : io A := λ σ, (Some a, σ, []).

Definition raise {A} : io A := λ σ, (None, σ, []).

Definition bind {A B} (m : io A) (k : A → io B) : io B :=
  λ σ, match m σ with
       | (Some a, σ1, t1) =>
           match k a σ1 with
           | (r, σ2, t2) => (r, σ2, t1 ++ t2)
           end
       | (None, σ1, t1) => (None, σ1, t1)
       end.

(** [try: m / except Exception: h] *)
Definition try_except {A} (m h : io A) : io A :=
  λ σ, match m σ with
       | (None, σ1, t1) =>
           match h σ1 with
           | (r, σ2, t2) => (r, σ2, t1 ++ t2)
           end
       | returned => returned
       end.

Notation "'do' x ← m ; k" := (bind m (λ x, k))
  (at level 10, x name, m at level 100, k at level 200,
   format "'[v' 'do'  x  ←  m ; '/' k ']'").
Notation "'do' '_' ← m ; k" := (bind m (λ _, k))
  (at level 10, m at level 100, k at level 200,
   format "'[v' 'do'  '_'  ←  m ; '/' k ']'").

(** Reads that cannot fail and reads that raise. *)
Definition query {A} (f : fs → A) : io A := λ σ, (Some (f σ), σ, []).

Definition query_opt {A} (f : fs → option A) : io A := λ σ, (f σ, σ, []).

Fixpoint for_each {A B} (f : A → io B) (l : list A) : io (list B) :=
  match l with
  | [] => ret []
  | x :: l' =>
      do y ← f x;
      do ys ← for_each f l';
      ret (y :: ys)
  end.

(** [with open(p, mode) as f: f.write(data)] *)
Definition open_ (m : mode) (now : Z) (p : path) (data : list Byte.byte)
    : io unit :=
  λ σ, match FS.resolve σ p, FS.open_write m now p data σ with
       | Some q, Some σ' =>
           (Some tt, σ',
            [Opened m q (match FS.node_at σ q with
                         | Some _ => false
                         | None => true
                         end)])
       | _, _ => (None, σ, [])
       end.

Definition os_makedirs (now : Z) (p : path) : io unit :=
  λ σ, match FS.makedirs now p σ with
       | Some σ' => (Some tt, σ', [])
       | None => (None, σ, [])
       end.

Definition os_rename (src dst : path) : io unit :=
  λ σ, match FS.resolve σ src, FS.resolve σ dst, FS.rename src dst σ with
       | Some qs, Some qd, Some σ' => (Some tt, σ', [Renamed qs qd])
       | _, _, _ => (None, σ, [])
       end.

(** [shutil.move]: into [dst] when that is a directory, onto it otherwise. *)
Definition shutil_move (src dst : path) : io unit :=
  do into ← query (λ σ, FS.isdir σ dst);
  if into then
    do same ← query (λ σ, bool_decide (FS.resolve σ src = FS.resolve σ dst));
    if same then os_rename src dst
    else
      let real_dst := dst ++ [basename src] in
      do taken ← query (λ σ, FS.exists_ σ real_dst);
      if taken then raise else os_rename src real_dst
  else os_rename src dst.

(** [flask.send_file]: the file is stat-ed and opened for reading; a missing
    path or a directory raises. *)
Definition send_file (p : path) (mimetype : option string) : io response :=
  do data ← query_opt (λ σ, FS.read σ p);
  ret {| status_code := 200; payload := Stream data mimetype;
         headers := [] |}.

(** ** The external transcoder

    What one finalize request observes of [ffmpeg]: whether the version probe
    runs, whether the encode exits with status 0, and the bytes it leaves at
    its output path (when it leaves any, also on failure) with the time it
    wrote them.  It reads its input and writes nothing else.  Both child
    processes have exited: [subprocess.run] waits for them without a timeout
    ([exited] relates the record to the processes). *)
Record ffmpeg := Ffmpeg {
  probe_ok : bool;
  encode_ok : bool;
  encode_output : option (list Byte.byte);
  encode_time : Z;
}.

(** [subprocess.run(cmd, check=True)] for the encode command. *)
Definition run_encode (ff : ffmpeg) (out : path) : io unit :=
  λ σ,
    let '(σ', t) :=
      match encode_output ff with
      | Some data =>
          match FS.resolve σ out,
                FS.open_write Truncate (encode_time ff) out data σ with
          | Some q, Some σ' => (σ', [Encoded q])
          | _, _ => (σ, [])
          end
      | None => (σ, [])
      end in
    (if encode_ok ff then Some tt else None, σ', t).

(** ** Listing entries *)

Record entry := Entry {
  filename : string;
  bytes : Z;
  modified : Z;
  url : string;
  type : string;
}.

Definition entry_json (e : entry) : json :=
  JObj [("filename", JStr (filename e)); ("bytes", JNum (bytes e));
        ("modified", JIso (modified e)); ("url", JStr (url e));
        ("type", JStr (type e))].

(** The second an ISO-8601 string prints for a time in microseconds.  The
    strings of two times compare as these seconds when both print with a
    four-digit year ([printable]). *)
Definition second_of (t : Z) : Z := t `div` 1000000.

(** [fnmatch] of a name against ["*" + ext], with [glob]'s rule that a
    pattern not starting with a dot matches no name starting with one. *)
Definition glob_match (ext name : string) : bool :=
  Str.ends_with ext name && negb (Str.starts_with "." name).

(** ** HTTP methods *)
Inductive method := GET | POST.

(** ** The service ([fuck.py]) *)

Section Service.

(** [BASE_DIR] is the directory of the program file, as
    [os.path.abspath] returns it.  [listdir σ q] is the order in which the
    operating system enumerates the names in the directory [q]. *)
Variable BASE_DIR : path.
Variable listdir : fs → path → list string.

Definition VIDEO_DIR : path := os_path_join BASE_DIR "videos".
Definition PART_EXT : string := ".partial".

(** *** Helpers *)

Definition _now_iso (now : Z) : json := JIso (second_of now).

Definition _session_path (session_id ext : string) : path :=
  os_path_join VIDEO_DIR (session_id +:+ ext).

(** [glob.glob(os.path.join(dir, "*" + ext))], for a [dir] without
    pattern characters ([plain_directory]): the names in [dir] that match,
    in the order of the enumeration, each joined to [dir].  Directories
    match like files. *)
Definition glob (dir : path) (ext : string) (σ : fs) : list path :=
  match FS.resolve σ dir with
  | Some q =>
      if FS.is_dir_at σ q
      then (λ n, dir ++ [n]) <$> List.filter (glob_match ext) (listdir σ q)
      else []
  | None => []
  end.

Definition video_entry (kind : string) (f : path) : io entry :=
  do st ← query_opt (λ σ, FS.stat σ f);
  ret {| filename := basename f;
         bytes := st_size st;
         modified := second_of (st_mtime st);
         url := "/video/" +:+ basename f;
         type := kind |}.

Definition _list_videos : io (list entry) :=
  do mp4s ← query (glob VIDEO_DIR ".mp4");
  do files_mp4 ← for_each (video_entry "mp4") mp4s;
  do webms ← query (glob VIDEO_DIR ".webm");
  do files_webm ← for_each (video_entry "webm") webms;
  ret (sort_desc modified (files_mp4 ++ files_webm)).

Definition _ffmpeg_available (ff : ffmpeg) : bool := probe_ok ff.

Definition _finalize_to_mp4 (ff : ffmpeg) (webm_path : path)
    : io (option path) :=
  let mp4_path := replace_ext webm_path ".mp4" in
  if negb (_ffmpeg_available ff) then ret None
  else
    try_except
      (do _ ← run_encode ff mp4_path;
       do made ← query (λ σ, FS.exists_ σ mp4_path);
       ret (if made then Some mp4_path else None))
      (ret None).

(** The module body creates the storage directory when the program is
    loaded: [os.makedirs(VIDEO_DIR, exist_ok=True)]. *)
Definition startup (now : Z) : io unit := os_makedirs now VIDEO_DIR.

(** *** Routes *)

Definition index : io response :=
  ret {| status_code := 200; payload := Page; headers := [] |}.

Definition upload_chunk (now : Z) (session_id : string)
    (data : list Byte.byte) : io response :=
  let partial_path := _session_path session_id (".webm" +:+ PART_EXT) in
  do _ ← os_makedirs now VIDEO_DIR;
  do _ ← open_ Append now partial_path data;
  do size ← query_opt (λ σ, FS.getsize σ partial_path);
  ret {| status_code := 200; payload := Text "OK";
         headers := [("X-Received-Bytes", pretty size);
                     ("Access-Control-Expose-Headers",
                      "X-Received-Bytes")] |}.

Definition finalize (now : Z) (ff : ffmpeg) (session_id : string)
    : io response :=
  let partial_path := _session_path session_id (".webm" +:+ PART_EXT) in
  let webm_path := _session_path session_id ".webm" in
  do has_partial ← query (λ σ, FS.exists_ σ partial_path);
  do has_webm ← query (λ σ, FS.exists_ σ webm_path);
  if negb has_partial && negb has_webm then
    ret (jsonify 404 (JObj [("ok", JBool false);
                            ("error", JStr "no recording")]))
  else if has_webm then
    let out := [("ok", JBool true); ("webm", JStr (basename webm_path))] in
    let mp4_path := replace_ext webm_path ".mp4" in
    do has_mp4 ← query (λ σ, FS.exists_ σ mp4_path);
    ret (jsonify 200
           (JObj (if has_mp4
                  then dict_set "mp4" (JStr (basename mp4_path)) out
                  else out)))
  else
    do _ ← (if has_partial then shutil_move partial_path webm_path
            else ret tt);
    do mp4_path ← _finalize_to_mp4 ff webm_path;
    do webm_there ← query (λ σ, FS.exists_ σ webm_path);
    do mp4_there ← query (λ σ, match mp4_path with
                               | Some p => FS.exists_ σ p
                               | None => false
                               end);
    ret (jsonify 200
           (JObj [("ok", JBool true);
                  ("webm", if webm_there then JStr (basename webm_path)
                           else JNull);
                  ("mp4", match mp4_path with
                          | Some p => if mp4_there then JStr (basename p)
                                      else JNull
                          | None => JNull
                          end);
                  ("at", _now_iso now)])).

Definition snapshot (now : Z) (session_id : string)
    (data : list Byte.byte) : io response :=
  let snap_path := _session_path session_id ".jpg" in
  do _ ← open_ Truncate now snap_path data;
  ret (jsonify 200 (JObj [("ok", JBool true); ("at", _now_iso now);
                          ("file", JStr (basename snap_path))])).

Definition with_mtime (p : path) : io (path * Z) :=
  do t ← query_opt (λ σ, FS.getmtime σ p);
  ret (p, t).

Definition snapshot_latest : io response :=
  do found ← query (glob VIDEO_DIR ".jpg");
  do keyed ← for_each with_mtime found;
  match (sort_desc snd keyed).*1 with
  | [] => ret (jsonify 404 (JObj [("ok", JBool false);
                                  ("error", JStr "no snapshot")]))
  | newest :: _ => send_file newest (Some "image/jpeg")
  end.

Definition status (now : Z) : io response :=
  do videos ← _list_videos;
  ret (jsonify 200 (JObj [("ok", JBool true);
                          ("videos", JList (entry_json <$> videos));
                          ("server_time", _now_iso now)])).

(** The entry [latest] settles on: the first listed one whose name ends in
    ".mp4", else the first listed one. *)
Definition preferred (vids : list entry) : option entry :=
  match List.find (λ v, Str.ends_with ".mp4" (filename v)) vids with
  | Some v => Some v
  | None => head vids
  end.

Definition latest : io response :=
  do vids ← _list_videos;
  match preferred vids with
  | None => ret (jsonify 404 (JObj [("ok", JBool false);
                                    ("error", JStr "no videos yet")]))
  | Some v => send_file (os_path_join VIDEO_DIR (filename v)) None
  end.

Definition serve_video (filename : string) : io response :=
  let fp := os_path_join VIDEO_DIR filename in
  do there ← query (λ σ, FS.exists_ σ fp);
  if negb there then
    ret (jsonify 404 (JObj [("ok", JBool false);
                            ("error", JStr "not found")]))
  else
    do resp ← send_file fp None;
    ret (set_header "Cache-Control" "no-store"
           (set_header "Access-Control-Allow-Origin" "*" resp)).

Definition health (now : Z) : io response :=
  ret (jsonify 200 (JObj [("ok", JBool true); ("time", _now_iso now)])).

(** *** The rule table

    [<session_id>] takes one non-empty segment, [<path:filename>] any
    non-empty rest that does not start with a separator.  A URL that
    matches no rule is answered 404, one that matches a rule for another
    method only is answered 405. *)
Definition segment (s : string) : bool :=
  negb (String.eqb s EmptyString) && negb (Str.has_slash s).

Definition path_segment (s : string) : bool :=
  negb (String.eqb s EmptyString) && negb (Str.starts_with "/" s).

Definition under (prefix url : string) (ok : string → bool)
    : option string :=
  match Str.strip_prefix prefix url with
  | Some rest => if ok rest then Some rest else None
  | None => None
  end.

Definition abort (code : Z) : io response :=
  ret {| status_code := code; payload := Text "error"; headers := [] |}.

Definition on (wanted m : method) (h : io response) : io response :=
  match wanted, m with
  | GET, GET | POST, POST => h
  | _, _ => abort 405
  end.

Definition dispatch (now : Z) (ff : ffmpeg) (m : method) (url : string)
    (data : list Byte.byte) : io response :=
  if String.eqb url "/" then on GET m index
  else if String.eqb url "/snapshot/latest" then
    match m with
    | GET => snapshot_latest
    | POST => snapshot now "latest" data
    end
  else if String.eqb url "/status" then on GET m (status now)
  else if String.eqb url "/latest" then on GET m latest
  else if String.eqb url "/health" then on GET m (health now)
  else
    match under "/upload/" url segment, under "/finalize/" url segment,
          under "/snapshot/" url segment, under "/video/" url path_segment
    with
    | Some sid, _, _, _ => on POST m (upload_chunk now sid data)
    | _, Some sid, _, _ => on POST m (finalize now ff sid)
    | _, _, Some sid, _ => on POST m (snapshot now sid data)
    | _, _, _, Some name => on GET m (serve_video name)
    | None, None, None, None => abort 404
    end.

(** *** Runs

    A request as the server sees it, with the clock reading at which it is
    served and what the transcoder does if the request starts it. *)
Record request := Request {
  req_method : method;
  req_url : string;
  req_body : list Byte.byte;
  req_time : Z;
  req_ffmpeg : ffmpeg;
}.

Definition serve (rq : request) : io response :=
  dispatch (req_time rq) (req_ffmpeg rq) (req_method rq) (req_url rq)
    (req_body rq).

(** Requests served one after the other; an exception in one request does
    not stop the server. *)
Fixpoint run (rqs : list request) (σ : fs)
    : list (option response) * fs * list event :=
  match rqs with
  | [] => ([], σ, [])
  | rq :: rest =>
      match serve rq σ with
      | (r, σ1, t1) =>
          match run rest σ1 with
          | (rs, σ2, t2) => (r :: rs, σ2, t1 ++ t2)
          end
      end
  end.

(** *** Names used in the statements *)

(** The resolved path of the entry [name] of the storage directory. *)
Definition stored (name : string) : path := VIDEO_DIR ++ [name].

(** [VIDEO_DIR] is a normalised path (what [os.path.abspath] gives) and
    every directory along it exists (what the [os.makedirs] at start-up
    leaves). *)
Definition storage_ready (σ : fs) : Prop :=
  Forall (λ c, proper_name c = true) VIDEO_DIR ∧
  ∀ i : nat, FS.is_dir_at σ (take i VIDEO_DIR) = true.

(** What one request may do to the disk [σ], leaving [σ1] and the trace
    [t]: the storage directory stays ready; every entry that carries the
    name of a finalized video stays as it is; an append goes to a partial
    name; a rename goes from the partial name of a session to its
    finalized name, which was free before and is taken afterwards; and
    there is at most one rename. *)
Definition step_frame (σ σ1 : fs) (t : list event) : Prop :=
  storage_ready σ1
  ∧ (∀ sid v, segment sid = true →
              σ !! stored (sid +:+ ".webm") = Some v →
              σ1 !! stored (sid +:+ ".webm") = Some v)
  ∧ (∀ e, e ∈ t →
       match e with
       | Opened Append q _ => ∃ sid, q = stored (sid +:+ ".webm.partial")
       | Renamed src dst =>
           ∃ sid, segment sid = true
                  ∧ src = stored (sid +:+ ".webm.partial")
                  ∧ dst = stored (sid +:+ ".webm")
                  ∧ σ !! dst = None ∧ is_Some (σ1 !! dst)
       | _ => True
       end)
  ∧ (length (List.filter (λ e, match e with
                               | Renamed _ _ => true
                               | _ => false
                               end) t) ≤ 1)%nat.

Definition no_ffmpeg : ffmpeg :=
  {| probe_ok := false; encode_ok := false; encode_output := None;
     encode_time := 0 |}.

Definition upload_request (session_id : string) (now : Z)
    (data : list Byte.byte) : request :=
  {| req_method := POST; req_url := "/upload/" +:+ session_id;
     req_body := data; req_time := now; req_ffmpeg := no_ffmpeg |}.

Definition finalize_request (session_id : string) (now : Z) (ff : ffmpeg)
    : request :=
  {| req_method := POST; req_url := "/finalize/" +:+ session_id;
     req_body := []; req_time := now; req_ffmpeg := ff |}.

Definition snapshot_request (session_id : string) (now : Z)
    (data : list Byte.byte) : request :=
  {| req_method := POST; req_url := "/snapshot/" +:+ session_id;
     req_body := data; req_time := now; req_ffmpeg := no_ffmpeg |}.

Definition upload_requests (session_id : string)
    (chunks : list (Z * list Byte.byte)) : list request :=
  (λ c, upload_request session_id c.1 c.2) <$> chunks.

Definition get_request (url : string) (now : Z) : request :=
  {| req_method := GET; req_url := url; req_body := [];
     req_time := now; req_ffmpeg := no_ffmpeg |}.

End Service.

(** ** Where the model stands for the real system

    The file system above takes every name, [glob] lists a directory by its
    literal path, a listing entry carries the whole second of a time, and
    the transcoder is given by what a request observes once its processes
    have exited.  The operating system and the libraries are narrower than
    that; the conditions below say where the two agree, and the statements
    that depend on them carry them as hypotheses. *)

(** *** Names the operating system accepts

    [open] raises for a name with a NUL byte ([ValueError]) and for a name
    that is too long ([OSError]): on Linux a component holds at most
    [NAME_MAX] bytes and a path fewer than [PATH_MAX].  A string is the
    sequence of the bytes of the name. *)
Fixpoint has_nul (s : string) : bool :=
  match s with
  | EmptyString => false
  | String c s' => Ascii.eqb c Ascii.zero || has_nul s'
  end.

Definition NAME_MAX : nat := 255.
Definition PATH_MAX : nat := 4096.

Definition name_ok (c : string) : bool :=
  negb (has_nul c) && (String.length c <=? NAME_MAX)%nat.

(** The length of the path as [open] receives it: a separator before every
    component. *)
Definition path_length (p : path) : nat :=
  foldr (λ c n, S (String.length c + n)) 0%nat p.

Definition path_ok (p : path) : bool :=
  forallb name_ok p && (path_length p <? PATH_MAX)%nat.

(** *** Directories [glob] reads literally

    [glob.has_magic]: a "*", "?" or "[" makes [glob.glob] read a component
    of the directory part as a pattern instead of a name. *)
Fixpoint has_magic (s : string) : bool :=
  match s with
  | EmptyString => false
  | String c s' =>
      Ascii.eqb c "*"%char || Ascii.eqb c "?"%char || Ascii.eqb c "["%char
      || has_magic s'
  end.

Definition plain_directory (d : path) : Prop :=
  Forall (λ c, has_magic c = false) d.

(** *** Times that print with a four-digit year

    [datetime.utcfromtimestamp] raises outside the years 1 to 9999, and
    [strftime("%Y")] does not pad a year below 1000, so only from the year
    1000 on do the printed strings have one width and sort as the seconds
    they print.  The bounds are 1000-01-01T00:00:00Z and
    10000-01-01T00:00:00Z in seconds since the epoch. *)
Definition YEAR_1000 : Z := -30610224000.
Definition YEAR_10000 : Z := 253402300800.

Definition printable (t : Z) : bool :=
  (YEAR_1000 <=? second_of t) && (second_of t <? YEAR_10000).

(** Every entry of the storage directory has a modification time that
    prints with a four-digit year. *)
Definition listing_prints (BASE_DIR : path) (σ : fs) : Prop :=
  ∀ n v, σ !! stored BASE_DIR n = Some v → printable (st_mtime v) = true.

(** *** The child processes of the transcoder

    [subprocess.run] waits for its child without a timeout: a child exits,
    with or without success, or it never does and the request that started
    it gets no answer.  An [ffmpeg] record is what a request observes of a
    transcoder whose two processes (the version probe and the encode)
    exit. *)
Inductive child := Exits (ok : bool) | Hangs.

Record transcoder := Transcoder {
  probe : child;
  encode : child;
  encode_leaves : option (list Byte.byte);
  encode_at : Z;
}.

Definition exited (tc : transcoder) : option ffmpeg :=
  match probe tc, encode tc with
  | Exits p, Exits e =>
      Some {| probe_ok := p; encode_ok := e;
              encode_output := encode_leaves tc;
              encode_time := encode_at tc |}
  | _, _ => None
  end.

(** ** The superseded variant ([app.py])

    Its chunk sink, which appends to the final name directly and reports the
    size of the chunk, and its [latest]. *)
Module AppPy.
Section Service.
Variable VIDEO_DIR : path.

Definition _session_path (session_id ext : string) : path :=
  os_path_join VIDEO_DIR (session_id +:+ ext).

Definition upload_chunk (now : Z) (session_id : string)
    (chunk : list Byte.byte) : io response :=
  let path := _session_path session_id ".webm" in
  do _ ← open_ Append now path chunk;
  ret (jsonify 200 (JObj [("ok", JBool true);
                          ("size", JNum (Z.of_nat (length chunk)))])).

(** [latest] of [app.py]: the ".webm" file with the largest
    modification time, compared at full resolution.  [VIDEO_DIR] is the
    relative path "videos" in [app.py]: [glob] and [os.path.getmtime]
    resolve it against the working directory (the section's
    [VIDEO_DIR] is that directory's "videos"), [flask.send_file]
    resolves the relative name it is given against [app.root_path].
    The directory part of the pattern is the literal "videos". *)
Variable root_path : path.
Variable listdir : fs → path → list string.

Definition latest : io response :=
  do found ← query (glob listdir VIDEO_DIR ".webm");
  do keyed ← for_each with_mtime found;
  match (sort_desc snd keyed).*1 with
  | [] => ret (jsonify 404 (JObj [("ok", JBool false);
                                  ("error", JStr "no video")]))
  | newest :: _ =>
      send_file (os_path_join (os_path_join root_path "videos")
                   (basename newest))
        (Some "video/webm")
  end.
End Service.
End AppPy.

(** The listing entry of the stored node [v] named [n]. *)
Definition entry_of (kind n : string) (v : node) : entry :=
  {| filename := n; bytes := st_size v; modified := second_of (st_mtime v);
     url := "/video/" +:+ n; type := kind |}.

(** The glob returned the path [f] and the lister made the entry [e] of
    kind [kind] from it: [f] is a stored name and [e] is its entry. *)
Definition lists_as (BASE_DIR : path) (σ : fs) (kind : string) (f : path)
    (e : entry) : Prop :=
  ∃ n v, f = stored BASE_DIR n ∧ σ !! stored BASE_DIR n = Some v
         ∧ e = entry_of kind n v.

(** The sizes the chunk sink reports over successive uploads to one partial
    file that holds [start] bytes. *)
Fixpoint running_totals (start : Z) (chunks : list (list Byte.byte))
    : list Z :=
  match chunks with
  | [] => []
  | c :: rest =>
      let size := start + Z.of_nat (length c) in
      size :: running_totals size rest
  end.

(** ** Reading responses *)

(** The field [k] of a JSON response. *)
Definition response_field (k : string) (r : response) : option json :=
  match payload r with
  | Json j => field k j
  | _ => None
  end.

(** The bytes a response streams. *)
Definition streamed (r : response) : option (list Byte.byte) :=
  match payload r with
  | Stream data _ => Some data
  | _ => None
  end.

(** The answer of the chunk sink that reports [size] received bytes. *)
Definition received (size : Z) : response :=
  {| status_code := 200; payload := Text "OK";
     headers := [("X-Received-Bytes", pretty size);
                 ("Access-Control-Expose-Headers", "X-Received-Bytes")] |}.

Definition is_mp4 (v : entry) : bool := Str.ends_with ".mp4" (filename v).

(** Newest first, by the second the entries show. *)
Definition newest_first (a b : entry) : Prop := modified b ≤ modified a.

(** ** The directory enumeration

    All that is known of [os.listdir]: it returns the names of the entries of
    the directory in an order of its own. *)
Definition lists_directories (listdir : fs → path → list string) : Prop :=
  ∀ (σ : fs) (q : path) (n : string),
    n ∈ listdir σ q ↔ proper_name n = true ∧ is_Some (σ !! (q ++ [n])).

(** [os.listdir] returns every name once. *)
Definition lists_once (listdir : fs → path → list string) : Prop :=
  ∀ (σ : fs) (q : path), NoDup (listdir σ q).

(** The sum of the lengths of the chunks. *)
Definition total_length (chunks : list (list Byte.byte)) : Z :=
  foldr (λ c acc, Z.of_nat (length c) + acc) 0 chunks.

(** The name the transcoder writes for a session:
    [os.path.splitext(session_id + ".webm")[0] + ".mp4"]. *)
Definition mp4_name (session_id : string) : string :=
  fst (Str.splitext (session_id +:+ ".webm")) +:+ ".mp4".

(** The names the service stores for a session: the partial file, the
    finalized video, the transcoded video and the snapshot. *)
Definition session_names (session_id : string) : list string :=
  [session_id +:+ ".webm.partial"; session_id +:+ ".webm";
   mp4_name session_id; session_id +:+ ".jpg"].

(** A computation that only reads: it leaves the disk as it found it and
    makes no call that writes. *)
Definition reads {A} (m : io A) : Prop := ∀ σ, ∃ r, m σ = (r, σ, []).

(** ** Reading traces *)

(** How often [q] was the source of a rename. *)
Definition renames_from (q : path) (t : list event) : nat :=
  length (List.filter (λ e, match e with
                            | Renamed src _ => bool_decide (src = q)
                            | _ => false
                            end) t).

(** How often a file was created at [q] by an [open]. *)
Definition creations_at (q : path) (t : list event) : nat :=
  length (List.filter (λ e, match e with
                            | Opened _ q' true => bool_decide (q' = q)
                            | _ => false
                            end) t).

(** Whether [q] was opened for append. *)
Definition appended_to (q : path) (t : list event) : bool :=
  existsb (λ e, match e with
                | Opened Append q' _ => bool_decide (q' = q)
                | _ => false
                end) t.

(** The disk after the transcoder ran with output path [q]. *)
Definition after_encode (ff : ffmpeg) (q : path) (σ : fs) : fs :=
  match probe_ok ff, encode_output ff with
  | true, Some data =>
      match σ !! q with
      | Some (Dir _ _) => σ
      | _ => <[q := File data (encode_time ff)]> σ
      end
  | _, _ => σ
  end.

(** ** What the specification says [/latest] selects

    "Prefers a transcoded artifact over its raw counterpart when both exist
    for the most recent session", and recency otherwise: the most recent
    session is the one of the first listed entry; when the listing holds both
    its ".mp4" and its ".webm", the ".mp4" is selected, otherwise the first
    listed entry is. *)
Definition session_of (name : string) : string := fst (Str.splitext name).

Definition listed (name : string) (vids : list entry) : option entry :=
  List.find (λ v, String.eqb (filename v) name) vids.

Definition spec_latest (vids : list entry) : option entry :=
  match vids with
  | [] => None
  | newest :: _ =>
      let s := session_of (filename newest) in
      match listed (s +:+ ".mp4") vids, listed (s +:+ ".webm") vids with
      | Some transcoded, Some _ => Some transcoded
      | _, _ => Some newest
      end
  end.

(** ** A small deployment, for the examples *)
Module Demo.

Definition base : path := ["srv"; "app"].

Definition videos : path := ["srv"; "app"; "videos"].

(** The disk right after start-up: the storage directory is empty. *)
Definition disk0 : fs :=
  <[ videos := Dir 4096 0 ]>
    (<[ ["srv"; "app"] := Dir 4096 0 ]> (<[ ["srv"] := Dir 4096 0 ]> ∅)).

Definition A : list Byte.byte := [Byte.x41; Byte.x41; Byte.x41].
Definition B : list Byte.byte := [Byte.x42; Byte.x42].

(** One chunk has been uploaded for the session "abc". *)
Definition disk_partial : fs :=
  <[ videos ++ ["abc.webm.partial"] := File A 1000000 ]> disk0.

(** The session "abc" has been finalized without a transcoder. *)
Definition disk_final : fs :=
  <[ videos ++ ["abc.webm"] := File A 1000000 ]> disk0.

(** An old session with a transcoded video, and a newer session whose
    video was never transcoded. *)
Definition disk_mixed : fs :=
  <[ videos ++ ["new.webm"] := File A 100000000 ]>
    (<[ videos ++ ["old.mp4"] := File B 10000000 ]> disk0).

(** A file next to the storage directory. *)
Definition disk_secret : fs :=
  <[ ["srv"; "app"; "secret.txt"] := File B 0 ]> disk0.

(** The program directory before the storage directory was created. *)
Definition disk_bare : fs :=
  <[ ["srv"; "app"] := Dir 4096 0 ]> (<[ ["srv"] := Dir 4096 0 ]> ∅).

(** A snapshot of the session "abc" has been stored. *)
Definition disk_snap : fs :=
  <[ videos ++ ["abc.jpg"] := File B 5000000 ]> disk0.

(** The transcoder is not installed. *)
Definition missing : ffmpeg := no_ffmpeg.

(** The transcoder runs and leaves two bytes of output. *)
Definition working (at_ : Z) : ffmpeg :=
  {| probe_ok := true; encode_ok := true; encode_output := Some B;
     encode_time := at_ |}.

(** The same transcoder as the two processes the program starts. *)
Definition running (at_ : Z) : transcoder :=
  {| probe := Exits true; encode := Exits true; encode_leaves := Some B;
     encode_at := at_ |}.

(** The probe runs, the encode exits with an error and leaves nothing. *)
Definition failing : ffmpeg :=
  {| probe_ok := true; encode_ok := false; encode_output := None;
     encode_time := 0 |}.

(** The same transcoder as the two processes the program starts. *)
Definition failed : transcoder :=
  {| probe := Exits true; encode := Exits false; encode_leaves := None;
     encode_at := 0 |}.

(** The encode writes two bytes of output and then exits with an
    error. *)
Definition crashing (at_ : Z) : ffmpeg :=
  {| probe_ok := true; encode_ok := false; encode_output := Some B;
     encode_time := at_ |}.

End Demo.

(** * Proofs *)

(** ** Strings and names *)

Lemma string_length_app (a b : string) :
  String.length (a +:+ b) = (String.length a + String.length b)%nat.
Proof. induction a as [|c a IH]; simpl; [done | by rewrite IH]. Qed.

Lemma has_slash_app (a b : string) :
  Str.has_slash (a +:+ b) = Str.has_slash a || Str.has_slash b.
Proof.
  induction a as [|c a IH]; simpl; [done |].
  rewrite IH. by destruct (Ascii.eqb c "/").
Qed.

Lemma split_slash_plain (s : string) :
  Str.has_slash s = false → Str.split_slash s = [s].
Proof.
  induction s as [|c s IH]; simpl; [done |].
  destruct (Ascii.eqb c "/"); simpl; [done |].
  intros H. by rewrite (IH H).
Qed.

Lemma last_char_app (a b : string) :
  b ≠ EmptyString → Str.last_char (a +:+ b) = Str.last_char b.
Proof.
  intros Hb. induction a as [|c a IH]; [done |].
  change (String c a +:+ b) with (String c (a +:+ b)).
  simpl. rewrite IH.
  destruct (a +:+ b) eqn:E; [| done].
  destruct a, b; simplify_eq/=.
Qed.

Lemma ends_with_app (p x : string) : Str.ends_with p (x +:+ p) = true.
Proof.
  induction x as [|c x IH]; simpl.
  - destruct p; simpl; rewrite ?Ascii.eqb_refl, ?String.eqb_refl; done.
  - rewrite IH. by rewrite orb_true_r.
Qed.

Lemma ends_with_last_char (p s : string) :
  p ≠ EmptyString → Str.ends_with p s = true →
  Str.last_char s = Str.last_char p.
Proof.
  intros Hp. induction s as [|c s IH]; simpl.
  - rewrite orb_false_r. intros ?%String.eqb_eq. done.
  - intros [->%String.eqb_eq | H]%orb_true_iff; [done |].
    rewrite <- (IH H). destruct s; [| done].
    simpl in H. rewrite orb_false_r in H. apply String.eqb_eq in H. done.
Qed.

(** The suffixes the service uses end in different characters. *)
Lemma suffix_clash (x y e1 e2 : string) :
  e1 ≠ EmptyString → e2 ≠ EmptyString →
  Str.last_char e1 ≠ Str.last_char e2 → x +:+ e1 ≠ y +:+ e2.
Proof.
  intros H1 H2 Hne E. apply Hne.
  by rewrite <- (last_char_app x e1), <- (last_char_app y e2), E.
Qed.

Lemma string_app_inj_r (x y e : string) : x +:+ e = y +:+ e → x = y.
Proof.
  revert y. induction x as [|c x IH]; intros [|d y]; simpl; intros E.
  - done.
  - exfalso. apply (f_equal String.length) in E.
    rewrite !string_length_app in E. simpl in E. lia.
  - exfalso. apply (f_equal String.length) in E.
    rewrite !string_length_app in E. simpl in E. lia.
  - injection E as -> E. f_equal. by apply IH.
Qed.

Lemma proper_name_long (n : string) :
  Str.has_slash n = false → (2 < String.length n)%nat →
  proper_name n = true.
Proof.
  intros Hs Hl. unfold proper_name. rewrite Hs.
  destruct n as [|a [|b [|c n]]]; simpl in Hl; try lia.
  simpl. by destruct (Ascii.eqb a "."), (Ascii.eqb b ".").
Qed.

Lemma rsplit_dot_app (s r e : string) :
  Str.rsplit_dot s = Some (r, e) → s = r +:+ e.
Proof.
  revert r e. induction s as [|c s IH]; simpl; intros r e; [done |].
  destruct (Str.rsplit_dot s) as [[r' e']|].
  - intros [= <- <-]. change (String c s = String c (r' +:+ e')).
    f_equal. by apply IH.
  - destruct (Ascii.eqb c "."); [| done]. by intros [= <- <-].
Qed.

Lemma splitext_no_slash (n : string) :
  Str.has_slash n = false → Str.has_slash (fst (Str.splitext n)) = false.
Proof.
  intros Hn. unfold Str.splitext.
  destruct (Str.rsplit_dot n) as [[r e]|] eqn:E; [| done].
  destruct (Str.all_dots r); [done |]. simpl.
  apply rsplit_dot_app in E. subst n.
  rewrite has_slash_app in Hn. by apply orb_false_iff in Hn as [? _].
Qed.

(** The default URL converter hands over one non-empty segment; with any of
    the service's suffixes appended it is a directory entry name. *)
Lemma segment_proper (sid ext : string) :
  segment sid = true → Str.has_slash ext = false →
  (2 ≤ String.length ext)%nat → proper_name (sid +:+ ext) = true.
Proof.
  unfold segment. intros [Hne Hs]%andb_true_iff He Hl.
  apply negb_true_iff in Hs. apply negb_true_iff, String.eqb_neq in Hne.
  apply proper_name_long.
  - by rewrite has_slash_app, Hs, He.
  - rewrite string_length_app. destruct sid; [done | simpl; lia].
Qed.

Lemma proper_name_no_slash (n : string) :
  proper_name n = true → Str.has_slash n = false ∧ n ≠ EmptyString.
Proof.
  unfold proper_name. intros H.
  repeat (apply andb_true_iff in H as [H ?]).
  split; [by apply negb_true_iff |].
  by apply negb_true_iff, String.eqb_neq in H.
Qed.

(** ** Paths *)

Lemma os_path_join_plain (d : path) (n : string) :
  Str.has_slash n = false → n ≠ EmptyString → os_path_join d n = d ++ [n].
Proof.
  intros Hs Hn. unfold os_path_join. destruct n as [|c n]; [done |].
  pose proof (split_slash_plain _ Hs) as E. simpl in Hs.
  destruct (Ascii.eqb c "/"); [done |]. by rewrite E.
Qed.

Lemma basename_snoc (d : path) (n : string) : basename (d ++ [n]) = n.
Proof. unfold basename. apply last_last. Qed.

Lemma replace_ext_snoc (d : path) (n suffix : string) :
  replace_ext (d ++ [n]) suffix = d ++ [fst (Str.splitext n) +:+ suffix].
Proof. unfold replace_ext. by rewrite basename_snoc, removelast_last. Qed.

(** ** Path resolution *)

Lemma step_proper (cur : path) (c : string) :
  proper_name c = true → FS.step cur c = cur ++ [c].
Proof.
  unfold proper_name, FS.step.
  destruct (String.eqb c EmptyString); [done |].
  destruct (String.eqb c "."); [done |].
  by destruct (String.eqb c "..").
Qed.

Lemma walk_app (σ : fs) (cur p p' : path) :
  FS.walk σ cur (p ++ p') =
  match FS.walk σ cur p with
  | Some q => FS.walk σ q p'
  | None => None
  end.
Proof.
  revert cur. induction p as [|c p IH]; intros cur; simpl; [done |].
  destruct (FS.is_dir_at σ cur); [apply IH | done].
Qed.

Lemma node_at_snoc (σ : fs) (d : path) (n : string) :
  FS.node_at σ (d ++ [n]) = σ !! (d ++ [n]).
Proof. by destruct d. Qed.

Lemma node_at_insert_ne (σ : fs) (k q : path) (v : node) :
  k ≠ q → FS.node_at (<[k := v]> σ) q = FS.node_at σ q.
Proof. intros. destruct q; [done |]. simpl. by rewrite lookup_insert_ne. Qed.

Lemma node_at_delete_ne (σ : fs) (k q : path) :
  k ≠ q → FS.node_at (delete k σ) q = FS.node_at σ q.
Proof. intros. destruct q; [done |]. simpl. by rewrite lookup_delete_ne. Qed.

(** A walk down existing directories along proper names ends where the path
    says. *)
Lemma walk_dirs (σ : fs) (cur comps : path) :
  Forall (λ c, proper_name c = true) comps →
  (∀ i, (i < length comps)%nat →
        FS.is_dir_at σ (cur ++ take i comps) = true) →
  FS.walk σ cur comps = Some (cur ++ comps).
Proof.
  revert cur. induction comps as [|c comps IH]; intros cur Hp Hd; simpl.
  - by rewrite app_nil_r.
  - inversion_clear Hp as [|? ? Hc Hrest].
    pose proof (Hd 0%nat ltac:(simpl; lia)) as H0.
    simpl in H0. rewrite app_nil_r in H0. rewrite H0.
    rewrite (step_proper _ _ Hc), (IH _ Hrest).
    + by rewrite <- app_assoc.
    + intros i Hi. specialize (Hd (S i) ltac:(simpl; lia)).
      simpl in Hd. by rewrite <- app_assoc.
Qed.

Lemma makedirs_dirs (σ : fs) (now : Z) (cur comps : path) :
  (∀ i, (0 < i ≤ length comps)%nat →
        FS.is_dir_at σ (cur ++ take i comps) = true) →
  FS.makedirs_from now cur comps σ = Some σ.
Proof.
  revert cur. induction comps as [|c comps IH]; intros cur Hd; [done |].
  pose proof (Hd 1%nat ltac:(simpl; lia)) as H1. simpl in H1.
  unfold FS.is_dir_at in H1. rewrite take_0 in H1.
  cbn [FS.makedirs_from]. cbv zeta.
  destruct (FS.node_at σ (cur ++ [c])) as [[]|]; try done.
  apply IH. intros i Hi. specialize (Hd (S i) ltac:(simpl; lia)).
  simpl in Hd. by rewrite <- app_assoc.
Qed.

Section Proofs.

Variable BASE_DIR : path.
Variable listdir : fs → path → list string.

Local Abbreviation Vd := (VIDEO_DIR BASE_DIR).
Local Abbreviation K := (stored BASE_DIR).
Local Abbreviation ready := (storage_ready BASE_DIR).

Lemma VIDEO_DIR_eq : Vd = BASE_DIR ++ ["videos"].
Proof. reflexivity. Qed.

Lemma stored_inj (n n' : string) : K n = K n' → n = n'.
Proof. unfold stored. by intros [= ->]%app_inv_head. Qed.

Lemma stored_not_prefix (n : string) (i : nat) : take i Vd ≠ K n.
Proof.
  intros E. apply (f_equal length) in E. unfold stored in E.
  rewrite length_app, length_take in E. simpl in E. lia.
Qed.

Lemma session_path_stored (sid ext : string) :
  segment sid = true → Str.has_slash ext = false →
  _session_path BASE_DIR sid ext = K (sid +:+ ext).
Proof.
  unfold segment. intros [Hne Hs]%andb_true_iff He.
  apply negb_true_iff in Hs. apply negb_true_iff, String.eqb_neq in Hne.
  unfold _session_path. apply os_path_join_plain.
  - by rewrite has_slash_app, Hs, He.
  - by destruct sid.
Qed.

Lemma ready_insert (σ : fs) (n : string) (v : node) :
  ready σ → ready (<[K n := v]> σ).
Proof.
  intros [Hp Hd]. split; [done |]. intros i. unfold FS.is_dir_at.
  rewrite node_at_insert_ne; [apply Hd |].
  intros E. by apply (stored_not_prefix n i).
Qed.

Lemma ready_delete (σ : fs) (n : string) :
  ready σ → ready (delete (K n) σ).
Proof.
  intros [Hp Hd]. split; [done |]. intros i. unfold FS.is_dir_at.
  rewrite node_at_delete_ne; [apply Hd |].
  intros E. by apply (stored_not_prefix n i).
Qed.

Lemma ready_is_dir (σ : fs) :
  ready σ → FS.is_dir_at σ Vd = true.
Proof.
  intros [_ Hd]. specialize (Hd (length Vd)).
  by rewrite firstn_all in Hd.
Qed.

Lemma resolve_ready (σ : fs) :
  ready σ → FS.resolve σ Vd = Some Vd.
Proof.
  intros [Hp Hd]. unfold FS.resolve.
  by rewrite (walk_dirs σ [] Vd Hp (λ i _, Hd i)).
Qed.

Lemma resolve_stored (σ : fs) (n : string) :
  ready σ → proper_name n = true →
  FS.resolve σ (K n) = Some (K n).
Proof.
  intros Hr Hn. unfold FS.resolve, K.
  rewrite walk_app. fold (FS.resolve σ Vd).
  rewrite (resolve_ready _ Hr). simpl.
  by rewrite (ready_is_dir _ Hr), (step_proper _ _ Hn).
Qed.

Lemma node_at_stored (σ : fs) (n : string) : FS.node_at σ (K n) = σ !! K n.
Proof. apply node_at_snoc. Qed.

Lemma basename_stored (n : string) : basename (K n) = n.
Proof. apply basename_snoc. Qed.

Lemma stat_stored (σ : fs) (n : string) :
  ready σ → proper_name n = true →
  FS.stat σ (K n) = σ !! K n.
Proof.
  intros Hr Hn. unfold FS.stat. rewrite (resolve_stored _ _ Hr Hn).
  apply node_at_snoc.
Qed.

Lemma makedirs_ready (σ : fs) (now : Z) :
  ready σ → FS.makedirs now Vd σ = Some σ.
Proof.
  intros [_ Hd]. apply makedirs_dirs. intros i _. apply (Hd i).
Qed.

(** The directories [os.makedirs] leaves behind, and what it keeps. *)
Lemma makedirs_from_spec (now : Z) (cur comps : path) (σ σ' : fs) :
  FS.makedirs_from now cur comps σ = Some σ' →
  (∀ i, (0 < i ≤ length comps)%nat →
        FS.is_dir_at σ' (cur ++ take i comps) = true)
  ∧ (∀ k, (∀ i, (0 < i ≤ length comps)%nat → k ≠ cur ++ take i comps) →
          σ' !! k = σ !! k).
Proof.
  revert cur σ. induction comps as [|c comps IH]; intros cur σ.
  - intros [= <-]. split; [simpl; lia | done].
  - cbn [FS.makedirs_from]. cbv zeta. intros Hm.
    assert (∃ σ1, FS.makedirs_from now (cur ++ [c]) comps σ1 = Some σ'
                  ∧ FS.is_dir_at σ1 (cur ++ [c]) = true
                  ∧ ∀ k, k ≠ cur ++ [c] → σ1 !! k = σ !! k)
      as (σ1 & Hm1 & Hd1 & Hk1).
    { unfold FS.is_dir_at.
      destruct (FS.node_at σ (cur ++ [c])) as [[]|] eqn:E; [done | |].
      - exists σ. by rewrite E.
      - exists (<[cur ++ [c] := Dir 0 now]> σ). split; [done |]. split.
        + by rewrite node_at_snoc, lookup_insert_eq.
        + intros k Hk. by rewrite lookup_insert_ne. }
    destruct (IH _ _ Hm1) as [Hdirs Hkeep]. split.
    + intros [|[|i]] Hi; [lia | |].
      * simpl. rewrite take_0. unfold FS.is_dir_at in *.
        rewrite node_at_snoc in *. rewrite Hkeep; [done |].
        intros i Hi' E. apply (f_equal length) in E.
        rewrite !length_app, length_take in E. simpl in E. lia.
      * specialize (Hdirs (S i) ltac:(simpl in *; lia)).
        by rewrite <- app_assoc in Hdirs.
    + intros k Hk. rewrite Hkeep.
      * apply Hk1. specialize (Hk 1%nat ltac:(simpl; lia)). simpl in Hk.
        by rewrite take_0 in Hk.
      * intros i Hi. specialize (Hk (S i) ltac:(simpl; lia)). simpl in Hk.
        by rewrite <- app_assoc.
Qed.

(** Start-up leaves the storage directory ready. *)
Lemma startup_ready (now : Z) (σ σ' : fs) (t : list event) :
  Forall (λ c, proper_name c = true) Vd →
  startup BASE_DIR now σ = (Some tt, σ', t) → ready σ'.
Proof.
  intros Hp. unfold startup, os_makedirs.
  destruct (FS.makedirs now Vd σ) as [σ1|] eqn:E; [| done].
  intros [= <- _]. split; [done |]. intros i.
  destruct (makedirs_from_spec _ _ _ _ _ E) as [Hdirs _].
  destruct i as [|i]; [done |].
  destruct (decide (S i ≤ length Vd)%nat) as [Hle | Hgt].
  - apply (Hdirs (S i)). lia.
  - rewrite take_ge by lia. specialize (Hdirs (length Vd)).
    rewrite firstn_all in Hdirs. apply Hdirs. split; [| lia].
    rewrite VIDEO_DIR_eq, length_app. simpl. lia.
Qed.

(** ** The handlers on a ready storage directory *)

Lemma exists_stored (σ : fs) (n : string) :
  ready σ → proper_name n = true →
  FS.exists_ σ (K n) = match σ !! K n with Some _ => true | None => false end.
Proof. intros Hr Hn. unfold FS.exists_. by rewrite stat_stored. Qed.

Lemma read_stored (σ : fs) (n : string) :
  ready σ → proper_name n = true →
  FS.read σ (K n) = match σ !! K n with
                    | Some (File data _) => Some data
                    | _ => None
                    end.
Proof. intros Hr Hn. unfold FS.read. by rewrite stat_stored. Qed.

Lemma partial_proper (sid : string) :
  segment sid = true → proper_name (sid +:+ ".webm.partial") = true.
Proof. intros. apply segment_proper; [done | done | simpl; lia]. Qed.

Lemma webm_proper (sid : string) :
  segment sid = true → proper_name (sid +:+ ".webm") = true.
Proof. intros. apply segment_proper; [done | done | simpl; lia]. Qed.

Lemma jpg_proper (sid : string) :
  segment sid = true → proper_name (sid +:+ ".jpg") = true.
Proof. intros. apply segment_proper; [done | done | simpl; lia]. Qed.

Lemma partial_path_stored (sid : string) :
  segment sid = true →
  _session_path BASE_DIR sid (".webm" +:+ PART_EXT)
  = K (sid +:+ ".webm.partial").
Proof. intros. by apply session_path_stored. Qed.

(** The chunk sink in closed form. *)
Lemma upload_chunk_ready (σ : fs) (now : Z) (sid : string)
    (data : list Byte.byte) :
  ready σ → segment sid = true →
  upload_chunk BASE_DIR now sid data σ =
  let q := K (sid +:+ ".webm.partial") in
  match σ !! q with
  | Some (Dir _ _) => (None, σ, [])
  | Some (File old t) =>
      (Some (received (Z.of_nat (length (old ++ data)))),
       <[q := File (old ++ data) (match data with [] => t | _ => now end)]> σ,
       [Opened Append q false])
  | None =>
      (Some (received (Z.of_nat (length data))),
       <[q := File data now]> σ, [Opened Append q true])
  end.
Proof.
  intros Hr Hs. pose proof (partial_proper _ Hs) as Hp.
  unfold upload_chunk, bind, os_makedirs, open_, query_opt, ret.
  rewrite (makedirs_ready _ _ Hr), (partial_path_stored _ Hs).
  unfold FS.open_write. rewrite (resolve_stored _ _ Hr Hp), node_at_stored.
  cbv zeta. destruct (σ !! K (sid +:+ ".webm.partial")) as [[old t| ]|] eqn:E;
    [| done |];
    unfold FS.getsize; rewrite stat_stored by (by try apply ready_insert);
    by rewrite lookup_insert_eq.
Qed.

(** The snapshot sink in closed form. *)
Lemma snapshot_ready (σ : fs) (now : Z) (sid : string)
    (data : list Byte.byte) :
  ready σ → segment sid = true →
  snapshot BASE_DIR now sid data σ =
  let q := K (sid +:+ ".jpg") in
  match σ !! q with
  | Some (Dir _ _) => (None, σ, [])
  | other =>
      (Some (jsonify 200 (JObj [("ok", JBool true); ("at", _now_iso now);
                                ("file", JStr (sid +:+ ".jpg"))])),
       <[q := File data now]> σ,
       [Opened Truncate q (match other with Some _ => false | None => true end)])
  end.
Proof.
  intros Hr Hs. pose proof (jpg_proper _ Hs) as Hp.
  unfold snapshot, bind, open_, ret.
  rewrite (session_path_stored _ _ Hs) by done.
  unfold FS.open_write. rewrite (resolve_stored _ _ Hr Hp), node_at_stored.
  cbv zeta. rewrite basename_stored.
  by destruct (σ !! K (sid +:+ ".jpg")) as [[old t| ]|] eqn:E.
Qed.

(** ** The finalizer, branch by branch *)

Lemma finalize_missing (σ : fs) (now : Z) (ff : ffmpeg) (sid : string) :
  FS.exists_ σ (_session_path BASE_DIR sid (".webm" +:+ PART_EXT)) = false →
  FS.exists_ σ (_session_path BASE_DIR sid ".webm") = false →
  finalize BASE_DIR now ff sid σ =
  (Some (jsonify 404 (JObj [("ok", JBool false);
                            ("error", JStr "no recording")])), σ, []).
Proof. intros Hp Hw. unfold finalize, bind, query. by rewrite Hp, Hw. Qed.

Lemma finalize_again (σ : fs) (now : Z) (ff : ffmpeg) (sid : string) :
  let webm_path := _session_path BASE_DIR sid ".webm" in
  let mp4_path := replace_ext webm_path ".mp4" in
  FS.exists_ σ webm_path = true →
  finalize BASE_DIR now ff sid σ =
  (Some (jsonify 200
           (JObj ([("ok", JBool true); ("webm", JStr (basename webm_path))]
                  ++ if FS.exists_ σ mp4_path
                     then [("mp4", JStr (basename mp4_path))] else []))),
   σ, []).
Proof.
  intros webm_path mp4_path Hw. unfold finalize, bind, query, ret.
  fold webm_path. rewrite Hw. fold mp4_path.
  rewrite andb_false_r. by destruct (FS.exists_ σ mp4_path).
Qed.

Lemma mp4_proper (sid : string) :
  segment sid = true → proper_name (mp4_name sid) = true.
Proof.
  intros Hs. unfold mp4_name. apply proper_name_long.
  - rewrite has_slash_app, splitext_no_slash; [done |].
    by apply proper_name_no_slash, webm_proper.
  - rewrite string_length_app. simpl. lia.
Qed.

Lemma mp4_path_stored (sid : string) :
  replace_ext (K (sid +:+ ".webm")) ".mp4" = K (mp4_name sid).
Proof. apply replace_ext_snoc. Qed.

Lemma webm_ne_partial (s s' : string) :
  K (s +:+ ".webm") ≠ K (s' +:+ ".webm.partial").
Proof. intros E%stored_inj. by apply suffix_clash in E. Qed.

Lemma mp4_ne_webm (s s' : string) : K (mp4_name s) ≠ K (s' +:+ ".webm").
Proof. intros E%stored_inj. by apply suffix_clash in E. Qed.

Lemma mp4_ne_partial (s s' : string) :
  K (mp4_name s) ≠ K (s' +:+ ".webm.partial").
Proof. intros E%stored_inj. by apply suffix_clash in E. Qed.

Lemma jpg_ne_webm (s s' : string) : K (s +:+ ".jpg") ≠ K (s' +:+ ".webm").
Proof. intros E%stored_inj. by apply suffix_clash in E. Qed.

(** The transcoder step in closed form: what it returns and the disk it
    leaves. *)
Lemma finalize_to_mp4_ready (σ : fs) (ff : ffmpeg) (sid : string) :
  ready σ → segment sid = true →
  ∃ t, _finalize_to_mp4 ff (K (sid +:+ ".webm")) σ =
       (Some (if probe_ok ff && encode_ok ff
                 && match after_encode ff (K (mp4_name sid)) σ
                          !! K (mp4_name sid) with
                    | Some _ => true
                    | None => false
                    end
              then Some (K (mp4_name sid)) else None),
        after_encode ff (K (mp4_name sid)) σ, t)
       ∧ ∀ e, e ∈ t → e = Encoded (K (mp4_name sid)).
Proof.
  intros Hr Hs. pose proof (mp4_proper _ Hs) as Hp.
  pose proof (resolve_stored _ _ Hr Hp) as Hres.
  pose proof (exists_stored σ _ Hr Hp) as Hex.
  assert (∀ v, FS.exists_ (<[K (mp4_name sid) := v]> σ) (K (mp4_name sid))
               = true) as Hex'.
  { intros v. rewrite exists_stored by (by try apply ready_insert).
    by rewrite lookup_insert_eq. }
  unfold _finalize_to_mp4, _ffmpeg_available, after_encode. cbv zeta.
  rewrite mp4_path_stored.
  unfold try_except, bind, run_encode, query, ret, FS.open_write.
  destruct (probe_ok ff); cbn [negb andb]; cbv beta;
    [| eexists; split; [reflexivity | by intros ? ?%elem_of_nil]].
  rewrite Hres, node_at_stored.
  destruct (encode_ok ff), (encode_output ff) as [data|],
    (σ !! K (mp4_name sid)) as [[|]|] eqn:E;
    cbn [negb andb]; rewrite ?Hex', ?Hex, ?lookup_insert_eq, ?E;
    eexists; (split; [reflexivity |]); intros e;
    rewrite ?app_nil_r, ?list_elem_of_singleton;
    solve [done | by intros ?%elem_of_nil].
Qed.

Lemma isdir_stored (σ : fs) (n : string) :
  ready σ → proper_name n = true →
  FS.isdir σ (K n) = match σ !! K n with
                     | Some (Dir _ _) => true
                     | _ => false
                     end.
Proof. intros Hr Hn. unfold FS.isdir. by rewrite stat_stored. Qed.

Lemma stored_prefix (n n' : string) : K n `prefix_of` K n' → n = n'.
Proof.
  intros [l E]. unfold stored in E. rewrite <- app_assoc in E.
  apply app_inv_head in E. by injection E.
Qed.

(** Renaming a stored regular file onto a free stored name. *)
Lemma rename_stored_file (σ : fs) (n n' : string)
    (data : list Byte.byte) (t : Z) :
  ready σ → proper_name n = true → proper_name n' = true →
  σ !! K n = Some (File data t) → σ !! K n' = None →
  shutil_move (K n) (K n') σ =
  (Some tt, <[K n' := File data t]> (delete (K n) σ),
   [Renamed (K n) (K n')]).
Proof.
  intros Hr Hn Hn' Hsrc Hdst.
  unfold shutil_move, bind, query, os_rename, FS.rename.
  rewrite (isdir_stored _ _ Hr Hn'), Hdst.
  rewrite (resolve_stored _ _ Hr Hn), (resolve_stored _ _ Hr Hn').
  by rewrite Hsrc, node_at_stored, Hdst.
Qed.

(** What the finalizer does once the partial file has been moved. *)
Lemma finalize_after_move (σ σ1 : fs) (now : Z) (ff : ffmpeg)
    (sid : string) :
  ready σ → segment sid = true →
  is_Some (σ !! K (sid +:+ ".webm.partial")) →
  σ !! K (sid +:+ ".webm") = None →
  shutil_move (K (sid +:+ ".webm.partial")) (K (sid +:+ ".webm")) σ
  = (Some tt, σ1,
     [Renamed (K (sid +:+ ".webm.partial")) (K (sid +:+ ".webm"))]) →
  ready σ1 → is_Some (σ1 !! K (sid +:+ ".webm")) →
  let σ2 := after_encode ff (K (mp4_name sid)) σ1 in
  ∃ tr,
    finalize BASE_DIR now ff sid σ =
    (Some (jsonify 200
             (JObj [("ok", JBool true);
                    ("webm", JStr (sid +:+ ".webm"));
                    ("mp4", if probe_ok ff && encode_ok ff
                               && match σ2 !! K (mp4_name sid) with
                                  | Some _ => true
                                  | None => false
                                  end
                            then JStr (mp4_name sid) else JNull);
                    ("at", _now_iso now)])),
     σ2,
     Renamed (K (sid +:+ ".webm.partial")) (K (sid +:+ ".webm")) :: tr)
    ∧ (∀ e, e ∈ tr → e = Encoded (K (mp4_name sid)))
    ∧ (∀ k, k ≠ K (mp4_name sid) → σ2 !! k = σ1 !! k)
    ∧ ready σ2.
Proof.
  intros Hr Hs [v Hp] Hw Hmove Hr1 [v1 Hw1] σ2.
  pose proof (partial_proper _ Hs) as Hpp.
  pose proof (webm_proper _ Hs) as Hwp.
  pose proof (mp4_proper _ Hs) as Hmp.
  assert (ready σ2) as Hr2.
  { unfold σ2, after_encode.
    destruct (probe_ok ff), (encode_output ff); try done.
    destruct (σ1 !! K (mp4_name sid)) as [[]|]; try done;
      by apply ready_insert. }
  assert (∀ k, k ≠ K (mp4_name sid) → σ2 !! k = σ1 !! k) as Hother.
  { intros k Hk. unfold σ2, after_encode.
    destruct (probe_ok ff), (encode_output ff); try done.
    destruct (σ1 !! K (mp4_name sid)) as [[]|]; try done;
      by rewrite lookup_insert_ne. }
  assert (σ2 !! K (sid +:+ ".webm") = Some v1) as Hw2.
  { by rewrite Hother
      by (intros E; symmetry in E; by apply mp4_ne_webm in E). }
  destruct (finalize_to_mp4_ready σ1 ff sid Hr1 Hs) as (tr & Hfin & Htr).
  exists tr. split; [| done].
  unfold finalize. rewrite (partial_path_stored _ Hs).
  rewrite (session_path_stored sid ".webm" Hs) by done.
  unfold bind at 1. unfold query at 1.
  rewrite (exists_stored _ _ Hr Hpp), Hp.
  unfold bind at 1. unfold query at 1.
  rewrite (exists_stored _ _ Hr Hwp), Hw. cbn [negb andb].
  unfold bind at 1. rewrite Hmove.
  unfold bind at 1. rewrite Hfin. fold σ2.
  unfold bind, query, ret.
  rewrite (exists_stored _ _ Hr2 Hwp), Hw2, basename_stored.
  destruct (probe_ok ff && encode_ok ff
            && match σ2 !! K (mp4_name sid) with
               | Some _ => true
               | None => false
               end) eqn:Eok.
  - rewrite (exists_stored _ _ Hr2 Hmp), basename_stored.
    apply andb_true_iff in Eok as [_ Eok]. rewrite Eok.
    by rewrite !app_nil_r.
  - by rewrite !app_nil_r.
Qed.

(** The first finalize of a session whose partial file is a regular file:
    the rename, then the transcoder. *)
Lemma finalize_first (σ : fs) (now : Z) (ff : ffmpeg) (sid : string)
    (data : list Byte.byte) (t0 : Z) :
  ready σ → segment sid = true →
  σ !! K (sid +:+ ".webm.partial") = Some (File data t0) →
  σ !! K (sid +:+ ".webm") = None →
  let σ1 := <[K (sid +:+ ".webm") := File data t0]>
              (delete (K (sid +:+ ".webm.partial")) σ) in
  let σ2 := after_encode ff (K (mp4_name sid)) σ1 in
  ∃ tr,
    finalize BASE_DIR now ff sid σ =
    (Some (jsonify 200
             (JObj [("ok", JBool true);
                    ("webm", JStr (sid +:+ ".webm"));
                    ("mp4", if probe_ok ff && encode_ok ff
                               && match σ2 !! K (mp4_name sid) with
                                  | Some _ => true
                                  | None => false
                                  end
                            then JStr (mp4_name sid) else JNull);
                    ("at", _now_iso now)])),
     σ2,
     Renamed (K (sid +:+ ".webm.partial")) (K (sid +:+ ".webm")) :: tr)
    ∧ (∀ e, e ∈ tr → e = Encoded (K (mp4_name sid)))
    ∧ σ2 !! K (sid +:+ ".webm") = Some (File data t0)
    ∧ σ2 !! K (sid +:+ ".webm.partial") = None
    ∧ ready σ2.
Proof.
  intros Hr Hs Hp Hw σ1 σ2.
  pose proof (partial_proper _ Hs) as Hpp.
  pose proof (webm_proper _ Hs) as Hwp.
  assert (ready σ1) as Hr1 by (by apply ready_insert, ready_delete).
  destruct (finalize_after_move σ σ1 now ff sid Hr Hs) as
    (tr & Hfin & Htr & Hother & Hr2); try done.
  { by apply rename_stored_file. }
  { unfold σ1. by rewrite lookup_insert_eq. }
  exists tr. fold σ2 in Hfin, Hother, Hr2.
  split; [done |]. split; [done |]. split; [| split; [| done]].
  - rewrite Hother by (intros E; symmetry in E; by apply mp4_ne_webm in E).
    unfold σ1. by rewrite lookup_insert_eq.
  - rewrite Hother by (intros E; symmetry in E; by apply mp4_ne_partial in E).
    unfold σ1. rewrite lookup_insert_ne by apply webm_ne_partial.
    by rewrite lookup_delete_eq.
Qed.

(** ** Routing of the requests used below *)

Lemma strip_prefix_app (p s : string) : Str.strip_prefix p (p +:+ s) = Some s.
Proof.
  induction p as [|c p IH]; [by destruct s |].
  change (String c p +:+ s) with (String c (p +:+ s)). simpl.
  by rewrite Ascii.eqb_refl.
Qed.

Lemma serve_upload (sid : string) (now : Z) (data : list Byte.byte) :
  segment sid = true →
  serve BASE_DIR listdir (upload_request sid now data)
  = upload_chunk BASE_DIR now sid data.
Proof.
  intros Hs. unfold serve, upload_request, dispatch, under; simpl.
  change (EmptyString +:+ sid) with sid. by rewrite Hs.
Qed.

Lemma serve_finalize (sid : string) (now : Z) (ff : ffmpeg) :
  segment sid = true →
  serve BASE_DIR listdir (finalize_request sid now ff)
  = finalize BASE_DIR now ff sid.
Proof.
  intros Hs. unfold serve, finalize_request, dispatch, under; simpl.
  change (EmptyString +:+ sid) with sid. by rewrite Hs.
Qed.

Lemma run_app (rqs rqs' : list request) (σ : fs) :
  run BASE_DIR listdir (rqs ++ rqs') σ =
  match run BASE_DIR listdir rqs σ with
  | (rs, σ1, t1) =>
      match run BASE_DIR listdir rqs' σ1 with
      | (rs', σ2, t2) => (rs ++ rs', σ2, t1 ++ t2)
      end
  end.
Proof.
  revert σ. induction rqs as [|rq rqs IH]; intros σ; simpl.
  - by destruct (run BASE_DIR listdir rqs' σ) as [[? ?] ?].
  - destruct (serve BASE_DIR listdir rq σ) as [[r σ1] t1].
    rewrite IH. destruct (run BASE_DIR listdir rqs σ1) as [[rs σ2] t2].
    destruct (run BASE_DIR listdir rqs' σ2) as [[rs' σ3] t3].
    by rewrite app_assoc.
Qed.

Lemma length_concat_total (chunks : list (list Byte.byte)) :
  Z.of_nat (length (concat chunks)) = total_length chunks.
Proof.
  induction chunks as [|c chunks IH]; simpl; [done |].
  rewrite length_app. lia.
Qed.

(** Sequential uploads to a session whose partial file exists append their
    bodies in order. *)
Lemma run_uploads (σ : fs) (sid : string) (chunks : list (Z * list Byte.byte))
    (old : list Byte.byte) (t0 : Z) :
  ready σ → segment sid = true →
  σ !! K (sid +:+ ".webm.partial") = Some (File old t0) →
  ∃ rs t' tr,
    run BASE_DIR listdir (upload_requests sid chunks) σ =
    (rs, <[K (sid +:+ ".webm.partial")
            := File (old ++ concat chunks.*2) t']> σ, tr).
Proof.
  intros Hr Hs. revert σ old t0 Hr.
  induction chunks as [|[now data] chunks IH]; intros σ old t0 Hr Hp.
  - exists [], t0, []. simpl. by rewrite app_nil_r, insert_id.
  - cbn [upload_requests fmap list_fmap run fst snd].
    rewrite (serve_upload _ _ _ Hs), (upload_chunk_ready _ _ _ _ Hr Hs).
    cbv zeta. rewrite Hp.
    set (t1 := match data with [] => t0 | _ => now end).
    destruct (IH (<[K (sid +:+ ".webm.partial")
                     := File (old ++ data) t1]> σ) (old ++ data) t1
                (ready_insert _ _ _ Hr) (lookup_insert_eq _ _ _))
      as (rs & t' & tr & Hrun).
    fold (upload_requests sid chunks). rewrite Hrun.
    eexists _, t', _. rewrite insert_insert_eq.
    cbn [fmap list_fmap snd concat]. by rewrite app_assoc.
Qed.

(** C1: N >= 1 chunk uploads to a session that has neither a partial nor a
    finalized file, served one after the other and followed by one
    finalize, leave a finalized video file whose bytes are the uploaded
    bodies concatenated in upload order, so its size is the sum of the
    chunk lengths; the finalize answers 200 with that file's name.  The
    session's file name is one the operating system accepts, and the child
    processes of the transcoder exit. *)
Theorem upload_chunks_then_finalize (σ : fs) (sid : string)
    (chunks : list (Z * list Byte.byte)) (now : Z) (tc : transcoder)
    (ff : ffmpeg) :
  let partial_path := _session_path BASE_DIR sid (".webm" +:+ PART_EXT) in
  let webm_path := _session_path BASE_DIR sid ".webm" in
  ready σ → segment sid = true → path_ok partial_path = true →
  chunks ≠ [] →
  FS.exists_ σ partial_path = false → FS.exists_ σ webm_path = false →
  exited tc = Some ff →
  ∃ rs r σ' tr,
    run BASE_DIR listdir
      (upload_requests sid chunks ++ [finalize_request sid now ff]) σ
    = (rs ++ [Some r], σ', tr)
    ∧ length rs = length chunks
    ∧ status_code r = 200
    ∧ response_field "webm" r = Some (JStr (sid +:+ ".webm"))
    ∧ FS.read σ' webm_path = Some (concat chunks.*2)
    ∧ FS.getsize σ' webm_path = Some (total_length chunks.*2).
Proof.
  intros partial_path webm_path Hr Hs _ Hne Hp Hw _.
  unfold partial_path, webm_path in *.
  rewrite (partial_path_stored _ Hs) in Hp.
  rewrite (session_path_stored sid ".webm" Hs) in Hw |- * by done.
  pose proof (partial_proper _ Hs) as Hpp.
  pose proof (webm_proper _ Hs) as Hwp.
  rewrite (exists_stored _ _ Hr Hpp) in Hp.
  rewrite (exists_stored _ _ Hr Hwp) in Hw.
  destruct (σ !! K (sid +:+ ".webm.partial")) eqn:Ep; [done |].
  destruct (σ !! K (sid +:+ ".webm")) eqn:Ew; [done |].
  destruct chunks as [|[t1 d1] chunks]; [done |].
  rewrite run_app.
  cbn [upload_requests fmap list_fmap run fst snd].
  rewrite (serve_upload _ _ _ Hs), (upload_chunk_ready _ _ _ _ Hr Hs).
  cbv zeta. rewrite Ep.
  set (σ1 := <[K (sid +:+ ".webm.partial") := File d1 t1]> σ).
  assert (ready σ1) as Hr1 by by apply ready_insert.
  destruct (run_uploads σ1 sid chunks d1 t1 Hr1 Hs (lookup_insert_eq _ _ _))
    as (rs & t' & tr & Hrun).
  fold (upload_requests sid chunks). rewrite Hrun.
  unfold σ1. rewrite insert_insert_eq.
  set (σ2 := <[K (sid +:+ ".webm.partial")
                := File (d1 ++ concat chunks.*2) t']> σ).
  assert (ready σ2) as Hr2 by by apply ready_insert.
  assert (σ2 !! K (sid +:+ ".webm") = None) as Hw2.
  { unfold σ2. rewrite lookup_insert_ne; [done |].
    intros E. symmetry in E. by apply webm_ne_partial in E. }
  cbn [run]. rewrite (serve_finalize _ _ _ Hs).
  destruct (finalize_first σ2 now ff sid _ _ Hr2 Hs
              (lookup_insert_eq _ _ _) Hw2)
    as (tr' & -> & _ & Hw3 & _ & Hr3).
  eexists (_ :: rs), _, _, _. split; [reflexivity |].
  assert (length rs = length chunks) as Hlen.
  { apply (f_equal (λ x, length x.1.1)) in Hrun. simpl in Hrun.
    rewrite <- Hrun. clear. generalize σ1.
    induction chunks as [|c chunks IH]; intros s0; simpl; [done |].
    destruct (serve _ _ _ s0) as [[? s1] ?].
    specialize (IH s1).
    destruct (run _ _ _ s1) as [[? ?] ?]. simpl in *. by rewrite IH. }
  split; [by rewrite length_cons, Hlen |].
  split; [done |]. split; [done |].
  rewrite (read_stored _ _ Hr3 Hwp). unfold FS.getsize.
  rewrite (stat_stored _ _ Hr3 Hwp), Hw3.
  cbn [fmap list_fmap snd concat]. split; [done |].
  cbn [st_size]. by rewrite <- length_concat_total.
Qed.

(** C7: a chunk of n bytes uploaded to a session whose partial file holds
    s bytes (s = 0 and no file when the session is new) is appended to that
    file, which is created if absent, and the answer reports the new total
    size s + n; no other file changes.  The name of the partial file is one
    the operating system accepts; the entries left as they were are all but
    the file itself and the directories above it. *)
Theorem upload_chunk_appends (σ : fs) (now : Z) (sid : string)
    (data old : list Byte.byte) :
  let partial_path := _session_path BASE_DIR sid (".webm" +:+ PART_EXT) in
  ready σ → segment sid = true → path_ok partial_path = true →
  FS.read σ partial_path = Some old
  ∨ (FS.exists_ σ partial_path = false ∧ old = []) →
  ∃ σ' tr,
    upload_chunk BASE_DIR now sid data σ
    = (Some (received (Z.of_nat (length old) + Z.of_nat (length data))),
       σ', tr)
    ∧ FS.read σ' partial_path = Some (old ++ data)
    ∧ FS.getsize σ' partial_path
      = Some (Z.of_nat (length old) + Z.of_nat (length data))
    ∧ (∀ k, ¬ k `prefix_of` partial_path → σ' !! k = σ !! k).
Proof.
  intros partial_path Hr Hs _ Hold. unfold partial_path in *.
  rewrite (partial_path_stored _ Hs) in *.
  pose proof (partial_proper _ Hs) as Hpp.
  rewrite (read_stored _ _ Hr Hpp), (exists_stored _ _ Hr Hpp) in Hold.
  rewrite (upload_chunk_ready _ _ _ _ Hr Hs). cbv zeta.
  assert (∀ v, FS.read (<[K (sid +:+ ".webm.partial") := v]> σ)
                 (K (sid +:+ ".webm.partial"))
               = match v with File d _ => Some d | _ => None end
             ∧ FS.getsize (<[K (sid +:+ ".webm.partial") := v]> σ)
                 (K (sid +:+ ".webm.partial")) = Some (st_size v)) as Hins.
  { intros v. unfold FS.getsize.
    rewrite read_stored, stat_stored by (by try apply ready_insert).
    by rewrite lookup_insert_eq. }
  destruct (σ !! K (sid +:+ ".webm.partial")) as [[old' t|]|] eqn:E.
  - destruct Hold as [[= ->] | [? _]]; [| done].
    eexists _, _. rewrite <- Nat2Z.inj_add, <- length_app.
    split; [reflexivity |]. destruct (Hins (File (old ++ data)
      (match data with [] => t | _ => now end))) as [-> ->].
    repeat split. intros k Hk.
    rewrite lookup_insert_ne; [done |]. by intros <-.
  - by destruct Hold as [? | [? _]].
  - destruct Hold as [? | [_ ->]]; [done |].
    eexists _, _. split; [reflexivity |].
    destruct (Hins (File data now)) as [-> ->].
    repeat split. intros k Hk.
    rewrite lookup_insert_ne; [done |]. by intros <-.
Qed.

(** C2: when the finalized video of a session exists, finalize answers 200
    with the name of that file, adds the name of the transcoded video
    exactly when that file exists, and neither changes the disk nor makes a
    call that writes. *)
Theorem finalize_twice_idempotent (σ : fs) (now : Z) (ff : ffmpeg)
    (sid : string) :
  let webm_path := _session_path BASE_DIR sid ".webm" in
  let mp4_path := replace_ext webm_path ".mp4" in
  FS.exists_ σ webm_path = true →
  ∃ r,
    finalize BASE_DIR now ff sid σ = (Some r, σ, [])
    ∧ status_code r = 200
    ∧ response_field "ok" r = Some (JBool true)
    ∧ response_field "webm" r = Some (JStr (basename webm_path))
    ∧ response_field "mp4" r
      = (if FS.exists_ σ mp4_path then Some (JStr (basename mp4_path))
         else None).
Proof.
  intros webm_path mp4_path Hw.
  rewrite (finalize_again σ now ff sid Hw).
  eexists. split; [reflexivity |]. fold webm_path mp4_path.
  by destruct (FS.exists_ σ mp4_path).
Qed.

(** C3: when neither the partial nor the finalized video of a session
    exists, finalize answers 404 with ok = false and leaves the disk as it
    is. *)
Theorem finalize_without_upload (σ : fs) (now : Z) (ff : ffmpeg)
    (sid : string) :
  FS.exists_ σ (_session_path BASE_DIR sid (".webm" +:+ PART_EXT)) = false →
  FS.exists_ σ (_session_path BASE_DIR sid ".webm") = false →
  ∃ r,
    finalize BASE_DIR now ff sid σ = (Some r, σ, [])
    ∧ status_code r = 404
    ∧ response_field "ok" r = Some (JBool false)
    ∧ response_field "error" r = Some (JStr "no recording").
Proof.
  intros Hp Hw. rewrite (finalize_missing σ now ff sid Hp Hw).
  by eexists.
Qed.

(** C4 (as the code has it): when the session has a partial file and no
    finalized one, and the transcoder is missing or its encode fails, the
    finalize still answers 200 with ok = true and the name of the raw
    video, which now holds the uploaded bytes; the "mp4" field is present
    and null. *)
Theorem finalize_swallows_transcoder_failure (σ : fs) (now : Z)
    (ff : ffmpeg) (sid : string) (data : list Byte.byte) :
  let partial_path := _session_path BASE_DIR sid (".webm" +:+ PART_EXT) in
  let webm_path := _session_path BASE_DIR sid ".webm" in
  ready σ → segment sid = true →
  FS.read σ partial_path = Some data → FS.exists_ σ webm_path = false →
  probe_ok ff = false ∨ encode_ok ff = false →
  ∃ r σ' tr,
    finalize BASE_DIR now ff sid σ = (Some r, σ', tr)
    ∧ status_code r = 200
    ∧ response_field "ok" r = Some (JBool true)
    ∧ response_field "webm" r = Some (JStr (sid +:+ ".webm"))
    ∧ response_field "mp4" r = Some JNull
    ∧ FS.read σ' webm_path = Some data.
Proof.
  intros partial_path webm_path Hr Hs Hp Hw Hfail.
  unfold partial_path, webm_path in *.
  rewrite (partial_path_stored _ Hs) in Hp.
  rewrite (session_path_stored sid ".webm" Hs) in Hw |- * by done.
  pose proof (partial_proper _ Hs) as Hpp.
  pose proof (webm_proper _ Hs) as Hwp.
  rewrite (read_stored _ _ Hr Hpp) in Hp.
  rewrite (exists_stored _ _ Hr Hwp) in Hw.
  destruct (σ !! K (sid +:+ ".webm.partial")) as [[d t0|]|] eqn:Ep;
    try done. injection Hp as ->.
  destruct (σ !! K (sid +:+ ".webm")) eqn:Ew; [done |].
  destruct (finalize_first σ now ff sid data t0 Hr Hs Ep Ew)
    as (tr & -> & _ & Hw2 & _ & Hr2).
  eexists _, _, _. split; [reflexivity |].
  rewrite (read_stored _ _ Hr2 Hwp), Hw2.
  repeat split.
  destruct Hfail as [-> | ->]; [done |]. by rewrite andb_false_r.
Qed.

(** ** The stable descending sort *)

Section sort_facts.
Context {A : Type} `{EqDecision A} (key : A → Z).

Local Abbreviation after := (λ a b : A, key b ≤ key a).

Lemma insert_desc_perm (x : A) (l : list A) :
  insert_desc key x l ≡ₚ x :: l.
Proof.
  induction l as [|y l IH]; simpl; [done |].
  destruct (key x <? key y); [| done].
  by rewrite IH, Permutation_swap.
Qed.

Lemma sort_desc_perm (l : list A) : sort_desc key l ≡ₚ l.
Proof.
  induction l as [|x l IH]; simpl; [done |].
  by rewrite insert_desc_perm, IH.
Qed.

Lemma insert_desc_sorted (x : A) (l : list A) :
  StronglySorted after l → StronglySorted after (insert_desc key x l).
Proof.
  induction 1 as [|y l Hl IH Hy]; simpl.
  - by repeat constructor.
  - destruct (Z.ltb_spec (key x) (key y)).
    + constructor; [done |].
      rewrite insert_desc_perm. constructor; [lia | done].
    + constructor; [by constructor |].
      constructor; [done |].
      eapply Forall_impl; [exact Hy |]. simpl. intros. lia.
Qed.

Lemma sort_desc_sorted (l : list A) : StronglySorted after (sort_desc key l).
Proof.
  induction l as [|x l IH]; simpl; [constructor |].
  by apply insert_desc_sorted.
Qed.

(** An entry whose key is larger than every other key comes first. *)
Lemma sort_desc_head (x : A) (l : list A) :
  x ∈ l → (∀ y, y ∈ l → y ≠ x → key y < key x) →
  ∃ rest, sort_desc key l = x :: rest.
Proof.
  induction l as [|a l IH]; intros Hx Hmax; [by apply elem_of_nil in Hx |].
  cbn [sort_desc foldr]. fold (sort_desc key l).
  destruct (decide (a = x)) as [-> | Hne].
  - destruct (sort_desc key l) as [|y l'] eqn:E; simpl; [by eexists |].
    destruct (Z.ltb_spec (key x) (key y)) as [Hlt | _]; [| by eexists].
    exfalso. assert (y ∈ l) as Hy.
    { rewrite <- (sort_desc_perm l), E. by left. }
    destruct (decide (y = x)) as [-> | Hyx]; [lia |].
    specialize (Hmax y (list_elem_of_further _ _ _ Hy) Hyx). lia.
  - apply elem_of_cons in Hx as [-> | Hx]; [done |].
    destruct IH as [rest ->]; [done | |].
    + intros y Hy. apply Hmax. by right.
    + simpl. specialize (Hmax a (list_elem_of_here _ _) Hne).
      destruct (Z.ltb_spec (key a) (key x)); [by eexists | lia].
Qed.
End sort_facts.

(** ** The directory lister *)

Lemma for_each_reads {A B} (f : A → io B) (l : list A) (σ : fs) :
  (∀ x, x ∈ l → ∃ y, f x σ = (Some y, σ, [])) →
  ∃ ys, for_each f l σ = (Some ys, σ, [])
        ∧ Forall2 (λ x y, f x σ = (Some y, σ, [])) l ys.
Proof.
  induction l as [|x l IH]; intros Hf.
  - exists []. by split; [| constructor].
  - destruct (Hf x (list_elem_of_here _ _)) as [y Hy].
    destruct IH as (ys & Hys & Hall).
    { intros z Hz. apply Hf. by right. }
    exists (y :: ys). split; [| by constructor].
    cbn [for_each]. unfold bind, ret. by rewrite Hy, Hys.
Qed.

Lemma Forall2_image {A B} (R : A → B → Prop) (P : B → Prop)
    (l : list A) (k : list B) :
  Forall2 R l k → (∀ x y, x ∈ l → R x y → P y) → Forall P k.
Proof.
  induction 1 as [|x y l k Hxy _ IH]; intros HP; constructor.
  - eapply HP; [by left | done].
  - apply IH. intros x' y' Hx'. apply HP. by right.
Qed.

(** Every path the glob returns names an entry that exists. *)
Lemma glob_sound (σ : fs) (ext : string) (f : path) :
  lists_directories listdir → f ∈ glob listdir Vd ext σ →
  ∃ n v, f = Vd ++ [n] ∧ glob_match ext n = true
         ∧ FS.stat σ f = Some v.
Proof.
  intros Hls. unfold glob.
  destruct (FS.resolve σ Vd) as [q|] eqn:Eq;
    [| by intros ?%elem_of_nil].
  destruct (FS.is_dir_at σ q) eqn:Ed; [| by intros ?%elem_of_nil].
  intros (n & -> & Hn)%list_elem_of_fmap.
  apply list_elem_of_In, filter_In in Hn as [Hn Hm].
  apply list_elem_of_In, Hls in Hn as [Hprop [v Hv]].
  exists n, v. split; [done |]. split; [done |].
  unfold FS.stat, FS.resolve. rewrite walk_app.
  fold (FS.resolve σ Vd). rewrite Eq. simpl.
  by rewrite Ed, (step_proper _ _ Hprop), node_at_snoc.
Qed.

Lemma video_entries (σ : fs) (kind ext : string) :
  lists_directories listdir →
  ∃ es, for_each (video_entry kind) (glob listdir Vd ext σ) σ
        = (Some es, σ, [])
        ∧ Forall (λ e, ∃ n, glob_match ext n = true ∧ filename e = n
                            ∧ type e = kind) es.
Proof.
  intros Hls.
  destruct (for_each_reads (video_entry kind) (glob listdir Vd ext σ) σ)
    as (es & Hes & Hall).
  { intros f Hf. destruct (glob_sound _ _ _ Hls Hf) as (n & v & -> & _ & Hv).
    unfold video_entry, bind, query_opt, ret. rewrite Hv. by eexists. }
  exists es. split; [done |].
  eapply Forall2_image; [exact Hall |].
  intros f e Hf Hfe.
  destruct (glob_sound _ _ _ Hls Hf) as (n & v & -> & Hm & Hv).
  unfold video_entry, bind, query_opt, ret in Hfe. rewrite Hv in Hfe.
  injection Hfe as <-. exists n. by rewrite basename_snoc.
Qed.

(** The lister always returns, reads only, and returns the ".mp4" and the
    ".webm" entries in one list sorted newest first. *)
Lemma list_videos_returns (σ : fs) :
  lists_directories listdir →
  ∃ mp4s webms,
    _list_videos BASE_DIR listdir σ
    = (Some (sort_desc modified (mp4s ++ webms)), σ, [])
    ∧ Forall (λ e, is_mp4 e = true ∧ type e = "mp4") mp4s
    ∧ Forall (λ e, is_mp4 e = false ∧ type e = "webm") webms.
Proof.
  intros Hls.
  destruct (video_entries σ "mp4" ".mp4" Hls) as (mp4s & Hm & Hmall).
  destruct (video_entries σ "webm" ".webm" Hls) as (webms & Hw & Hwall).
  exists mp4s, webms. split.
  - unfold _list_videos, bind, query, ret.
    fold (bind (A := entry) (B := list entry)).
    by rewrite Hm, Hw.
  - split; (eapply Forall_impl; [eassumption |]); simpl;
      intros e (n & [Hn _]%andb_true_iff & <- & ->); (split; [| done]).
    + done.
    + unfold is_mp4. destruct (Str.ends_with ".mp4" (filename e)) eqn:E;
        [| done].
      apply ends_with_last_char in Hn; [| done].
      apply ends_with_last_char in E; [| done].
      rewrite Hn in E. done.
Qed.

(** ** What [latest] selects *)

Lemma find_none_existsb {A} (p : A → bool) (l : list A) :
  List.find p l = None ↔ existsb p l = false.
Proof.
  induction l as [|x l IH]; simpl; [done |].
  destruct (p x); simpl; [split; done | done].
Qed.

Lemma find_first_of_sorted (p : entry → bool) (vids : list entry)
    (v : entry) :
  StronglySorted newest_first vids → List.find p vids = Some v →
  v ∈ vids ∧ p v = true
  ∧ ∀ w, w ∈ vids → p w = true → modified w ≤ modified v.
Proof.
  induction 1 as [|a l Hl IH Ha]; simpl; [done |].
  destruct (p a) eqn:Ea.
  - intros [= ->]. split; [by left |]. split; [done |].
    intros w [-> | Hw]%elem_of_cons _; [lia |].
    rewrite Forall_forall in Ha. by apply Ha.
  - intros Hf. destruct (IH Hf) as (Hin & Hp & Hmax).
    split; [by right |]. split; [done |].
    intros w [-> | Hw]%elem_of_cons Hpw; [congruence | by apply Hmax].
Qed.

Lemma head_of_sorted (vids : list entry) (v : entry) :
  StronglySorted newest_first vids → head vids = Some v →
  v ∈ vids ∧ ∀ w, w ∈ vids → modified w ≤ modified v.
Proof.
  destruct 1 as [|a l Hl Ha]; simpl; [done |].
  intros [= ->]. split; [by left |].
  intros w [-> | Hw]%elem_of_cons; [lia |].
  rewrite Forall_forall in Ha. by apply Ha.
Qed.


(** ** Serving a named file *)

(** The three cases of [serve_video]: nothing at the joined path, a regular
    file, a directory. *)
Lemma serve_video_cases (σ : fs) (name : string) :
  serve_video BASE_DIR name σ =
  match FS.stat σ (os_path_join Vd name) with
  | None => (Some (jsonify 404 (JObj [("ok", JBool false);
                                      ("error", JStr "not found")])), σ, [])
  | Some (File data _) =>
      (Some {| status_code := 200; payload := Stream data None;
               headers := [("Access-Control-Allow-Origin", "*");
                           ("Cache-Control", "no-store")] |}, σ, [])
  | Some (Dir _ _) => (None, σ, [])
  end.
Proof.
  unfold serve_video, bind, query, send_file, query_opt, ret,
    FS.exists_, FS.read.
  destruct (FS.stat σ (os_path_join Vd name)) as [[]|] eqn:E;
    cbn [negb]; cbv beta; unfold bind, ret; by rewrite ?E.
Qed.

(** ** The newest snapshot *)

Lemma Forall2_elem_l {A B} (R : A → B → Prop) (l : list A) (k : list B)
    (x : A) :
  Forall2 R l k → x ∈ l → ∃ y, y ∈ k ∧ R x y.
Proof.
  induction 1 as [|a b l k Hab _ IH]; [by intros ?%elem_of_nil |].
  intros [-> | Hx]%elem_of_cons.
  - exists b. split; [by left | done].
  - destruct (IH Hx) as (y & Hy & HR). exists y. split; [by right | done].
Qed.

Lemma Forall2_elem_r {A B} (R : A → B → Prop) (l : list A) (k : list B)
    (y : B) :
  Forall2 R l k → y ∈ k → ∃ x, x ∈ l ∧ R x y.
Proof.
  induction 1 as [|a b l k Hab _ IH]; [by intros ?%elem_of_nil |].
  intros [-> | Hy]%elem_of_cons.
  - exists a. split; [by left | done].
  - destruct (IH Hy) as (x & Hx & HR). exists x. split; [by right | done].
Qed.

Lemma glob_ready (σ : fs) (ext : string) (f : path) :
  lists_directories listdir → ready σ →
  f ∈ glob listdir Vd ext σ ↔
  ∃ n, f = K n ∧ proper_name n = true ∧ glob_match ext n = true
       ∧ is_Some (σ !! K n).
Proof.
  intros Hls Hr. unfold glob.
  rewrite (resolve_ready _ Hr), (ready_is_dir _ Hr).
  rewrite list_elem_of_fmap. split.
  - intros (n & -> & Hn). exists n.
    apply list_elem_of_In, filter_In in Hn as [Hn Hm].
    apply list_elem_of_In, Hls in Hn as [Hp Hv]. done.
  - intros (n & -> & Hp & Hm & Hv). exists n. split; [done |].
    apply list_elem_of_In, filter_In. split; [| done].
    apply list_elem_of_In, Hls. done.
Qed.

(** When one stored ".jpg" file is newer than every other one that the
    glob lists, [snapshot_latest] streams it. *)
Lemma snapshot_latest_newest (σ : fs) (j : string) (data : list Byte.byte)
    (t : Z) :
  lists_directories listdir → ready σ →
  proper_name j = true → glob_match ".jpg" j = true →
  σ !! K j = Some (File data t) →
  (∀ n v, n ≠ j → glob_match ".jpg" n = true → σ !! K n = Some v →
          st_mtime v < t) →
  snapshot_latest BASE_DIR listdir σ =
  (Some {| status_code := 200; payload := Stream data (Some "image/jpeg");
           headers := [] |}, σ, []).
Proof.
  intros Hls Hr Hj Hm Hv Hnew.
  destruct (for_each_reads with_mtime (glob listdir Vd ".jpg" σ) σ)
    as (keyed & Hkeyed & Hall).
  { intros f (n & -> & Hp & _ & [v Hn])%glob_ready; [| done..].
    unfold with_mtime, bind, query_opt, ret, FS.getmtime.
    rewrite (stat_stored _ _ Hr Hp), Hn. by eexists. }
  assert (∀ p t', (p, t') ∈ keyed →
            ∃ n v, p = K n ∧ glob_match ".jpg" n = true
                   ∧ σ !! K n = Some v ∧ t' = st_mtime v) as Hkey.
  { intros p t' Hin.
    destruct (Forall2_elem_r _ _ _ _ Hall Hin) as (f & Hf & Hft).
    apply glob_ready in Hf as (n & -> & Hp & Hmn & [v Hn]); [| done..].
    unfold with_mtime, bind, query_opt, ret, FS.getmtime in Hft.
    rewrite (stat_stored _ _ Hr Hp), Hn in Hft. simpl in Hft.
    injection Hft as <- <-. by exists n, v. }
  assert ((K j, t) ∈ keyed) as Hin.
  { assert (K j ∈ glob listdir Vd ".jpg" σ) as Hf.
    { apply glob_ready; [done.. |]. by exists j. }
    destruct (Forall2_elem_l _ _ _ _ Hall Hf) as ([p t'] & Hy & Hft).
    unfold with_mtime, bind, query_opt, ret, FS.getmtime in Hft.
    rewrite (stat_stored _ _ Hr Hj), Hv in Hft. simpl in Hft.
    by injection Hft as <- <-. }
  destruct (sort_desc_head snd (K j, t) keyed Hin) as [rest Hsort].
  { intros [p t'] Hy Hne.
    destruct (Hkey _ _ Hy) as (n & v & -> & Hmn & Hn & ->). simpl.
    destruct (decide (n = j)) as [-> | Hnj]; [| by eapply Hnew].
    rewrite Hv in Hn. injection Hn as <-. done. }
  unfold snapshot_latest, bind, query. rewrite Hkeyed, Hsort. simpl.
  unfold send_file, bind, query_opt, ret.
  by rewrite (read_stored _ _ Hr Hj), Hv.
Qed.

Lemma serve_snapshot (sid : string) (now : Z) (data : list Byte.byte) :
  segment sid = true →
  serve BASE_DIR listdir (snapshot_request sid now data)
  = snapshot BASE_DIR now sid data.
Proof.
  intros Hs. unfold serve, snapshot_request, dispatch, under; simpl.
  change (EmptyString +:+ sid) with sid.
  destruct (String.eqb_spec sid "latest") as [-> | _]; [done |].
  by rewrite Hs.
Qed.

Lemma serve_snapshot_latest (now : Z) :
  serve BASE_DIR listdir (get_request "/snapshot/latest" now)
  = snapshot_latest BASE_DIR listdir.
Proof. reflexivity. Qed.

Lemma serve_get_video (name : string) (now : Z) :
  path_segment name = true →
  serve BASE_DIR listdir (get_request ("/video/" +:+ name) now)
  = serve_video BASE_DIR name.
Proof.
  intros Hs. unfold serve, get_request, dispatch, under; simpl.
  change (EmptyString +:+ name) with name. by rewrite Hs.
Qed.

Lemma segment_path_segment (sid ext : string) :
  segment sid = true → path_segment (sid +:+ ext) = true.
Proof.
  unfold segment, path_segment. destruct sid as [|c sid]; [done |].
  change (String c sid +:+ ext) with (String c (sid +:+ ext)).
  cbn [String.eqb Str.starts_with Str.has_slash negb andb].
  rewrite (Ascii.eqb_sym "/" c). by destruct (Ascii.eqb c "/").
Qed.

Lemma glob_match_visible (sid ext : string) :
  sid ≠ EmptyString → Str.starts_with "." sid = false →
  glob_match ext (sid +:+ ext) = true.
Proof.
  intros Hne Hdot. unfold glob_match. rewrite ends_with_app.
  destruct sid as [|c sid]; [done |]. simpl in *. by rewrite Hdot.
Qed.


(** ** Moving a directory *)

Lemma rekey_other (src dst k : path) :
  ¬ src `prefix_of` k → FS.rekey src dst k = k.
Proof. intros H. unfold FS.rekey. by rewrite bool_decide_eq_false_2. Qed.

Lemma rekey_under (src dst k : path) :
  src `prefix_of` k → dst `prefix_of` FS.rekey src dst k.
Proof.
  intros H. unfold FS.rekey. rewrite bool_decide_eq_true_2 by done.
  by eexists.
Qed.

Lemma move_tree_lookup_other (src dst : path) (σ : fs) (k : path) :
  ¬ src `prefix_of` k → ¬ dst `prefix_of` k →
  FS.move_tree src dst σ !! k = σ !! k.
Proof.
  intros Hsrc Hdst. unfold FS.move_tree.
  assert (k ≠ dst) as Hk by (by intros ->).
  assert (∀ k0 v, (k0, v) ∈ map_to_list (delete dst σ) →
            FS.rekey src dst k0 = k → k0 = k) as Hback.
  { intros k0 v _ E. destruct (decide (src `prefix_of` k0)) as [Hp | Hp].
    - exfalso. apply Hdst. rewrite <- E. by apply rekey_under.
    - by rewrite rekey_other in E. }
  destruct (σ !! k) as [v|] eqn:E.
  - apply elem_of_list_to_map_1'.
    + intros y ((k0 & v0) & Heq & Hin)%list_elem_of_fmap.
      injection Heq as Hk0 ->. symmetry in Hk0.
      pose proof (Hback _ _ Hin Hk0) as ->.
      apply elem_of_map_to_list in Hin.
      rewrite lookup_delete_ne in Hin by done. simpl. congruence.
    + apply list_elem_of_fmap. exists (k, v). split.
      * simpl. by rewrite rekey_other.
      * apply elem_of_map_to_list. by rewrite lookup_delete_ne.
  - apply not_elem_of_list_to_map_1.
    intros ((k1 & v1) & Hk1 & ((k0 & v0) & Heq & Hin)%list_elem_of_fmap)
      %list_elem_of_fmap.
    injection Heq as -> ->. simpl in Hk1. symmetry in Hk1.
    pose proof (Hback _ _ Hin Hk1) as ->.
    apply elem_of_map_to_list in Hin.
    rewrite lookup_delete_ne in Hin by done. congruence.
Qed.

Lemma move_tree_lookup_dst (src dst : path) (σ : fs) (v : node) :
  σ !! src = Some v → src ≠ dst →
  is_Some (FS.move_tree src dst σ !! dst).
Proof.
  intros Hv Hne. unfold FS.move_tree.
  apply not_eq_None_Some. intros Hnone.
  apply not_elem_of_list_to_map in Hnone. apply Hnone.
  apply list_elem_of_fmap. exists (dst, v). split; [done |].
  apply list_elem_of_fmap. exists (src, v). split.
  - simpl. unfold FS.rekey. rewrite bool_decide_eq_true_2 by done.
    by rewrite drop_all, app_nil_r.
  - apply elem_of_map_to_list. by rewrite lookup_delete_ne.
Qed.

Lemma ready_move_tree (σ : fs) (n n' : string) :
  ready σ → ready (FS.move_tree (K n) (K n') σ).
Proof.
  intros [Hp Hd]. split; [done |]. intros i. specialize (Hd i).
  unfold FS.is_dir_at, FS.node_at in *.
  destruct (take i Vd) as [|c l] eqn:E; [done |].
  rewrite move_tree_lookup_other; [done | |];
    intros Hpre%prefix_length; rewrite <- E in Hpre;
    unfold stored in Hpre; rewrite length_app, length_take in Hpre;
    simpl in Hpre; lia.
Qed.

(** Renaming a stored directory onto a free stored name. *)
Lemma rename_stored_dir (σ : fs) (n n' : string) (size t : Z) :
  ready σ → proper_name n = true → proper_name n' = true →
  σ !! K n = Some (Dir size t) → σ !! K n' = None →
  shutil_move (K n) (K n') σ =
  (Some tt, FS.move_tree (K n) (K n') σ, [Renamed (K n) (K n')]).
Proof.
  intros Hr Hn Hn' Hsrc Hdst.
  assert (n ≠ n') as Hne by (intros ->; congruence).
  unfold shutil_move, bind, query, os_rename, FS.rename.
  rewrite (isdir_stored _ _ Hr Hn'), Hdst.
  rewrite (resolve_stored _ _ Hr Hn), (resolve_stored _ _ Hr Hn').
  rewrite Hsrc, node_at_stored, Hdst.
  rewrite bool_decide_eq_false_2 by (by intros ?%stored_inj).
  by rewrite bool_decide_eq_false_2 by (by intros ?%stored_prefix).
Qed.

(** ** Computations that only read *)

Lemma reads_ret {A} (a : A) : reads (ret a).
Proof. intros σ. by eexists. Qed.

Lemma reads_query {A} (f : fs → A) : reads (query f).
Proof. intros σ. by eexists. Qed.

Lemma reads_query_opt {A} (f : fs → option A) : reads (query_opt f).
Proof. intros σ. by eexists. Qed.

Lemma reads_bind {A B} (m : io A) (k : A → io B) :
  reads m → (∀ a, reads (k a)) → reads (bind m k).
Proof.
  intros Hm Hk σ. unfold bind. destruct (Hm σ) as [[a|] ->].
  - destruct (Hk a σ) as [r ->]. by eexists.
  - by eexists.
Qed.

Lemma reads_for_each {A B} (f : A → io B) (l : list A) :
  (∀ x, reads (f x)) → reads (for_each f l).
Proof.
  intros Hf. induction l as [|x l IH]; [apply reads_ret |].
  apply reads_bind; [done |]. intros y.
  apply reads_bind; [done |]. intros ys. apply reads_ret.
Qed.

Lemma reads_send_file (p : path) (mt : option string) :
  reads (send_file p mt).
Proof.
  apply reads_bind; [apply reads_query_opt |]. intros. apply reads_ret.
Qed.

Lemma reads_list_videos : reads (_list_videos BASE_DIR listdir).
Proof.
  unfold _list_videos.
  repeat first
    [ apply reads_ret | apply reads_query | apply reads_query_opt
    | apply reads_for_each; intros; unfold video_entry
    | apply reads_bind; [| intros] ].
Qed.

Lemma reads_status (now : Z) : reads (status BASE_DIR listdir now).
Proof.
  apply reads_bind; [apply reads_list_videos | intros; apply reads_ret].
Qed.

Lemma reads_latest : reads (latest BASE_DIR listdir).
Proof.
  apply reads_bind; [apply reads_list_videos |]. intros vids.
  destruct (preferred vids); [apply reads_send_file | apply reads_ret].
Qed.

Lemma reads_snapshot_latest : reads (snapshot_latest BASE_DIR listdir).
Proof.
  unfold snapshot_latest.
  apply reads_bind; [apply reads_query |]. intros found.
  apply reads_bind.
  - apply reads_for_each. intros p. unfold with_mtime.
    apply reads_bind; [apply reads_query_opt | intros; apply reads_ret].
  - intros keyed. destruct ((sort_desc snd keyed).*1);
      [apply reads_ret | apply reads_send_file].
Qed.

Lemma reads_serve_video (name : string) : reads (serve_video BASE_DIR name).
Proof.
  intros σ. rewrite serve_video_cases.
  destruct (FS.stat σ _) as [[]|]; by eexists.
Qed.

(** ** What one request may do *)

Local Abbreviation frame := (step_frame BASE_DIR).

Lemma frame_refl (σ : fs) : ready σ → frame σ σ [].
Proof.
  intros Hr. split; [done |]. split; [done |].
  split; [by intros ? ?%elem_of_nil | simpl; lia].
Qed.

Lemma frame_reads {A} (m : io A) (σ σ1 : fs) (r : option A)
    (t : list event) :
  reads m → ready σ → m σ = (r, σ1, t) → frame σ σ1 t.
Proof.
  intros Hm Hr E. destruct (Hm σ) as [r' E']. rewrite E' in E.
  injection E as _ <- <-. by apply frame_refl.
Qed.

(** A write to a stored name that is not the name of a finalized video. *)
Lemma frame_insert (σ : fs) (n : string) (v : node) (e : event) :
  ready σ → (∀ sid, n ≠ sid +:+ ".webm") →
  match e with
  | Opened Append q _ => ∃ sid, q = K (sid +:+ ".webm.partial")
  | Renamed _ _ => False
  | _ => True
  end →
  frame σ (<[K n := v]> σ) [e].
Proof.
  intros Hr Hn He. split; [by apply ready_insert |]. split.
  - intros sid v' _ Hv. rewrite lookup_insert_ne; [done |].
    intros E%stored_inj. by apply (Hn sid).
  - split.
    + intros e' ->%list_elem_of_singleton. by destruct e as [[] | |].
    + destruct e as [[] | |]; simpl; solve [lia | done].
Qed.

Lemma frame_upload (σ σ1 : fs) (now : Z) (sid : string)
    (data : list Byte.byte) (r : option response) (t : list event) :
  ready σ → segment sid = true →
  upload_chunk BASE_DIR now sid data σ = (r, σ1, t) → frame σ σ1 t.
Proof.
  intros Hr Hs. rewrite (upload_chunk_ready _ _ _ _ Hr Hs). cbv zeta.
  destruct (σ !! K (sid +:+ ".webm.partial")) as [[old t0|]|];
    intros [= <- <- <-]; try (by apply frame_refl);
    (apply frame_insert; [done | | by eexists]);
    intros s E; symmetry in E; by apply suffix_clash in E.
Qed.

Lemma frame_snapshot (σ σ1 : fs) (now : Z) (sid : string)
    (data : list Byte.byte) (r : option response) (t : list event) :
  ready σ → segment sid = true →
  snapshot BASE_DIR now sid data σ = (r, σ1, t) → frame σ σ1 t.
Proof.
  intros Hr Hs. rewrite (snapshot_ready _ _ _ _ Hr Hs). cbv zeta.
  destruct (σ !! K (sid +:+ ".jpg")) as [[old t0|]|];
    intros [= <- <- <-]; try (by apply frame_refl);
    (apply frame_insert; [done | | done]);
    intros s E; by apply suffix_clash in E.
Qed.

Lemma frame_finalize (σ σ1 : fs) (now : Z) (ff : ffmpeg) (sid : string)
    (r : option response) (t : list event) :
  ready σ → segment sid = true →
  finalize BASE_DIR now ff sid σ = (r, σ1, t) → frame σ σ1 t.
Proof.
  intros Hr Hs.
  pose proof (partial_proper _ Hs) as Hpp.
  pose proof (webm_proper _ Hs) as Hwp.
  destruct (FS.exists_ σ (_session_path BASE_DIR sid ".webm")) eqn:Ew.
  { rewrite (finalize_again σ now ff sid Ew).
    intros [= <- <- <-]. by apply frame_refl. }
  destruct (FS.exists_ σ (_session_path BASE_DIR sid (".webm" +:+ PART_EXT)))
    eqn:Ep.
  2: { rewrite (finalize_missing σ now ff sid Ep Ew).
       intros [= <- <- <-]. by apply frame_refl. }
  rewrite (partial_path_stored _ Hs), (exists_stored _ _ Hr Hpp) in Ep.
  rewrite (session_path_stored sid ".webm" Hs) in Ew by done.
  rewrite (exists_stored _ _ Hr Hwp) in Ew.
  destruct (σ !! K (sid +:+ ".webm.partial")) as [v|] eqn:Hp; [| done].
  destruct (σ !! K (sid +:+ ".webm")) eqn:Hw; [done |].
  set (σm := match v with
             | File data t0 =>
                 <[K (sid +:+ ".webm") := File data t0]>
                   (delete (K (sid +:+ ".webm.partial")) σ)
             | Dir _ _ =>
                 FS.move_tree (K (sid +:+ ".webm.partial"))
                   (K (sid +:+ ".webm")) σ
             end).
  assert (shutil_move (K (sid +:+ ".webm.partial")) (K (sid +:+ ".webm")) σ
          = (Some tt, σm,
             [Renamed (K (sid +:+ ".webm.partial")) (K (sid +:+ ".webm"))]))
    as Hmove.
  { destruct v; [by apply rename_stored_file | by eapply rename_stored_dir]. }
  assert (ready σm) as Hrm.
  { destruct v; [by apply ready_insert, ready_delete
                | by apply ready_move_tree]. }
  assert (is_Some (σm !! K (sid +:+ ".webm"))) as Hwm.
  { destruct v; simpl in σm.
    - unfold σm. by rewrite lookup_insert_eq.
    - eapply move_tree_lookup_dst; [done |].
      intros E. symmetry in E. by apply webm_ne_partial in E. }
  assert (∀ s v', σ !! K (s +:+ ".webm") = Some v' →
                  σm !! K (s +:+ ".webm") = Some v') as Hkeep.
  { intros s v' Hv'.
    assert (s ≠ sid) as Hne by (intros ->; congruence).
    destruct v; simpl in σm; unfold σm.
    - rewrite lookup_insert_ne
        by (by intros E%stored_inj%string_app_inj_r).
      rewrite lookup_delete_ne; [done |].
      intros E. symmetry in E. by apply webm_ne_partial in E.
    - rewrite move_tree_lookup_other; [done | |].
      + intros E%stored_prefix. symmetry in E.
        by apply suffix_clash in E.
      + by intros E%stored_prefix%string_app_inj_r. }
  destruct (finalize_after_move σ σm now ff sid Hr Hs (mk_is_Some _ _ Hp)
              Hw Hmove Hrm Hwm) as (tr & -> & Htr & Hother & Hr2).
  intros [= <- <- <-]. split; [done |]. split; [| split].
  - intros s v' _ Hv'.
    rewrite Hother by (intros E; symmetry in E; by apply mp4_ne_webm in E).
    by apply Hkeep.
  - intros e [-> | He]%elem_of_cons.
    + exists sid. repeat split; try done.
      rewrite Hother
        by (intros E; symmetry in E; by apply mp4_ne_webm in E). done.
    + by rewrite (Htr e He).
  - simpl. assert (List.filter (λ e, match e with
                                     | Renamed _ _ => true
                                     | _ => false
                                     end) tr = []) as ->; [| simpl; lia].
    clear -Htr. induction tr as [|e tr IH]; [done |].
    rewrite (Htr e (list_elem_of_here _ _)). simpl.
    apply IH. intros e' He'. apply Htr. by right.
Qed.

Lemma under_ok (prefix url : string) (ok : string → bool) (x : string) :
  under prefix url ok = Some x → ok x = true.
Proof.
  unfold under. destruct (Str.strip_prefix prefix url) as [rest|]; [| done].
  destruct (ok rest) eqn:E; [| done]. by intros [= <-].
Qed.

Lemma reads_on (wanted m : method) (h : io response) :
  reads h → reads (on wanted m h).
Proof. intros Hh. destruct wanted, m; try done; apply reads_ret. Qed.

(** Every request keeps to the frame. *)
Lemma frame_serve (rq : request) (σ σ1 : fs) (r : option response)
    (t : list event) :
  ready σ → serve BASE_DIR listdir rq σ = (r, σ1, t) → frame σ σ1 t.
Proof.
  intros Hr. unfold serve, dispatch.
  destruct (String.eqb (req_url rq) "/").
  { apply frame_reads; [| done]. apply reads_on, reads_ret. }
  destruct (String.eqb (req_url rq) "/snapshot/latest").
  { destruct (req_method rq).
    - apply frame_reads; [| done]. apply reads_snapshot_latest.
    - by apply frame_snapshot. }
  destruct (String.eqb (req_url rq) "/status").
  { apply frame_reads; [| done]. apply reads_on, reads_status. }
  destruct (String.eqb (req_url rq) "/latest").
  { apply frame_reads; [| done]. apply reads_on, reads_latest. }
  destruct (String.eqb (req_url rq) "/health").
  { apply frame_reads; [| done]. apply reads_on, reads_ret. }
  destruct (under "/upload/" _ _) as [sid|] eqn:E1.
  { apply under_ok in E1. destruct (req_method rq); simpl.
    - apply frame_reads; [| done]. apply reads_ret.
    - by apply frame_upload. }
  destruct (under "/finalize/" _ _) as [sid|] eqn:E2.
  { apply under_ok in E2. destruct (req_method rq); simpl.
    - apply frame_reads; [| done]. apply reads_ret.
    - by apply frame_finalize. }
  destruct (under "/snapshot/" _ _) as [sid|] eqn:E3.
  { apply under_ok in E3. destruct (req_method rq); simpl.
    - apply frame_reads; [| done]. apply reads_ret.
    - by apply frame_snapshot. }
  destruct (under "/video/" _ _) as [name|] eqn:E4.
  { apply frame_reads; [| done]. apply reads_on, reads_serve_video. }
  apply frame_reads; [| done]. apply reads_ret.
Qed.

(** ** Runs *)

Lemma renames_from_app (q : path) (t1 t2 : list event) :
  renames_from q (t1 ++ t2)
  = (renames_from q t1 + renames_from q t2)%nat.
Proof. unfold renames_from. by rewrite List.filter_app, length_app. Qed.

Lemma appended_to_app (q : path) (t1 t2 : list event) :
  appended_to q (t1 ++ t2) = appended_to q t1 || appended_to q t2.
Proof. apply existsb_app. Qed.

Lemma renames_from_le (q : path) (t : list event) :
  (renames_from q t
   ≤ length (List.filter (λ e, match e with
                               | Renamed _ _ => true
                               | _ => false
                               end) t))%nat.
Proof.
  unfold renames_from. induction t as [|e t IH]; simpl; [done |].
  destruct e as [| src dst |]; simpl; try done.
  destruct (bool_decide (src = q)); simpl; lia.
Qed.

Lemma renames_from_pos (q : path) (t : list event) :
  (0 < renames_from q t)%nat → ∃ dst, Renamed q dst ∈ t.
Proof.
  unfold renames_from. induction t as [|e t IH]; simpl; [lia |].
  destruct e as [| src dst |]; simpl;
    try (intros (d & Hd)%IH; exists d; by right).
  destruct (bool_decide_reflect (src = q)) as [-> | _]; simpl.
  - intros _. exists dst. by left.
  - intros (d & Hd)%IH. exists d. by right.
Qed.

Lemma run_frame (rqs : list request) (σ σ' : fs)
    (rs : list (option response)) (t : list event) (sid : string) :
  ready σ → segment sid = true →
  run BASE_DIR listdir rqs σ = (rs, σ', t) →
  ready σ'
  ∧ (∀ v, σ !! K (sid +:+ ".webm") = Some v →
          σ' !! K (sid +:+ ".webm") = Some v)
  ∧ appended_to (K (sid +:+ ".webm")) t = false
  ∧ (renames_from (K (sid +:+ ".webm.partial")) t ≤ 1)%nat
  ∧ (is_Some (σ !! K (sid +:+ ".webm")) →
     renames_from (K (sid +:+ ".webm.partial")) t = 0%nat)
  ∧ ((0 < renames_from (K (sid +:+ ".webm.partial")) t)%nat →
     is_Some (σ' !! K (sid +:+ ".webm"))).
Proof.
  intros Hr Hs. revert σ rs t Hr.
  induction rqs as [|rq rqs IH]; intros σ rs t Hr; cbn [run].
  - intros [= <- <- <-]. unfold renames_from. cbn.
    split; [done |]. split; [done |]. split; [done |].
    split; [lia |]. split; [done | lia].
  - destruct (serve BASE_DIR listdir rq σ) as [[r σ1] t1] eqn:E1.
    destruct (run BASE_DIR listdir rqs σ1) as [[rs' σ2] t2] eqn:E2.
    intros [= <- <- <-].
    destruct (frame_serve _ _ _ _ _ Hr E1) as (Hr1 & Hkeep & Hev & Hone).
    destruct (IH _ _ _ Hr1 E2) as (Hr2 & Hkeep2 & Happ2 & Hle2 & Hz2 & Hp2).
    pose proof (renames_from_le (K (sid +:+ ".webm.partial")) t1) as Hle1.
    assert ((0 < renames_from (K (sid +:+ ".webm.partial")) t1)%nat →
            σ !! K (sid +:+ ".webm") = None
            ∧ is_Some (σ1 !! K (sid +:+ ".webm"))) as Hfirst.
    { intros (dst & Hin)%renames_from_pos.
      destruct (Hev _ Hin) as (s & _ & Es & -> & Hnone & Hsome).
      apply stored_inj, string_app_inj_r in Es as <-. done. }
    rewrite renames_from_app, appended_to_app, Happ2, orb_false_r.
    split; [done |]. split; [by intros v Hv%Hkeep%Hkeep2 |]. split.
    { destruct (appended_to (K (sid +:+ ".webm")) t1) eqn:Ea; [| done].
      exfalso. apply existsb_exists in Ea as (e & He & Hq).
      apply list_elem_of_In, Hev in He.
      destruct e as [[] q c | |]; try done.
      apply bool_decide_eq_true in Hq as ->. destruct He as [s E].
      by apply webm_ne_partial in E. }
    destruct (decide (0 < renames_from (K (sid +:+ ".webm.partial")) t1)%nat)
      as [Hpos | Hzero].
    + destruct (Hfirst Hpos) as [Hnone Hsome].
      rewrite (Hz2 Hsome). split; [lia |]. split.
      * intros [v Hv]. congruence.
      * intros _. destruct Hsome as [v Hv]. by rewrite (Hkeep2 v Hv).
    + assert (renames_from (K (sid +:+ ".webm.partial")) t1 = 0%nat)
        as -> by lia.
      split; [done |]. split; [| done].
      intros [v Hv]. apply Hz2. by rewrite (Hkeep _ _ Hs Hv).
Qed.


(** ** Further properties of the handlers *)



(** X3: a snapshot upload does not create the storage directory: when the
    directory is missing the handler raises and leaves the disk as it
    is. *)
Theorem snapshot_needs_storage_directory (σ : fs) (now : Z) (sid : string)
    (data : list Byte.byte) :
  segment sid = true → FS.exists_ σ (VIDEO_DIR BASE_DIR) = false →
  snapshot BASE_DIR now sid data σ = (None, σ, []).
Proof.
  intros Hs Hex. unfold snapshot, bind, open_.
  rewrite (session_path_stored _ _ Hs) by done.
  assert (FS.resolve σ (K (sid +:+ ".jpg")) = None) as ->; [| done].
  unfold FS.resolve, stored. rewrite walk_app. fold (FS.resolve σ Vd).
  unfold FS.exists_, FS.stat in Hex.
  destruct (FS.resolve σ Vd) as [q|]; [| done]. simpl.
  unfold FS.is_dir_at. by destruct (FS.node_at σ q).
Qed.

Lemma makedirs_from_app (now : Z) (cur a b : path) (σ : fs) :
  FS.makedirs_from now cur (a ++ b) σ =
  match FS.makedirs_from now cur a σ with
  | Some σ1 => FS.makedirs_from now (cur ++ a) b σ1
  | None => None
  end.
Proof.
  revert cur σ. induction a as [|c a IH]; intros cur σ.
  - simpl. by rewrite app_nil_r.
  - cbn [app FS.makedirs_from]. cbv zeta.
    destruct (FS.node_at σ (cur ++ [c])) as [[]|]; try done;
      rewrite IH, <- app_assoc; done.
Qed.

(** X4: the chunk sink creates the storage directory when it is missing
    (and the program directory exists): the upload (to a name the
    operating system accepts) succeeds, the storage directory exists
    afterwards and holds the partial file with the chunk; every entry that
    is neither that file nor a directory above it stays as it was. *)
Theorem upload_chunk_recreates_storage (σ : fs) (now : Z) (sid : string)
    (data : list Byte.byte) :
  let partial_path := _session_path BASE_DIR sid (".webm" +:+ PART_EXT) in
  Forall (λ c, proper_name c = true) (VIDEO_DIR BASE_DIR) →
  (∀ i, (0 < i ≤ length BASE_DIR)%nat →
        FS.is_dir_at σ (take i BASE_DIR) = true) →
  σ !! VIDEO_DIR BASE_DIR = None →
  segment sid = true → path_ok partial_path = true →
  σ !! K (sid +:+ ".webm.partial") = None →
  ∃ σ',
    upload_chunk BASE_DIR now sid data σ
    = (Some (received (Z.of_nat (length data))), σ',
       [Opened Append (K (sid +:+ ".webm.partial")) true])
    ∧ ready σ'
    ∧ FS.isdir σ' (VIDEO_DIR BASE_DIR) = true
    ∧ FS.read σ' partial_path = Some data
    ∧ (∀ k, ¬ k `prefix_of` partial_path → σ' !! k = σ !! k).
Proof.
  intros partial_path Hp Hbase Hnone Hs _ Hpart. unfold partial_path.
  rewrite (partial_path_stored _ Hs).
  pose proof (partial_proper _ Hs) as Hpp.
  set (σ1 := <[VIDEO_DIR BASE_DIR := Dir 0 now]> σ).
  assert (FS.makedirs now Vd σ = Some σ1) as Hmk.
  { unfold FS.makedirs. rewrite VIDEO_DIR_eq, makedirs_from_app.
    rewrite makedirs_dirs by (intros i Hi; by apply Hbase).
    cbn [app FS.makedirs_from]. cbv zeta.
    rewrite node_at_snoc. rewrite VIDEO_DIR_eq in Hnone.
    rewrite Hnone. unfold σ1. by rewrite VIDEO_DIR_eq. }
  assert (ready σ1) as Hr1.
  { split; [done |]. intros i. unfold FS.is_dir_at, σ1.
    destruct (decide (i ≤ length BASE_DIR)%nat) as [Hle | Hgt].
    - rewrite node_at_insert_ne.
      + destruct i as [|i]; [done |]. rewrite VIDEO_DIR_eq.
        rewrite take_app_le by done. apply Hbase. lia.
      + intros E. apply (f_equal length) in E.
        rewrite length_take, VIDEO_DIR_eq, length_app in E. simpl in E. lia.
    - rewrite take_ge
        by (rewrite VIDEO_DIR_eq, length_app; simpl; lia).
      rewrite VIDEO_DIR_eq, node_at_snoc.
      by rewrite lookup_insert_eq. }
  exists (<[K (sid +:+ ".webm.partial") := File data now]> σ1).
  assert (ready (<[K (sid +:+ ".webm.partial") := File data now]> σ1))
    as Hr2 by (by apply ready_insert).
  split; [| split; [done | split; [| split]]].
  2: { unfold FS.isdir, FS.stat. rewrite (resolve_ready _ Hr2).
       pose proof (ready_is_dir _ Hr2) as Hd. unfold FS.is_dir_at in Hd.
       by destruct (FS.node_at _ Vd) as [[]|]. }
  - assert (upload_chunk BASE_DIR now sid data σ
            = upload_chunk BASE_DIR now sid data σ1) as ->.
    { unfold upload_chunk, bind, os_makedirs.
      by rewrite Hmk, (makedirs_ready _ _ Hr1). }
    rewrite (upload_chunk_ready _ _ _ _ Hr1 Hs). cbv zeta.
    unfold σ1. rewrite lookup_insert_ne; [by rewrite Hpart |].
    intros E. by apply (stored_not_prefix (sid +:+ ".webm.partial")
                          (length Vd)); rewrite firstn_all.
  - by rewrite (read_stored _ _ Hr2 Hpp), lookup_insert_eq.
  - intros k Hk. rewrite lookup_insert_ne by (by intros <-).
    unfold σ1. rewrite lookup_insert_ne; [done |].
    intros <-. apply Hk. by exists [sid +:+ ".webm.partial"].
Qed.

(** X5: the first finalize of a session with a working transcoder: the
    partial file becomes the finalized video, the transcoder's output is
    stored under the transcoded name with the time the transcoder wrote
    it, and the answer names both files and carries the time of the
    request. *)
Theorem finalize_with_transcoder (σ : fs) (now : Z) (ff : ffmpeg)
    (sid : string) (data out : list Byte.byte) :
  let partial_path := _session_path BASE_DIR sid (".webm" +:+ PART_EXT) in
  let webm_path := _session_path BASE_DIR sid ".webm" in
  let mp4_path := replace_ext webm_path ".mp4" in
  ready σ → segment sid = true →
  FS.read σ partial_path = Some data → FS.exists_ σ webm_path = false →
  FS.isdir σ mp4_path = false →
  probe_ok ff = true → encode_ok ff = true → encode_output ff = Some out →
  ∃ σ' tr,
    finalize BASE_DIR now ff sid σ
    = (Some (jsonify 200 (JObj [("ok", JBool true);
                                ("webm", JStr (sid +:+ ".webm"));
                                ("mp4", JStr (mp4_name sid));
                                ("at", _now_iso now)])), σ', tr)
    ∧ FS.read σ' webm_path = Some data
    ∧ FS.read σ' mp4_path = Some out
    ∧ FS.getmtime σ' mp4_path = Some (encode_time ff)
    ∧ FS.exists_ σ' partial_path = false.
Proof.
  intros partial_path webm_path mp4_path Hr Hs Hp Hw Hm Hprobe Henc Hout.
  unfold mp4_path, partial_path, webm_path in *.
  rewrite (partial_path_stored _ Hs) in *.
  rewrite (session_path_stored sid ".webm" Hs) in * by done.
  rewrite mp4_path_stored in *.
  pose proof (partial_proper _ Hs) as Hpp.
  pose proof (webm_proper _ Hs) as Hwp.
  pose proof (mp4_proper _ Hs) as Hmp.
  rewrite (read_stored _ _ Hr Hpp) in Hp.
  rewrite (exists_stored _ _ Hr Hwp) in Hw.
  rewrite (isdir_stored _ _ Hr Hmp) in Hm.
  destruct (σ !! K (sid +:+ ".webm.partial")) as [[d t0|]|] eqn:Ep;
    try done. injection Hp as ->.
  destruct (σ !! K (sid +:+ ".webm")) eqn:Ew; [done |].
  destruct (finalize_first σ now ff sid data t0 Hr Hs Ep Ew)
    as (tr & Hfin & _ & Hw2 & Hp2 & Hr2).
  set (σ1 := <[K (sid +:+ ".webm") := File data t0]>
               (delete (K (sid +:+ ".webm.partial")) σ)) in *.
  assert (after_encode ff (K (mp4_name sid)) σ1
          = <[K (mp4_name sid) := File out (encode_time ff)]> σ1) as Eenc.
  { unfold after_encode. rewrite Hprobe, Hout.
    assert (σ1 !! K (mp4_name sid) = σ !! K (mp4_name sid)) as ->.
    { unfold σ1. rewrite lookup_insert_ne
        by (intros E; symmetry in E; by apply mp4_ne_webm in E).
      rewrite lookup_delete_ne; [done |].
      intros E. symmetry in E. by apply mp4_ne_partial in E. }
    by destruct (σ !! K (mp4_name sid)) as [[]|]. }
  rewrite Eenc in *. rewrite lookup_insert_eq, Hprobe, Henc in Hfin.
  eexists _, _. split; [exact Hfin |].
  unfold FS.getmtime.
  rewrite !(read_stored _ _ Hr2) by done.
  rewrite (stat_stored _ _ Hr2 Hmp), (exists_stored _ _ Hr2 Hpp).
  by rewrite Hw2, Hp2, lookup_insert_eq.
Qed.

Lemma rsplit_dot_webm (x : string) :
  Str.rsplit_dot (x +:+ ".webm") = Some (x, ".webm").
Proof.
  induction x as [|c x IH]; [reflexivity |].
  change (String c x +:+ ".webm") with (String c (x +:+ ".webm")).
  cbn [Str.rsplit_dot]. by rewrite IH.
Qed.

(** X6: the transcoded name of a session is the session id with ".mp4",
    except for a session id made of dots only, where [os.path.splitext]
    finds no extension to replace and the name is the finalized name with
    ".mp4" appended. *)
Theorem mp4_name_of_session (sid : string) :
  mp4_name sid
  = if Str.all_dots sid then (sid +:+ ".webm") +:+ ".mp4"
    else sid +:+ ".mp4".
Proof.
  unfold mp4_name, Str.splitext. rewrite rsplit_dot_webm.
  by destruct (Str.all_dots sid).
Qed.

(** X7: on a ready storage directory, when the child processes of the
    transcoder exit, finalize answers and does not raise, however the
    transcoder exits and whatever sits at the session's paths.  It answers
    404 exactly when the session has neither a partial nor a finalized
    entry; otherwise it answers 200 with ok = true and the finalized name,
    and the finalized entry exists afterwards. *)
Theorem finalize_always_answers (σ : fs) (now : Z) (tc : transcoder)
    (ff : ffmpeg) (sid : string) :
  let partial_path := _session_path BASE_DIR sid (".webm" +:+ PART_EXT) in
  let webm_path := _session_path BASE_DIR sid ".webm" in
  ready σ → segment sid = true → exited tc = Some ff →
  ∃ r σ' tr,
    finalize BASE_DIR now ff sid σ = (Some r, σ', tr)
    ∧ (status_code r = 404
       ↔ FS.exists_ σ partial_path = false ∧ FS.exists_ σ webm_path = false)
    ∧ (status_code r ≠ 404 →
       status_code r = 200
       ∧ response_field "ok" r = Some (JBool true)
       ∧ response_field "webm" r = Some (JStr (sid +:+ ".webm"))
       ∧ FS.exists_ σ' webm_path = true).
Proof.
  intros partial_path webm_path Hr Hs _.
  pose proof (partial_proper _ Hs) as Hpp.
  pose proof (webm_proper _ Hs) as Hwp.
  destruct (FS.exists_ σ webm_path) eqn:Ew.
  { unfold webm_path in *. rewrite (finalize_again σ now ff sid Ew).
    eexists _, _, _. split; [reflexivity |]. split.
    - split; [done | by intros [_ ?]].
    - intros _. rewrite Ew.
      rewrite (session_path_stored sid ".webm" Hs), basename_stored by done.
      by destruct (FS.exists_ σ (replace_ext _ _)). }
  destruct (FS.exists_ σ partial_path) eqn:Ep.
  2: { unfold partial_path, webm_path in *.
       rewrite (finalize_missing σ now ff sid Ep Ew).
       eexists _, _, _. split; [reflexivity |]. split; [done |]. done. }
  unfold partial_path, webm_path in *.
  rewrite (partial_path_stored _ Hs), (exists_stored _ _ Hr Hpp) in Ep.
  rewrite (session_path_stored sid ".webm" Hs) in Ew |- * by done.
  rewrite (exists_stored _ _ Hr Hwp) in Ew.
  destruct (σ !! K (sid +:+ ".webm.partial")) as [v|] eqn:Hp; [| done].
  destruct (σ !! K (sid +:+ ".webm")) eqn:Hw; [done |].
  set (σm := match v with
             | File d t0 =>
                 <[K (sid +:+ ".webm") := File d t0]>
                   (delete (K (sid +:+ ".webm.partial")) σ)
             | Dir _ _ =>
                 FS.move_tree (K (sid +:+ ".webm.partial"))
                   (K (sid +:+ ".webm")) σ
             end).
  assert (shutil_move (K (sid +:+ ".webm.partial")) (K (sid +:+ ".webm")) σ
          = (Some tt, σm,
             [Renamed (K (sid +:+ ".webm.partial")) (K (sid +:+ ".webm"))]))
    as Hmove.
  { destruct v; [by apply rename_stored_file | by eapply rename_stored_dir]. }
  assert (ready σm) as Hrm.
  { destruct v; [by apply ready_insert, ready_delete
                | by apply ready_move_tree]. }
  assert (is_Some (σm !! K (sid +:+ ".webm"))) as Hwm.
  { destruct v; simpl in σm.
    - unfold σm. by rewrite lookup_insert_eq.
    - eapply move_tree_lookup_dst; [done |].
      intros E. symmetry in E. by apply webm_ne_partial in E. }
  destruct (finalize_after_move σ σm now ff sid Hr Hs (mk_is_Some _ _ Hp)
              Hw Hmove Hrm Hwm) as (tr & -> & _ & Hother & Hr2).
  eexists _, _, _. split; [reflexivity |]. split.
  - split; [done | by intros [? _]].
  - intros _. rewrite (exists_stored _ _ Hr2 Hwp).
    rewrite (Hother (K (sid +:+ ".webm")))
      by (intros E; symmetry in E; by apply mp4_ne_webm in E).
    destruct Hwm as [v' ->]. done.
Qed.

Lemma strip_prefix_inv (p url rest : string) :
  Str.strip_prefix p url = Some rest → url = p +:+ rest.
Proof.
  revert url. induction p as [|c p IH]; intros url.
  - simpl. by intros [= ->].
  - destruct url as [|d url]; simpl; [done |].
    destruct (Ascii.eqb_spec c d) as [-> | _]; [| done].
    intros H. change (String d p +:+ rest) with (String d (p +:+ rest)).
    f_equal. by apply IH.
Qed.

Lemma under_inv (prefix url : string) (ok : string → bool) (x : string) :
  under prefix url ok = Some x → url = prefix +:+ x ∧ ok x = true.
Proof.
  intros H. split; [| by eapply under_ok].
  unfold under in H.
  destruct (Str.strip_prefix prefix url) as [rest|] eqn:E; [| done].
  destruct (ok rest); [| done]. injection H as <-.
  by apply strip_prefix_inv.
Qed.

(** X8: only three kinds of request can change the disk or make a writing
    call: a POST to /upload/{session}, /finalize/{session} or
    /snapshot/{session}.  Every GET and every other POST leaves the disk as
    it found it. *)
Theorem only_posts_to_three_routes_write (now : Z) (ff : ffmpeg)
    (m : method) (url : string) (data : list Byte.byte) (σ σ' : fs)
    (r : option response) (t : list event) :
  dispatch BASE_DIR listdir now ff m url data σ = (r, σ', t) →
  σ' ≠ σ ∨ t ≠ [] →
  m = POST
  ∧ ∃ sid, segment sid = true
           ∧ (url = "/upload/" +:+ sid ∨ url = "/finalize/" +:+ sid
              ∨ url = "/snapshot/" +:+ sid).
Proof.
  intros Hd Hch.
  assert (∀ h : io response,
            reads h → h σ = (r, σ', t) → False) as Hread.
  { intros h Hh E. destruct (Hh σ) as [r' E']. rewrite E' in E.
    injection E as _ <- <-. by destruct Hch. }
  unfold dispatch in Hd.
  destruct (String.eqb url "/").
  { exfalso. eapply Hread; [| exact Hd]. apply reads_on, reads_ret. }
  destruct (String.eqb_spec url "/snapshot/latest") as [-> | _].
  { destruct m.
    - exfalso. eapply Hread; [| exact Hd]. apply reads_snapshot_latest.
    - split; [done |]. exists "latest". split; [done |]. by right; right. }
  destruct (String.eqb url "/status").
  { exfalso. eapply Hread; [| exact Hd]. apply reads_on, reads_status. }
  destruct (String.eqb url "/latest").
  { exfalso. eapply Hread; [| exact Hd]. apply reads_on, reads_latest. }
  destruct (String.eqb url "/health").
  { exfalso. eapply Hread; [| exact Hd]. apply reads_on, reads_ret. }
  destruct (under "/upload/" _ _) as [sid|] eqn:E1.
  { apply under_inv in E1 as [-> Hs]. destruct m.
    - exfalso. eapply Hread; [| exact Hd]. apply reads_ret.
    - split; [done |]. exists sid. split; [done |]. by left. }
  destruct (under "/finalize/" _ _) as [sid|] eqn:E2.
  { apply under_inv in E2 as [-> Hs]. destruct m.
    - exfalso. eapply Hread; [| exact Hd]. apply reads_ret.
    - split; [done |]. exists sid. split; [done |]. by right; left. }
  destruct (under "/snapshot/" _ _) as [sid|] eqn:E3.
  { apply under_inv in E3 as [-> Hs]. destruct m.
    - exfalso. eapply Hread; [| exact Hd]. apply reads_ret.
    - split; [done |]. exists sid. split; [done |]. by right; right. }
  destruct (under "/video/" _ _) as [name|] eqn:E4.
  { exfalso. eapply Hread; [| exact Hd]. apply reads_on, reads_serve_video. }
  exfalso. eapply Hread; [| exact Hd]. apply reads_ret.
Qed.

(** X9: creating the storage directory at start-up leaves it ready, keeps
    every entry already stored in it, and is a no-op when repeated
    ([exist_ok=True]). *)
Theorem startup_keeps_recordings (now now' : Z) (σ σ' : fs)
    (t : list event) :
  Forall (λ c, proper_name c = true) (VIDEO_DIR BASE_DIR) →
  startup BASE_DIR now σ = (Some tt, σ', t) →
  ready σ'
  ∧ FS.isdir σ' (VIDEO_DIR BASE_DIR) = true
  ∧ (∀ n, σ' !! K n = σ !! K n)
  ∧ startup BASE_DIR now' σ' = (Some tt, σ', []).
Proof.
  intros Hp Hst.
  pose proof (startup_ready _ _ _ _ Hp Hst) as Hr.
  split; [done |]. split.
  { unfold FS.isdir, FS.stat. rewrite (resolve_ready _ Hr).
    pose proof (ready_is_dir _ Hr) as Hd. unfold FS.is_dir_at in Hd.
    by destruct (FS.node_at σ' Vd) as [[]|]. }
  split.
  - intros n. unfold startup, os_makedirs in Hst.
    destruct (FS.makedirs now Vd σ) as [σ1|] eqn:E; [| done].
    injection Hst as <- _.
    destruct (makedirs_from_spec _ _ _ _ _ E) as [_ Hkeep].
    apply Hkeep. intros i _ Ei. simpl in Ei.
    by apply (stored_not_prefix n i).
  - unfold startup, os_makedirs. by rewrite (makedirs_ready _ _ Hr).
Qed.

(** ** The newest file of a kind *)

Lemma sort_desc_first {A} (key : A → Z) (l rest : list A) (x : A) :
  sort_desc key l = x :: rest → x ∈ l ∧ ∀ y, y ∈ l → key y ≤ key x.
Proof.
  intros E. pose proof (sort_desc_sorted key l) as Hs.
  pose proof (sort_desc_perm key l) as Hp. rewrite E in Hs, Hp.
  split; [rewrite <- Hp; by left |].
  intros y Hy. rewrite <- Hp in Hy.
  apply elem_of_cons in Hy as [-> | Hy]; [lia |].
  inversion_clear Hs as [|? ? _ Hall].
  rewrite Forall_forall in Hall. by apply Hall.
Qed.

Lemma sort_desc_nil {A} (key : A → Z) (l : list A) :
  sort_desc key l = [] → l = [].
Proof.
  intros E. pose proof (sort_desc_perm key l) as Hp. rewrite E in Hp.
  by apply Permutation_nil in Hp.
Qed.

(** What [sorted(glob(...), key=os.path.getmtime, reverse=True)] starts
    with: nothing when no visible entry of the kind is stored, else a
    stored entry of the kind that no other one is newer than. *)
Lemma newest_listed (σ : fs) (ext : string) :
  lists_directories listdir → ready σ →
  ∃ keyed,
    for_each with_mtime (glob listdir Vd ext σ) σ = (Some keyed, σ, [])
    ∧ match (sort_desc snd keyed).*1 with
      | [] => ∀ n, proper_name n = true → glob_match ext n = true →
                   σ !! K n = None
      | p :: _ =>
          ∃ n v, p = K n ∧ proper_name n = true ∧ glob_match ext n = true
                 ∧ σ !! K n = Some v
                 ∧ ∀ n' v', proper_name n' = true →
                            glob_match ext n' = true →
                            σ !! K n' = Some v' → st_mtime v' ≤ st_mtime v
      end.
Proof.
  intros Hls Hr.
  destruct (for_each_reads with_mtime (glob listdir Vd ext σ) σ)
    as (keyed & Hkeyed & Hall).
  { intros f (n & -> & Hp & _ & [v Hn])%glob_ready; [| done..].
    unfold with_mtime, bind, query_opt, ret, FS.getmtime.
    rewrite (stat_stored _ _ Hr Hp), Hn. by eexists. }
  exists keyed. split; [done |].
  assert (∀ p t', (p, t') ∈ keyed →
            ∃ n v, p = K n ∧ proper_name n = true
                   ∧ glob_match ext n = true
                   ∧ σ !! K n = Some v ∧ t' = st_mtime v) as Hkey.
  { intros p t' Hin.
    destruct (Forall2_elem_r _ _ _ _ Hall Hin) as (f & Hf & Hft).
    apply glob_ready in Hf as (n & -> & Hp & Hmn & [v Hn]); [| done..].
    unfold with_mtime, bind, query_opt, ret, FS.getmtime in Hft.
    rewrite (stat_stored _ _ Hr Hp), Hn in Hft. simpl in Hft.
    injection Hft as <- <-. by exists n, v. }
  assert (∀ n v, proper_name n = true → glob_match ext n = true →
                 σ !! K n = Some v → (K n, st_mtime v) ∈ keyed) as Hin.
  { intros n v Hp Hm Hv.
    assert (K n ∈ glob listdir Vd ext σ) as Hf.
    { apply glob_ready; [done.. |]. by exists n. }
    destruct (Forall2_elem_l _ _ _ _ Hall Hf) as ([p t'] & Hy & Hft).
    unfold with_mtime, bind, query_opt, ret, FS.getmtime in Hft.
    rewrite (stat_stored _ _ Hr Hp), Hv in Hft. simpl in Hft.
    by injection Hft as <- <-. }
  destruct (sort_desc snd keyed) as [|[p t'] rest] eqn:Es; simpl.
  - apply sort_desc_nil in Es as ->. intros n Hp Hm.
    destruct (σ !! K n) as [v|] eqn:Hv; [| done].
    by apply Hin, elem_of_nil in Hv.
  - apply sort_desc_first in Es as [Hfirst Hmax].
    destruct (Hkey _ _ Hfirst) as (n & v & -> & Hp & Hm & Hv & ->).
    exists n, v. repeat split; try done.
    intros n' v' Hp' Hm' Hv'. apply (Hmax (K n', st_mtime v')). by apply Hin.
Qed.



(** X12: for a name the operating system accepts, the chunk sink of
    [app.py] appends the chunk to the session's final ".webm" name (there
    is no partial file) and reports the length of the chunk, not the size
    of the file; every entry that is neither that file nor a directory
    above it stays as it was. *)
Theorem app_py_upload_chunk_appends (σ : fs) (now : Z) (sid : string)
    (chunk old : list Byte.byte) :
  let path := AppPy._session_path (VIDEO_DIR BASE_DIR) sid ".webm" in
  ready σ → segment sid = true → path_ok path = true →
  FS.read σ path = Some old ∨ (FS.exists_ σ path = false ∧ old = []) →
  ∃ σ' tr,
    AppPy.upload_chunk (VIDEO_DIR BASE_DIR) now sid chunk σ
    = (Some (jsonify 200 (JObj [("ok", JBool true);
                                ("size", JNum (Z.of_nat (length chunk)))])),
       σ', tr)
    ∧ FS.read σ' path = Some (old ++ chunk)
    ∧ (∀ k, ¬ k `prefix_of` path → σ' !! k = σ !! k).
Proof.
  intros path Hr Hs _ Hold. unfold path in *.
  change (AppPy._session_path Vd sid ".webm")
    with (_session_path BASE_DIR sid ".webm") in *.
  rewrite (session_path_stored sid ".webm" Hs) in * by done.
  pose proof (webm_proper _ Hs) as Hwp.
  rewrite (read_stored _ _ Hr Hwp), (exists_stored _ _ Hr Hwp) in Hold.
  unfold AppPy.upload_chunk, bind, open_, ret, FS.open_write.
  change (AppPy._session_path Vd sid ".webm")
    with (_session_path BASE_DIR sid ".webm").
  rewrite (session_path_stored sid ".webm" Hs) by done.
  rewrite (resolve_stored _ _ Hr Hwp), node_at_stored.
  destruct (σ !! K (sid +:+ ".webm")) as [[old' t|]|] eqn:E.
  - destruct Hold as [[= ->] | [? _]]; [| done].
    eexists _, _. split; [reflexivity |].
    rewrite read_stored by (by try apply ready_insert).
    rewrite lookup_insert_eq. split; [done |].
    intros k Hk. rewrite lookup_insert_ne; [done |]. by intros <-.
  - by destruct Hold as [? | [? _]].
  - destruct Hold as [? | [_ ->]]; [done |].
    eexists _, _. split; [reflexivity |].
    rewrite read_stored by (by try apply ready_insert).
    rewrite lookup_insert_eq. split; [done |].
    intros k Hk. rewrite lookup_insert_ne; [done |]. by intros <-.
Qed.

(** ** What the listing holds *)

Lemma video_entries_ready (σ : fs) (kind ext : string) :
  lists_directories listdir → ready σ →
  ∃ es, for_each (video_entry kind) (glob listdir Vd ext σ) σ
        = (Some es, σ, [])
        ∧ ∀ e, e ∈ es ↔
               ∃ n v, proper_name n = true ∧ glob_match ext n = true
                      ∧ σ !! K n = Some v ∧ e = entry_of kind n v.
Proof.
  intros Hls Hr.
  assert (∀ n v, proper_name n = true → σ !! K n = Some v →
                 video_entry kind (K n) σ
                 = (Some (entry_of kind n v), σ, [])) as Hentry.
  { intros n v Hp Hv. unfold video_entry, bind, query_opt, ret.
    by rewrite (stat_stored _ _ Hr Hp), Hv, basename_stored. }
  destruct (for_each_reads (video_entry kind) (glob listdir Vd ext σ) σ)
    as (es & Hes & Hall).
  { intros f (n & -> & Hp & _ & [v Hn])%glob_ready; [| done..].
    rewrite (Hentry _ _ Hp Hn). by eexists. }
  exists es. split; [done |]. intros e. split.
  - intros He. destruct (Forall2_elem_r _ _ _ _ Hall He) as (f & Hf & Hfe).
    apply glob_ready in Hf as (n & -> & Hp & Hm & [v Hn]); [| done..].
    rewrite (Hentry _ _ Hp Hn) in Hfe. injection Hfe as <-.
    by exists n, v.
  - intros (n & v & Hp & Hm & Hv & ->).
    assert (K n ∈ glob listdir Vd ext σ) as Hf.
    { apply glob_ready; [done.. |]. by exists n. }
    destruct (Forall2_elem_l _ _ _ _ Hall Hf) as (e & He & Hfe).
    rewrite (Hentry _ _ Hp Hv) in Hfe. by injection Hfe as ->.
Qed.

Lemma glob_match_last_char (ext n : string) :
  ext ≠ EmptyString → glob_match ext n = true →
  Str.last_char n = Str.last_char ext ∧ Str.starts_with "." n = false.
Proof.
  intros He [Hend Hvis]%andb_true_iff. split.
  - by apply ends_with_last_char.
  - by apply negb_true_iff.
Qed.

(** ** Ties in the listing *)

Lemma insert_desc_filter {A} (key : A → Z) (k : Z) (x : A) (l : list A) :
  List.filter (λ y, key y =? k) (insert_desc key x l)
  = if key x =? k then x :: List.filter (λ y, key y =? k) l
    else List.filter (λ y, key y =? k) l.
Proof.
  induction l as [|y l IH]; simpl; [done |].
  destruct (Z.ltb_spec (key x) (key y)) as [Hlt | Hge]; simpl.
  - rewrite IH. destruct (Z.eqb_spec (key x) k) as [Hx | Hx]; [| done].
    destruct (Z.eqb_spec (key y) k); [lia | done].
  - done.
Qed.

(** The sort is stable: entries of equal key keep their order. *)
Lemma sort_desc_stable {A} (key : A → Z) (k : Z) (l : list A) :
  List.filter (λ y, key y =? k) (sort_desc key l)
  = List.filter (λ y, key y =? k) l.
Proof.
  induction l as [|x l IH]; [done |].
  cbn [sort_desc foldr]. fold (sort_desc key l).
  rewrite insert_desc_filter, IH. simpl.
  by destruct (key x =? k).
Qed.

(** ** Successive uploads *)

Lemma run_uploads_totals (σ : fs) (sid : string)
    (chunks : list (Z * list Byte.byte)) (old : list Byte.byte) (t0 : Z) :
  ready σ → segment sid = true →
  σ !! K (sid +:+ ".webm.partial") = Some (File old t0) →
  ∃ σ' tr,
    run BASE_DIR listdir (upload_requests sid chunks) σ
    = ((λ z, Some (received z))
         <$> running_totals (Z.of_nat (length old)) chunks.*2, σ', tr).
Proof.
  intros Hr Hs. revert σ old t0 Hr.
  induction chunks as [|[now data] chunks IH]; intros σ old t0 Hr Hp.
  - by exists σ, [].
  - cbn [upload_requests fmap list_fmap run fst snd running_totals].
    rewrite (serve_upload _ _ _ Hs), (upload_chunk_ready _ _ _ _ Hr Hs).
    cbv zeta. rewrite Hp.
    set (t1 := match data with [] => t0 | _ => now end).
    destruct (IH (<[K (sid +:+ ".webm.partial")
                     := File (old ++ data) t1]> σ) (old ++ data) t1
                (ready_insert _ _ _ Hr) (lookup_insert_eq _ _ _))
      as (σ' & tr & Hrun).
    fold (upload_requests sid chunks). rewrite Hrun.
    rewrite length_app, Nat2Z.inj_add. by eexists _, _.
Qed.

(** X15: over successive uploads to one session (whose file name the
    operating system accepts), each answer reports the size the partial
    file has reached: the size before the first upload plus the lengths of
    all chunks received so far. *)
Theorem upload_answers_report_running_totals (σ : fs) (sid : string)
    (chunks : list (Z * list Byte.byte)) (old : list Byte.byte) :
  let partial_path := _session_path BASE_DIR sid (".webm" +:+ PART_EXT) in
  ready σ → segment sid = true → path_ok partial_path = true →
  FS.read σ partial_path = Some old
  ∨ (FS.exists_ σ partial_path = false ∧ old = []) →
  ∃ σ' tr,
    run BASE_DIR listdir (upload_requests sid chunks) σ
    = ((λ z, Some (received z))
         <$> running_totals (Z.of_nat (length old)) chunks.*2, σ', tr).
Proof.
  intros partial_path Hr Hs _ Hold. unfold partial_path in *.
  rewrite (partial_path_stored _ Hs) in Hold.
  pose proof (partial_proper _ Hs) as Hpp.
  rewrite (read_stored _ _ Hr Hpp), (exists_stored _ _ Hr Hpp) in Hold.
  destruct (σ !! K (sid +:+ ".webm.partial")) as [[old' t|]|] eqn:E.
  - destruct Hold as [[= ->] | [? _]]; [| done].
    by eapply run_uploads_totals.
  - by destruct Hold as [? | [? _]].
  - destruct Hold as [? | [_ ->]]; [done |].
    destruct chunks as [|[now data] chunks]; [by exists σ, [] |].
    cbn [upload_requests fmap list_fmap run fst snd running_totals].
    rewrite (serve_upload _ _ _ Hs), (upload_chunk_ready _ _ _ _ Hr Hs).
    cbv zeta. rewrite E.
    destruct (run_uploads_totals
                (<[K (sid +:+ ".webm.partial") := File data now]> σ)
                sid chunks data now (ready_insert _ _ _ Hr) Hs
                (lookup_insert_eq _ _ _)) as (σ' & tr & Hrun).
    fold (upload_requests sid chunks). rewrite Hrun.
    by eexists _, _.
Qed.

(** ** The transcoder's leftovers *)

(** X16: an encode that exits with an error after writing output is
    reported as no transcode at all ("mp4" is null), yet the output it
    wrote stays on the disk under the transcoded name, next to the
    finalized video. *)
Theorem failed_encode_leaves_output (σ : fs) (now : Z) (ff : ffmpeg)
    (sid : string) (data out : list Byte.byte) :
  let partial_path := _session_path BASE_DIR sid (".webm" +:+ PART_EXT) in
  let webm_path := _session_path BASE_DIR sid ".webm" in
  let mp4_path := replace_ext webm_path ".mp4" in
  ready σ → segment sid = true →
  FS.read σ partial_path = Some data → FS.exists_ σ webm_path = false →
  FS.isdir σ mp4_path = false →
  probe_ok ff = true → encode_ok ff = false → encode_output ff = Some out →
  ∃ σ' tr,
    finalize BASE_DIR now ff sid σ
    = (Some (jsonify 200 (JObj [("ok", JBool true);
                                ("webm", JStr (sid +:+ ".webm"));
                                ("mp4", JNull);
                                ("at", _now_iso now)])), σ', tr)
    ∧ FS.read σ' webm_path = Some data
    ∧ FS.read σ' mp4_path = Some out
    ∧ FS.getmtime σ' mp4_path = Some (encode_time ff).
Proof.
  intros partial_path webm_path mp4_path Hr Hs Hp Hw Hm Hprobe Henc Hout.
  unfold mp4_path, partial_path, webm_path in *.
  rewrite (partial_path_stored _ Hs) in *.
  rewrite (session_path_stored sid ".webm" Hs) in * by done.
  rewrite mp4_path_stored in *.
  pose proof (partial_proper _ Hs) as Hpp.
  pose proof (webm_proper _ Hs) as Hwp.
  pose proof (mp4_proper _ Hs) as Hmp.
  rewrite (read_stored _ _ Hr Hpp) in Hp.
  rewrite (exists_stored _ _ Hr Hwp) in Hw.
  rewrite (isdir_stored _ _ Hr Hmp) in Hm.
  destruct (σ !! K (sid +:+ ".webm.partial")) as [[d t0|]|] eqn:Ep;
    try done. injection Hp as ->.
  destruct (σ !! K (sid +:+ ".webm")) eqn:Ew; [done |].
  destruct (finalize_first σ now ff sid data t0 Hr Hs Ep Ew)
    as (tr & Hfin & _ & Hw2 & Hp2 & Hr2).
  set (σ1 := <[K (sid +:+ ".webm") := File data t0]>
               (delete (K (sid +:+ ".webm.partial")) σ)) in *.
  assert (after_encode ff (K (mp4_name sid)) σ1
          = <[K (mp4_name sid) := File out (encode_time ff)]> σ1) as Eenc.
  { unfold after_encode. rewrite Hprobe, Hout.
    assert (σ1 !! K (mp4_name sid) = σ !! K (mp4_name sid)) as ->.
    { unfold σ1. rewrite lookup_insert_ne
        by (intros E; symmetry in E; by apply mp4_ne_webm in E).
      rewrite lookup_delete_ne; [done |].
      intros E. symmetry in E. by apply mp4_ne_partial in E. }
    by destruct (σ !! K (mp4_name sid)) as [[]|]. }
  rewrite Eenc in *. rewrite Hprobe, Henc in Hfin. simpl in Hfin.
  eexists _, _. split; [exact Hfin |].
  unfold FS.getmtime.
  rewrite !(read_stored _ _ Hr2) by done.
  rewrite (stat_stored _ _ Hr2 Hmp).
  by rewrite Hw2, lookup_insert_eq.
Qed.

(** X17: when the probe of the transcoder fails the encode is never run:
    the first finalize of a session only renames the partial file, and
    every other entry of the disk, the transcoded name included, is as it
    was (all entries but the two names and the directories above them). *)
Theorem finalize_without_transcoder_only_renames (σ : fs) (now : Z)
    (ff : ffmpeg) (sid : string) (data : list Byte.byte) :
  let partial_path := _session_path BASE_DIR sid (".webm" +:+ PART_EXT) in
  let webm_path := _session_path BASE_DIR sid ".webm" in
  ready σ → segment sid = true →
  FS.read σ partial_path = Some data → FS.exists_ σ webm_path = false →
  probe_ok ff = false →
  ∃ r σ' tr,
    finalize BASE_DIR now ff sid σ = (Some r, σ', tr)
    ∧ FS.read σ' webm_path = Some data
    ∧ FS.exists_ σ' partial_path = false
    ∧ FS.getmtime σ' webm_path = FS.getmtime σ partial_path
    ∧ ∀ k, ¬ k `prefix_of` partial_path → ¬ k `prefix_of` webm_path →
           σ' !! k = σ !! k.
Proof.
  intros partial_path webm_path Hr Hs Hp Hw Hprobe.
  unfold partial_path, webm_path in *.
  rewrite (partial_path_stored _ Hs) in *.
  rewrite (session_path_stored sid ".webm" Hs) in * by done.
  pose proof (partial_proper _ Hs) as Hpp.
  pose proof (webm_proper _ Hs) as Hwp.
  rewrite (read_stored _ _ Hr Hpp) in Hp.
  rewrite (exists_stored _ _ Hr Hwp) in Hw.
  destruct (σ !! K (sid +:+ ".webm.partial")) as [[d t0|]|] eqn:Ep;
    try done. injection Hp as ->.
  destruct (σ !! K (sid +:+ ".webm")) eqn:Ew; [done |].
  destruct (finalize_first σ now ff sid data t0 Hr Hs Ep Ew)
    as (tr & Hfin & _ & Hw2 & Hp2 & Hr2).
  assert (after_encode ff (K (mp4_name sid))
            (<[K (sid +:+ ".webm") := File data t0]>
               (delete (K (sid +:+ ".webm.partial")) σ))
          = <[K (sid +:+ ".webm") := File data t0]>
              (delete (K (sid +:+ ".webm.partial")) σ)) as Eenc.
  { unfold after_encode. by rewrite Hprobe. }
  rewrite Eenc in *.
  eexists _, _, _. split; [exact Hfin |].
  unfold FS.getmtime.
  rewrite (read_stored _ _ Hr2 Hwp), (exists_stored _ _ Hr2 Hpp).
  rewrite (stat_stored _ _ Hr2 Hwp), (stat_stored _ _ Hr Hpp).
  rewrite Hw2, Hp2, Ep. repeat split; try done.
  intros k Hk1 Hk2. rewrite lookup_insert_ne by (by intros <-).
  by rewrite lookup_delete_ne by (by intros <-).
Qed.

(** ** Nothing outside the storage directory is written *)

Lemma storage_prefix (n : string) : Vd `prefix_of` K n.
Proof. by exists [n]. Qed.

Lemma outside_ne (k : path) (n : string) : ¬ Vd `prefix_of` k → k ≠ K n.
Proof. intros Hk ->. apply Hk, storage_prefix. Qed.

Lemma outside_not_under (k : path) (n : string) :
  ¬ Vd `prefix_of` k → ¬ K n `prefix_of` k.
Proof.
  intros Hk Hn. apply Hk. etrans; [apply storage_prefix | exact Hn].
Qed.

Lemma confined_reads {A} (m : io A) (σ σ1 : fs) (r : option A)
    (t : list event) (k : path) :
  reads m → m σ = (r, σ1, t) → σ1 !! k = σ !! k.
Proof.
  intros Hm E. destruct (Hm σ) as [r' E']. rewrite E' in E.
  by injection E as _ <- _.
Qed.

Lemma confined_upload (σ σ1 : fs) (now : Z) (sid : string)
    (data : list Byte.byte) (r : option response) (t : list event)
    (k : path) :
  ready σ → segment sid = true → ¬ Vd `prefix_of` k →
  upload_chunk BASE_DIR now sid data σ = (r, σ1, t) → σ1 !! k = σ !! k.
Proof.
  intros Hr Hs Hk. rewrite (upload_chunk_ready _ _ _ _ Hr Hs). cbv zeta.
  destruct (σ !! K (sid +:+ ".webm.partial")) as [[old t0|]|];
    intros [= <- <- <-]; try done;
    by rewrite lookup_insert_ne by (symmetry; by apply outside_ne).
Qed.

Lemma confined_snapshot (σ σ1 : fs) (now : Z) (sid : string)
    (data : list Byte.byte) (r : option response) (t : list event)
    (k : path) :
  ready σ → segment sid = true → ¬ Vd `prefix_of` k →
  snapshot BASE_DIR now sid data σ = (r, σ1, t) → σ1 !! k = σ !! k.
Proof.
  intros Hr Hs Hk. rewrite (snapshot_ready _ _ _ _ Hr Hs). cbv zeta.
  destruct (σ !! K (sid +:+ ".jpg")) as [[old t0|]|];
    intros [= <- <- <-]; try done;
    by rewrite lookup_insert_ne by (symmetry; by apply outside_ne).
Qed.

Lemma confined_finalize (σ σ1 : fs) (now : Z) (ff : ffmpeg) (sid : string)
    (r : option response) (t : list event) (k : path) :
  ready σ → segment sid = true → ¬ Vd `prefix_of` k →
  finalize BASE_DIR now ff sid σ = (r, σ1, t) → σ1 !! k = σ !! k.
Proof.
  intros Hr Hs Hk.
  pose proof (partial_proper _ Hs) as Hpp.
  pose proof (webm_proper _ Hs) as Hwp.
  destruct (FS.exists_ σ (_session_path BASE_DIR sid ".webm")) eqn:Ew.
  { rewrite (finalize_again σ now ff sid Ew). by intros [= <- <- <-]. }
  destruct (FS.exists_ σ (_session_path BASE_DIR sid (".webm" +:+ PART_EXT)))
    eqn:Ep.
  2: { rewrite (finalize_missing σ now ff sid Ep Ew).
       by intros [= <- <- <-]. }
  rewrite (partial_path_stored _ Hs), (exists_stored _ _ Hr Hpp) in Ep.
  rewrite (session_path_stored sid ".webm" Hs) in Ew by done.
  rewrite (exists_stored _ _ Hr Hwp) in Ew.
  destruct (σ !! K (sid +:+ ".webm.partial")) as [v|] eqn:Hp; [| done].
  destruct (σ !! K (sid +:+ ".webm")) eqn:Hw; [done |].
  set (σm := match v with
             | File data t0 =>
                 <[K (sid +:+ ".webm") := File data t0]>
                   (delete (K (sid +:+ ".webm.partial")) σ)
             | Dir _ _ =>
                 FS.move_tree (K (sid +:+ ".webm.partial"))
                   (K (sid +:+ ".webm")) σ
             end).
  assert (shutil_move (K (sid +:+ ".webm.partial")) (K (sid +:+ ".webm")) σ
          = (Some tt, σm,
             [Renamed (K (sid +:+ ".webm.partial")) (K (sid +:+ ".webm"))]))
    as Hmove.
  { destruct v; [by apply rename_stored_file | by eapply rename_stored_dir]. }
  assert (ready σm) as Hrm.
  { destruct v; [by apply ready_insert, ready_delete
                | by apply ready_move_tree]. }
  assert (is_Some (σm !! K (sid +:+ ".webm"))) as Hwm.
  { destruct v; simpl in σm.
    - unfold σm. by rewrite lookup_insert_eq.
    - eapply move_tree_lookup_dst; [done |].
      intros E. symmetry in E. by apply webm_ne_partial in E. }
  assert (σm !! k = σ !! k) as Hkeep.
  { destruct v; simpl in σm; unfold σm.
    - rewrite lookup_insert_ne by (symmetry; by apply outside_ne).
      by rewrite lookup_delete_ne by (symmetry; by apply outside_ne).
    - by rewrite move_tree_lookup_other by (by apply outside_not_under). }
  destruct (finalize_after_move σ σm now ff sid Hr Hs (mk_is_Some _ _ Hp)
              Hw Hmove Hrm Hwm) as (tr & -> & _ & Hother & _).
  intros [= <- <- <-].
  by rewrite Hother by (by apply outside_ne).
Qed.

Lemma confined_serve (rq : request) (σ σ1 : fs) (r : option response)
    (t : list event) (k : path) :
  ready σ → ¬ Vd `prefix_of` k →
  serve BASE_DIR listdir rq σ = (r, σ1, t) → σ1 !! k = σ !! k.
Proof.
  intros Hr Hk. unfold serve, dispatch.
  destruct (String.eqb (req_url rq) "/").
  { apply confined_reads, reads_on, reads_ret. }
  destruct (String.eqb (req_url rq) "/snapshot/latest").
  { destruct (req_method rq).
    - apply confined_reads, reads_snapshot_latest.
    - by apply confined_snapshot. }
  destruct (String.eqb (req_url rq) "/status").
  { apply confined_reads, reads_on, reads_status. }
  destruct (String.eqb (req_url rq) "/latest").
  { apply confined_reads, reads_on, reads_latest. }
  destruct (String.eqb (req_url rq) "/health").
  { apply confined_reads, reads_on, reads_ret. }
  destruct (under "/upload/" _ _) as [sid|] eqn:E1.
  { apply under_ok in E1. destruct (req_method rq); simpl.
    - apply confined_reads, reads_ret.
    - by apply confined_upload. }
  destruct (under "/finalize/" _ _) as [sid|] eqn:E2.
  { apply under_ok in E2. destruct (req_method rq); simpl.
    - apply confined_reads, reads_ret.
    - by apply confined_finalize. }
  destruct (under "/snapshot/" _ _) as [sid|] eqn:E3.
  { apply under_ok in E3. destruct (req_method rq); simpl.
    - apply confined_reads, reads_ret.
    - by apply confined_snapshot. }
  destruct (under "/video/" _ _) as [name|] eqn:E4.
  { apply confined_reads, reads_on, reads_serve_video. }
  apply confined_reads, reads_ret.
Qed.

(** X18: once the storage directory exists, no sequence of requests
    creates, changes or removes an entry outside it, whatever the session
    ids, the file names asked for and the transcoder. *)
Theorem requests_stay_inside_storage (rqs : list request) (σ σ' : fs)
    (rs : list (option response)) (t : list event) (k : path) :
  ready σ → run BASE_DIR listdir rqs σ = (rs, σ', t) →
  ¬ VIDEO_DIR BASE_DIR `prefix_of` k → σ' !! k = σ !! k.
Proof.
  intros Hr Hrun Hk. revert σ rs t Hr Hrun.
  induction rqs as [|rq rqs IH]; intros σ rs t Hr; cbn [run].
  - by intros [= _ <- _].
  - destruct (serve BASE_DIR listdir rq σ) as [[r σ1] t1] eqn:E1.
    destruct (run BASE_DIR listdir rqs σ1) as [[rs' σ2] t2] eqn:E2.
    intros [= _ <- _].
    destruct (frame_serve _ _ _ _ _ Hr E1) as (Hr1 & _).
    rewrite (IH _ _ _ Hr1 E2).
    by apply (confined_serve _ _ _ _ _ _ Hr Hk E1).
Qed.

(** ** Sessions do not touch each other *)

Lemma finalize_frame (σ σ1 : fs) (now : Z) (ff : ffmpeg) (sid : string)
    (r : option response) (t : list event) (k : path) :
  ready σ → segment sid = true →
  ¬ K (sid +:+ ".webm.partial") `prefix_of` k →
  ¬ K (sid +:+ ".webm") `prefix_of` k →
  k ≠ K (mp4_name sid) →
  finalize BASE_DIR now ff sid σ = (r, σ1, t) → σ1 !! k = σ !! k.
Proof.
  intros Hr Hs Hkp Hkw Hkm.
  assert (k ≠ K (sid +:+ ".webm.partial")) as Hnp by (by intros ->).
  assert (k ≠ K (sid +:+ ".webm")) as Hnw by (by intros ->).
  pose proof (partial_proper _ Hs) as Hpp.
  pose proof (webm_proper _ Hs) as Hwp.
  destruct (FS.exists_ σ (_session_path BASE_DIR sid ".webm")) eqn:Ew.
  { rewrite (finalize_again σ now ff sid Ew). by intros [= <- <- <-]. }
  destruct (FS.exists_ σ (_session_path BASE_DIR sid (".webm" +:+ PART_EXT)))
    eqn:Ep.
  2: { rewrite (finalize_missing σ now ff sid Ep Ew).
       by intros [= <- <- <-]. }
  rewrite (partial_path_stored _ Hs), (exists_stored _ _ Hr Hpp) in Ep.
  rewrite (session_path_stored sid ".webm" Hs) in Ew by done.
  rewrite (exists_stored _ _ Hr Hwp) in Ew.
  destruct (σ !! K (sid +:+ ".webm.partial")) as [v|] eqn:Hp; [| done].
  destruct (σ !! K (sid +:+ ".webm")) eqn:Hw; [done |].
  set (σm := match v with
             | File data t0 =>
                 <[K (sid +:+ ".webm") := File data t0]>
                   (delete (K (sid +:+ ".webm.partial")) σ)
             | Dir _ _ =>
                 FS.move_tree (K (sid +:+ ".webm.partial"))
                   (K (sid +:+ ".webm")) σ
             end).
  assert (shutil_move (K (sid +:+ ".webm.partial")) (K (sid +:+ ".webm")) σ
          = (Some tt, σm,
             [Renamed (K (sid +:+ ".webm.partial")) (K (sid +:+ ".webm"))]))
    as Hmove.
  { destruct v; [by apply rename_stored_file | by eapply rename_stored_dir]. }
  assert (ready σm) as Hrm.
  { destruct v; [by apply ready_insert, ready_delete
                | by apply ready_move_tree]. }
  assert (is_Some (σm !! K (sid +:+ ".webm"))) as Hwm.
  { destruct v; simpl in σm.
    - unfold σm. by rewrite lookup_insert_eq.
    - eapply move_tree_lookup_dst; [done |].
      intros E. symmetry in E. by apply webm_ne_partial in E. }
  assert (σm !! k = σ !! k) as Hkeep.
  { destruct v; simpl in σm; unfold σm.
    - rewrite lookup_insert_ne by done. by rewrite lookup_delete_ne.
    - by rewrite move_tree_lookup_other. }
  destruct (finalize_after_move σ σm now ff sid Hr Hs (mk_is_Some _ _ Hp)
              Hw Hmove Hrm Hwm) as (tr & -> & _ & Hother & _).
  intros [= <- <- <-]. by rewrite Hother.
Qed.

(** X19: a finalize touches at most three places: the session's partial
    entry, its finalized entry (with what lies below them when they are
    directories) and the transcoded name.  Every other entry of the disk
    that is not a directory above these is as it was, whatever the
    transcoder does. *)
Theorem finalize_touches_only_session_names (σ σ' : fs) (now : Z)
    (ff : ffmpeg) (sid : string) (r : option response) (t : list event)
    (k : path) :
  let partial_path := _session_path BASE_DIR sid (".webm" +:+ PART_EXT) in
  let webm_path := _session_path BASE_DIR sid ".webm" in
  let mp4_path := replace_ext webm_path ".mp4" in
  ready σ → segment sid = true →
  finalize BASE_DIR now ff sid σ = (r, σ', t) →
  ¬ partial_path `prefix_of` k → ¬ webm_path `prefix_of` k →
  k ≠ mp4_path → ¬ k `prefix_of` VIDEO_DIR BASE_DIR →
  σ' !! k = σ !! k.
Proof.
  intros partial_path webm_path mp4_path Hr Hs Hfin.
  unfold mp4_path, partial_path, webm_path.
  rewrite (partial_path_stored _ Hs).
  rewrite (session_path_stored sid ".webm" Hs) by done.
  rewrite mp4_path_stored. intros Hkp Hkw Hkm _.
  by apply (finalize_frame _ _ _ _ _ _ _ _ Hr Hs Hkp Hkw Hkm Hfin).
Qed.

Lemma mp4_name_cases (sid : string) :
  mp4_name sid
  = if Str.all_dots sid then (sid +:+ ".webm") +:+ ".mp4"
    else sid +:+ ".mp4".
Proof.
  unfold mp4_name, Str.splitext. rewrite rsplit_dot_webm.
  by destruct (Str.all_dots sid).
Qed.

Lemma mp4_name_ne_jpg (s s' : string) : mp4_name s ≠ s' +:+ ".jpg".
Proof. unfold mp4_name. by apply suffix_clash. Qed.

Lemma mp4_name_inj (s s' : string) :
  Str.all_dots s = false → Str.all_dots s' = false →
  mp4_name s = mp4_name s' → s = s'.
Proof.
  intros Hs Hs'. rewrite !mp4_name_cases, Hs, Hs'.
  apply string_app_inj_r.
Qed.

(** The four names the service derives from a session id. *)
Lemma session_names_apart (s1 s2 n1 n2 : string) :
  s1 ≠ s2 → Str.all_dots s1 = false → Str.all_dots s2 = false →
  n1 ∈ session_names s1 → n2 ∈ session_names s2 → n1 ≠ n2.
Proof.
  intros Hne Hd1 Hd2 H1 H2 E. subst n2. unfold session_names in *.
  repeat match goal with
         | H : _ ∈ _ :: _ |- _ => apply elem_of_cons in H as [H | H]
         | H : _ ∈ [] |- _ => by apply elem_of_nil in H
         end; subst n1;
    first
      [ by apply string_app_inj_r in H2
      | by apply mp4_name_inj in H2
      | by apply suffix_clash in H2
      | by (symmetry in H2; apply suffix_clash in H2)
      | by apply mp4_name_ne_jpg in H2
      | by (symmetry in H2; apply mp4_name_ne_jpg in H2)
      | by (apply (f_equal (stored BASE_DIR)), mp4_ne_webm in H2)
      | by (symmetry in H2;
            apply (f_equal (stored BASE_DIR)), mp4_ne_webm in H2)
      | by (apply (f_equal (stored BASE_DIR)), mp4_ne_partial in H2)
      | by (symmetry in H2;
            apply (f_equal (stored BASE_DIR)), mp4_ne_partial in H2) ].
Qed.

(** X20: the three writing requests of one session leave the entries of
    every other session alone: its partial file, its finalized video, its
    transcoded video and its snapshot are the same before and after
    (for session ids that are not made of dots only, whose transcoded names
    could otherwise coincide). *)
Theorem sessions_are_isolated (σ σ' : fs) (now : Z) (ff : ffmpeg)
    (data : list Byte.byte) (s1 s2 n : string) (rq : request)
    (r : option response) (t : list event) :
  ready σ → segment s1 = true → s1 ≠ s2 →
  Str.all_dots s1 = false → Str.all_dots s2 = false →
  rq ∈ [upload_request s1 now data; finalize_request s1 now ff;
        snapshot_request s1 now data] →
  serve BASE_DIR listdir rq σ = (r, σ', t) →
  n ∈ session_names s2 →
  σ' !! stored BASE_DIR n = σ !! stored BASE_DIR n.
Proof.
  intros Hr Hs Hne Hd1 Hd2 Hrq Hserve Hn.
  assert (∀ n1, n1 ∈ session_names s1 → K n ≠ K n1) as Hapart.
  { intros n1 Hn1 E%stored_inj. subst n1.
    by apply (session_names_apart s1 s2 n n Hne Hd1 Hd2). }
  assert (∀ n1, n1 ∈ session_names s1 → ¬ K n1 `prefix_of` K n) as Hunder.
  { intros n1 Hn1 E%stored_prefix. subst n1.
    by apply (session_names_apart s1 s2 n n Hne Hd1 Hd2). }
  assert (s1 +:+ ".webm.partial" ∈ session_names s1) as Hin1
    by (unfold session_names; repeat constructor).
  assert (s1 +:+ ".webm" ∈ session_names s1) as Hin2
    by (unfold session_names; repeat constructor).
  assert (mp4_name s1 ∈ session_names s1) as Hin3
    by (unfold session_names; repeat constructor).
  assert (s1 +:+ ".jpg" ∈ session_names s1) as Hin4
    by (unfold session_names; repeat constructor).
  apply elem_of_cons in Hrq as [-> | Hrq];
    [| apply elem_of_cons in Hrq as [-> | Hrq];
       [| apply elem_of_cons in Hrq as [-> | Hrq];
          [| by apply elem_of_nil in Hrq]]].
  - rewrite (serve_upload _ _ _ Hs) in Hserve.
    rewrite (upload_chunk_ready _ _ _ _ Hr Hs) in Hserve.
    cbv zeta in Hserve.
    destruct (σ !! K (s1 +:+ ".webm.partial")) as [[old t0|]|];
      injection Hserve as _ <- _; try done;
      by rewrite lookup_insert_ne by (symmetry; by apply Hapart).
  - rewrite (serve_finalize _ _ _ Hs) in Hserve.
    eapply (finalize_frame σ σ' now ff s1); [done | done | | | | done].
    + by apply Hunder.
    + by apply Hunder.
    + by apply Hapart.
  - rewrite (serve_snapshot _ _ _ Hs) in Hserve.
    rewrite (snapshot_ready _ _ _ _ Hr Hs) in Hserve.
    cbv zeta in Hserve.
    destruct (σ !! K (s1 +:+ ".jpg")) as [[old t0|]|];
      injection Hserve as _ <- _; try done;
      by rewrite lookup_insert_ne by (symmetry; by apply Hapart).
Qed.

(** ** From the recorder to the listing *)

(** X21: a finalized recording shows up in the listing: after the first
    finalize of a session whose id does not start with a dot, the lister
    returns an entry for the finalized video with the number of bytes
    uploaded, the URL under /video/ and the second of the last upload (the
    rename keeps the modification time), however the transcoder exits.
    (The child processes of the transcoder exit, the path of the storage
    directory holds no pattern character, and the times of the stored
    entries and of the transcoder's output print with a four-digit
    year.) *)
Theorem finalized_video_is_listed (σ : fs) (now : Z) (tc : transcoder)
    (ff : ffmpeg) (sid : string) (data : list Byte.byte) (t0 : Z) :
  let partial_path := _session_path BASE_DIR sid (".webm" +:+ PART_EXT) in
  let webm_path := _session_path BASE_DIR sid ".webm" in
  lists_directories listdir → plain_directory (VIDEO_DIR BASE_DIR) →
  ready σ → listing_prints BASE_DIR σ →
  exited tc = Some ff → printable (encode_time ff) = true →
  segment sid = true → Str.starts_with "." sid = false →
  FS.read σ partial_path = Some data →
  FS.getmtime σ partial_path = Some t0 →
  FS.exists_ σ webm_path = false →
  ∃ r σ' tr vids,
    finalize BASE_DIR now ff sid σ = (Some r, σ', tr)
    ∧ _list_videos BASE_DIR listdir σ' = (Some vids, σ', [])
    ∧ {| filename := sid +:+ ".webm";
         bytes := Z.of_nat (length data);
         modified := second_of t0;
         url := "/video/" +:+ (sid +:+ ".webm");
         type := "webm" |} ∈ vids.
Proof.
  intros partial_path webm_path Hls _ Hr _ _ _ Hs Hvis Hp Ht Hw.
  unfold partial_path, webm_path in *.
  rewrite (partial_path_stored _ Hs) in *.
  rewrite (session_path_stored sid ".webm" Hs) in * by done.
  pose proof (partial_proper _ Hs) as Hpp.
  pose proof (webm_proper _ Hs) as Hwp.
  unfold FS.getmtime in Ht.
  rewrite (read_stored _ _ Hr Hpp) in Hp.
  rewrite (stat_stored _ _ Hr Hpp) in Ht.
  rewrite (exists_stored _ _ Hr Hwp) in Hw.
  destruct (σ !! K (sid +:+ ".webm.partial")) as [[d t1|]|] eqn:Ep;
    try done. injection Hp as ->. injection Ht as ->.
  destruct (σ !! K (sid +:+ ".webm")) eqn:Ew; [done |].
  destruct (finalize_first σ now ff sid data t0 Hr Hs Ep Ew)
    as (tr & Hfin & _ & Hw2 & _ & Hr2).
  set (σ2 := after_encode ff (K (mp4_name sid))
               (<[K (sid +:+ ".webm") := File data t0]>
                  (delete (K (sid +:+ ".webm.partial")) σ))) in *.
  destruct (video_entries_ready σ2 "mp4" ".mp4" Hls Hr2)
    as (mp4s & Hm & _).
  destruct (video_entries_ready σ2 "webm" ".webm" Hls Hr2)
    as (webms & Hwb & Hwin).
  eexists _, σ2, _, (sort_desc modified (mp4s ++ webms)).
  split; [exact Hfin |]. split.
  - unfold _list_videos, bind, query, ret.
    fold (bind (A := entry) (B := list entry)).
    by rewrite Hm, Hwb.
  - rewrite sort_desc_perm, elem_of_app. right. apply Hwin.
    exists (sid +:+ ".webm"), (File data t0).
    split; [done |]. split; [| split; [done | done]].
    apply glob_match_visible; [| done].
    intros ->. by vm_compute in Hs.
Qed.

(** ** The listing and the files it is made from *)

Lemma Forall2_impl_elem {A B} (R R' : A → B → Prop) (l : list A)
    (k : list B) :
  Forall2 R l k → (∀ x y, x ∈ l → R x y → R' x y) → Forall2 R' l k.
Proof.
  induction 1 as [|x y l k Hxy _ IH]; intros HR; constructor.
  - apply HR; [by left | done].
  - apply IH. intros x' y' Hx'. apply HR. by right.
Qed.

Lemma Forall2_NoDup {A B} (R : A → B → Prop) (l : list A) (k : list B) :
  Forall2 R l k → NoDup l → (∀ x x' y, R x y → R x' y → x = x') →
  NoDup k.
Proof.
  induction 1 as [|x y l k Hxy Hall IH]; intros Hnd Hinj; [constructor |].
  apply NoDup_cons in Hnd as [Hx Hnd]. apply NoDup_cons. split.
  - intros Hy. destruct (Forall2_elem_r _ _ _ _ Hall Hy) as (x' & Hx' & HR).
    by rewrite (Hinj x x' y Hxy HR) in Hx.
  - by apply IH.
Qed.

Lemma NoDup_list_filter {A} (f : A → bool) (l : list A) :
  NoDup l → NoDup (List.filter f l).
Proof.
  induction l as [|x l IH]; intros Hnd; [constructor |].
  apply NoDup_cons in Hnd as [Hx Hnd]. simpl.
  destruct (f x); [| by apply IH].
  apply NoDup_cons. split; [| by apply IH].
  intros Hin. apply Hx.
  by apply list_elem_of_In, filter_In in Hin as [?%list_elem_of_In _].
Qed.

Lemma glob_NoDup (σ : fs) (ext : string) :
  lists_once listdir → NoDup (glob listdir Vd ext σ).
Proof.
  intros Honce. unfold glob.
  destruct (FS.resolve σ Vd) as [q|]; [| constructor].
  destruct (FS.is_dir_at σ q); [| constructor].
  apply NoDup_fmap_2.
  - intros n n' E. by apply app_inv_head in E as [= ->].
  - apply NoDup_list_filter, Honce.
Qed.

Lemma video_entries_tied (σ : fs) (kind ext : string) :
  lists_directories listdir → ready σ →
  ∃ es, for_each (video_entry kind) (glob listdir Vd ext σ) σ
        = (Some es, σ, [])
        ∧ Forall2 (λ f e, ∃ n v, f = K n ∧ proper_name n = true
                                 ∧ glob_match ext n = true
                                 ∧ σ !! K n = Some v
                                 ∧ e = entry_of kind n v)
            (glob listdir Vd ext σ) es.
Proof.
  intros Hls Hr.
  assert (∀ n v, proper_name n = true → σ !! K n = Some v →
                 video_entry kind (K n) σ
                 = (Some (entry_of kind n v), σ, [])) as Hentry.
  { intros n v Hp Hv. unfold video_entry, bind, query_opt, ret.
    by rewrite (stat_stored _ _ Hr Hp), Hv, basename_stored. }
  destruct (for_each_reads (video_entry kind) (glob listdir Vd ext σ) σ)
    as (es & Hes & Hall).
  { intros f (n & -> & Hp & _ & [v Hn])%glob_ready; [| done..].
    rewrite (Hentry _ _ Hp Hn). by eexists. }
  exists es. split; [done |].
  eapply Forall2_impl_elem; [exact Hall |].
  intros f e (n & -> & Hp & Hm & [v Hn])%glob_ready Hfe; [| done..].
  rewrite (Hentry _ _ Hp Hn) in Hfe. injection Hfe as <-.
  by exists n, v.
Qed.

(** The lister on an existing storage directory: what it returns, entry by
    entry. *)
Lemma list_videos_ready (σ : fs) :
  lists_directories listdir → ready σ →
  ∃ mp4s webms,
    _list_videos BASE_DIR listdir σ
    = (Some (sort_desc modified (mp4s ++ webms)), σ, [])
    ∧ Forall2 (lists_as BASE_DIR σ "mp4") (glob listdir Vd ".mp4" σ) mp4s
    ∧ Forall2 (lists_as BASE_DIR σ "webm") (glob listdir Vd ".webm" σ)
        webms
    ∧ (∀ e, e ∈ sort_desc modified (mp4s ++ webms) ↔
            ∃ n v, proper_name n = true ∧ σ !! K n = Some v
                   ∧ ((glob_match ".mp4" n = true
                       ∧ e = entry_of "mp4" n v)
                      ∨ (glob_match ".webm" n = true
                         ∧ e = entry_of "webm" n v)))
    ∧ (lists_once listdir → NoDup (sort_desc modified (mp4s ++ webms))).
Proof.
  intros Hls Hr.
  destruct (video_entries_tied σ "mp4" ".mp4" Hls Hr) as (mp4s & Hm & Hmt).
  destruct (video_entries_tied σ "webm" ".webm" Hls Hr)
    as (webms & Hw & Hwt).
  exists mp4s, webms.
  assert (∀ kind ext es,
            Forall2 (λ f e, ∃ n v, f = K n ∧ proper_name n = true
                                   ∧ glob_match ext n = true
                                   ∧ σ !! K n = Some v
                                   ∧ e = entry_of kind n v)
              (glob listdir Vd ext σ) es →
            ∀ e, e ∈ es ↔
                 ∃ n v, proper_name n = true ∧ glob_match ext n = true
                        ∧ σ !! K n = Some v ∧ e = entry_of kind n v)
    as Hmem.
  { intros kind ext es Hall e. split.
    - intros He.
      destruct (Forall2_elem_r _ _ _ _ Hall He)
        as (f & _ & n & v & _ & Hp & Hmn & Hv & ->).
      by exists n, v.
    - intros (n & v & Hp & Hmn & Hv & ->).
      assert (K n ∈ glob listdir Vd ext σ) as Hf.
      { apply glob_ready; [done.. |]. by exists n. }
      destruct (Forall2_elem_l _ _ _ _ Hall Hf)
        as (e & He & n' & v' & En & _ & _ & Hv' & ->).
      apply stored_inj in En as <-.
      rewrite Hv in Hv'. by injection Hv' as <-. }
  split; [| split; [| split; [| split]]].
  - unfold _list_videos, bind, query, ret.
    fold (bind (A := entry) (B := list entry)).
    by rewrite Hm, Hw.
  - eapply Forall2_impl; [exact Hmt |].
    intros f e (n & v & -> & _ & _ & Hv & ->). by exists n, v.
  - eapply Forall2_impl; [exact Hwt |].
    intros f e (n & v & -> & _ & _ & Hv & ->). by exists n, v.
  - intros e.
    rewrite sort_desc_perm, elem_of_app, (Hmem _ _ _ Hmt), (Hmem _ _ _ Hwt).
    split.
    + intros [(n & v & ? & ? & ? & ?) | (n & v & ? & ? & ? & ?)];
        exists n, v; split; [done | | done |]; (split; [done |]);
        [by left | by right].
    + intros (n & v & ? & ? & [[? ?] | [? ?]]);
        [left | right]; by exists n, v.
  - intros Honce. rewrite sort_desc_perm. apply NoDup_app.
    assert (∀ kind ext es,
              Forall2 (λ f e, ∃ n v, f = K n ∧ proper_name n = true
                                     ∧ glob_match ext n = true
                                     ∧ σ !! K n = Some v
                                     ∧ e = entry_of kind n v)
                (glob listdir Vd ext σ) es → NoDup es) as Hnd.
    { intros kind ext es Hall.
      eapply Forall2_NoDup; [exact Hall | by apply glob_NoDup |].
      intros f f' e (n & v & -> & _ & _ & _ & ->)
        (n' & v' & -> & _ & _ & _ & E).
      apply (f_equal filename) in E. simpl in E. by rewrite E. }
    split; [by eapply Hnd |]. split; [| by eapply Hnd].
    intros e (n & v & _ & _ & _ & ->)%(Hmem _ _ _ Hmt)
      (n' & v' & _ & _ & _ & E)%(Hmem _ _ _ Hwt).
    by apply (f_equal type) in E.
Qed.

Lemma sorted_lookup (vids : list entry) (i j : nat) (a b : entry) :
  StronglySorted newest_first vids → (i < j)%nat →
  vids !! i = Some a → vids !! j = Some b → modified b ≤ modified a.
Proof.
  intros Hs. revert i j.
  induction Hs as [|x l _ IH Hall]; intros i j Hij Hi Hj; [done |].
  destruct j as [|j]; [lia |]. destruct i as [|i].
  - injection Hi as ->. simpl in Hj.
    rewrite Forall_forall in Hall. apply Hall.
    by eapply list_elem_of_lookup_2.
  - simpl in Hi, Hj. apply (IH i j); [lia | done..].
Qed.

(** X13: on an existing storage directory the listing holds every stored
    name that ends in ".mp4" or ".webm" and does not start with a dot
    exactly once and nothing else, each with the size of its file, the
    second of its modification time, its URL and its kind.  Partial files,
    snapshots and hidden names are never listed.  (The path of the
    directory holds no pattern character, the directory enumeration
    returns every name once, and the times print with a four-digit
    year.) *)
Theorem listing_content (σ : fs) :
  lists_directories listdir → lists_once listdir →
  plain_directory (VIDEO_DIR BASE_DIR) → ready σ →
  listing_prints BASE_DIR σ →
  ∃ vids,
    _list_videos BASE_DIR listdir σ = (Some vids, σ, [])
    ∧ NoDup vids
    ∧ (∀ e, e ∈ vids ↔
            ∃ n v, proper_name n = true ∧ σ !! K n = Some v
                   ∧ ((glob_match ".mp4" n = true ∧ e = entry_of "mp4" n v)
                      ∨ (glob_match ".webm" n = true
                         ∧ e = entry_of "webm" n v)))
    ∧ ∀ e, e ∈ vids →
           Str.ends_with ".partial" (filename e) = false
           ∧ Str.ends_with ".jpg" (filename e) = false
           ∧ Str.starts_with "." (filename e) = false.
Proof.
  intros Hls Honce _ Hr _.
  destruct (list_videos_ready σ Hls Hr)
    as (mp4s & webms & Hl & _ & _ & Hin & Hnd).
  exists (sort_desc modified (mp4s ++ webms)).
  split; [done |]. split; [by apply Hnd |]. split; [done |].
  intros e (n & v & _ & _ & Hkind)%Hin.
  assert (∃ ext, (ext = ".mp4" ∨ ext = ".webm")
                 ∧ glob_match ext n = true ∧ filename e = n)
    as (ext & Hext & Hmatch & ->).
  { destruct Hkind as [[? ->] | [? ->]];
      [exists ".mp4" | exists ".webm"]; split; auto. }
  assert (ext ≠ EmptyString) as Hne by (by destruct Hext as [-> | ->]).
  destruct (glob_match_last_char _ _ Hne Hmatch) as [Hlast Hvis].
  split; [| split; [| done]].
  - destruct (Str.ends_with ".partial" n) eqn:E; [| done].
    apply ends_with_last_char in E; [| done]. rewrite Hlast in E.
    by destruct Hext as [-> | ->].
  - destruct (Str.ends_with ".jpg" n) eqn:E; [| done].
    apply ends_with_last_char in E; [| done]. rewrite Hlast in E.
    by destruct Hext as [-> | ->].
Qed.


(** C6 (as the code has it): on an existing storage directory the listing
    that GET /status returns holds every stored ".mp4" and ".webm" entry
    (with a name that does not start with a dot) once, both kinds in one
    list, in descending order of the whole second of the files'
    modification times; the order is not strict, and files modified within
    one second are not ordered by their times.  The lister reads only.
    (The path of the directory holds no pattern character, the directory
    enumeration returns every name once, and the times print with a
    four-digit year.) *)
Theorem status_listing_sorted (σ : fs) (now : Z) :
  lists_directories listdir → lists_once listdir →
  plain_directory (VIDEO_DIR BASE_DIR) → ready σ →
  listing_prints BASE_DIR σ →
  ∃ vids,
    _list_videos BASE_DIR listdir σ = (Some vids, σ, [])
    ∧ status BASE_DIR listdir now σ
      = (Some (jsonify 200 (JObj [("ok", JBool true);
                                  ("videos", JList (entry_json <$> vids));
                                  ("server_time", _now_iso now)])), σ, [])
    ∧ NoDup vids
    ∧ (∀ e, e ∈ vids ↔
            ∃ n v, proper_name n = true ∧ σ !! K n = Some v
                   ∧ ((glob_match ".mp4" n = true ∧ e = entry_of "mp4" n v)
                      ∨ (glob_match ".webm" n = true
                         ∧ e = entry_of "webm" n v)))
    ∧ StronglySorted newest_first vids
    ∧ ∀ i j a b va vb,
        (i < j)%nat → vids !! i = Some a → vids !! j = Some b →
        σ !! K (filename a) = Some va → σ !! K (filename b) = Some vb →
        second_of (st_mtime vb) ≤ second_of (st_mtime va).
Proof.
  intros Hls Honce _ Hr _.
  destruct (list_videos_ready σ Hls Hr)
    as (mp4s & webms & Hl & _ & _ & Hin & Hnd).
  set (vids := sort_desc modified (mp4s ++ webms)) in *.
  assert (StronglySorted newest_first vids) as Hs by apply sort_desc_sorted.
  exists vids. split; [done |]. split.
  { unfold status, bind, ret. by rewrite Hl. }
  split; [by apply Hnd |]. split; [done |]. split; [done |].
  intros i j a b va vb Hij Hi Hj Ha Hb.
  pose proof (sorted_lookup _ _ _ _ _ Hs Hij Hi Hj) as Hle.
  assert (∀ e ve, e ∈ vids → σ !! K (filename e) = Some ve →
                  modified e = second_of (st_mtime ve)) as Hshown.
  { intros e ve (n & v & _ & Hv & Hkind)%Hin He.
    assert (filename e = n ∧ modified e = second_of (st_mtime v))
      as [En ->] by (by destruct Hkind as [[_ ->] | [_ ->]]).
    rewrite En, Hv in He. by injection He as ->. }
  rewrite <- (Hshown a va), <- (Hshown b vb); [done | | done | | done];
    by eapply list_elem_of_lookup_2.
Qed.


(** ** The partial file of a finalized session *)

(** Once the finalized video of a session exists, a request leaves the
    session's partial file in place: it only grows, by the appends of
    uploads. *)
Lemma partial_stays_serve (rq : request) (σ σ1 : fs) (sid : string)
    (d : list Byte.byte) (t0 : Z) (r : option response) (t : list event) :
  ready σ → segment sid = true →
  is_Some (σ !! K (sid +:+ ".webm")) →
  σ !! K (sid +:+ ".webm.partial") = Some (File d t0) →
  serve BASE_DIR listdir rq σ = (r, σ1, t) →
  ∃ more t1, σ1 !! K (sid +:+ ".webm.partial") = Some (File (d ++ more) t1).
Proof.
  intros Hr Hs Hw Hp.
  assert (∀ {A} (m : io A) r σ1 t,
            reads m → m σ = (r, σ1, t) →
            ∃ more t1,
              σ1 !! K (sid +:+ ".webm.partial")
              = Some (File (d ++ more) t1)) as Hreads.
  { intros A m r' σ' t' Hm E. destruct (Hm σ) as [r'' E'].
    rewrite E' in E. injection E as _ <- _.
    exists [], t0. by rewrite app_nil_r. }
  assert (∀ now s data r σ1 t,
            segment s = true →
            upload_chunk BASE_DIR now s data σ = (r, σ1, t) →
            ∃ more t1,
              σ1 !! K (sid +:+ ".webm.partial")
              = Some (File (d ++ more) t1)) as Hupload.
  { intros now s data r' σ' t' Hs'.
    rewrite (upload_chunk_ready _ _ _ _ Hr Hs'). cbv zeta.
    destruct (decide (s = sid)) as [-> | Hne].
    - rewrite Hp. intros [= _ <- _]. rewrite lookup_insert_eq.
      by eexists _, _.
    - assert (K (s +:+ ".webm.partial") ≠ K (sid +:+ ".webm.partial"))
        as Hk by (by intros ?%stored_inj%string_app_inj_r).
      destruct (σ !! K (s +:+ ".webm.partial")) as [[old t1|]|];
        intros [= _ <- _]; rewrite ?lookup_insert_ne by done;
        exists [], t0; by rewrite app_nil_r. }
  assert (∀ now s data r σ1 t,
            segment s = true →
            snapshot BASE_DIR now s data σ = (r, σ1, t) →
            ∃ more t1,
              σ1 !! K (sid +:+ ".webm.partial")
              = Some (File (d ++ more) t1)) as Hsnap.
  { intros now s data r' σ' t' Hs'.
    rewrite (snapshot_ready _ _ _ _ Hr Hs'). cbv zeta.
    assert (K (s +:+ ".jpg") ≠ K (sid +:+ ".webm.partial")) as Hk.
    { intros E%stored_inj. by apply suffix_clash in E. }
    destruct (σ !! K (s +:+ ".jpg")) as [[old t1|]|];
      intros [= _ <- _]; rewrite ?lookup_insert_ne by done;
      exists [], t0; by rewrite app_nil_r. }
  assert (∀ now ff s r σ1 t,
            segment s = true →
            finalize BASE_DIR now ff s σ = (r, σ1, t) →
            ∃ more t1,
              σ1 !! K (sid +:+ ".webm.partial")
              = Some (File (d ++ more) t1)) as Hfin.
  { intros now ff s r' σ' t' Hs' E.
    exists [], t0. rewrite app_nil_r, <- Hp.
    destruct (decide (s = sid)) as [-> | Hne].
    - rewrite finalize_again in E; [by injection E as _ <- _ |].
      rewrite (session_path_stored sid ".webm" Hs) by done.
      rewrite (exists_stored _ _ Hr (webm_proper _ Hs)).
      by destruct Hw as [v ->].
    - eapply (finalize_frame σ σ' now ff s); [done | done | | | | done].
      + by intros ?%stored_prefix%string_app_inj_r.
      + intros E'%stored_prefix. by apply suffix_clash in E'.
      + intros E'. symmetry in E'. by apply mp4_ne_partial in E'. }
  unfold serve, dispatch.
  destruct (String.eqb (req_url rq) "/").
  { apply Hreads, reads_on, reads_ret. }
  destruct (String.eqb (req_url rq) "/snapshot/latest").
  { destruct (req_method rq).
    - apply Hreads, reads_snapshot_latest.
    - by apply Hsnap. }
  destruct (String.eqb (req_url rq) "/status").
  { apply Hreads, reads_on, reads_status. }
  destruct (String.eqb (req_url rq) "/latest").
  { apply Hreads, reads_on, reads_latest. }
  destruct (String.eqb (req_url rq) "/health").
  { apply Hreads, reads_on, reads_ret. }
  destruct (under "/upload/" _ _) as [s|] eqn:E1.
  { apply under_ok in E1. destruct (req_method rq); simpl.
    - apply Hreads, reads_ret.
    - by apply Hupload. }
  destruct (under "/finalize/" _ _) as [s|] eqn:E2.
  { apply under_ok in E2. destruct (req_method rq); simpl.
    - apply Hreads, reads_ret.
    - by apply Hfin. }
  destruct (under "/snapshot/" _ _) as [s|] eqn:E3.
  { apply under_ok in E3. destruct (req_method rq); simpl.
    - apply Hreads, reads_ret.
    - by apply Hsnap. }
  destruct (under "/video/" _ _) as [name|] eqn:E4.
  { apply Hreads, reads_on, reads_serve_video. }
  apply Hreads, reads_ret.
Qed.

Lemma partial_stays_run (rqs : list request) (σ σ' : fs) (sid : string)
    (d : list Byte.byte) (t0 : Z) (rs : list (option response))
    (t : list event) :
  ready σ → segment sid = true →
  is_Some (σ !! K (sid +:+ ".webm")) →
  σ !! K (sid +:+ ".webm.partial") = Some (File d t0) →
  run BASE_DIR listdir rqs σ = (rs, σ', t) →
  ∃ more t1, σ' !! K (sid +:+ ".webm.partial") = Some (File (d ++ more) t1).
Proof.
  intros Hr Hs. revert σ d t0 rs t Hr.
  induction rqs as [|rq rqs IH]; intros σ d t0 rs t Hr Hw Hp; cbn [run].
  - intros [= _ <- _]. exists [], t0. by rewrite app_nil_r.
  - destruct (serve BASE_DIR listdir rq σ) as [[r σ1] t1] eqn:E1.
    destruct (run BASE_DIR listdir rqs σ1) as [[rs' σ2] t2] eqn:E2.
    intros [= _ <- _].
    destruct (frame_serve _ _ _ _ _ Hr E1) as (Hr1 & Hkeep & _).
    destruct (partial_stays_serve _ _ _ _ _ _ _ _ Hr Hs Hw Hp E1)
      as (more1 & t1' & Hp1).
    assert (is_Some (σ1 !! K (sid +:+ ".webm"))) as Hw1.
    { destruct Hw as [v Hv]. exists v. by apply Hkeep. }
    destruct (IH _ _ _ _ _ Hr1 Hw1 Hp1 E2) as (more2 & t2' & Hp2).
    exists (more1 ++ more2), t2'. by rewrite app_assoc.
Qed.

(** C9 (as the code has it): over any sequence of requests, a finalized
    video keeps its bytes and no request opens it for append; the partial
    file of a session is renamed into its finalized file at most once, and
    not at all once the finalized file exists: from then on a partial file
    of the session stays in place, growing only by the appends of later
    uploads, and no finalize consumes it.  A rename leaves the finalized
    file in place.  The finalize that finds a partial file and no
    finalized one renames it exactly once: the partial name is free
    afterwards and the finalized file holds its bytes. *)
Theorem finalized_file_is_stable (σ : fs) (rqs : list request)
    (sid : string) (now : Z) (ff : ffmpeg) :
  let partial_path := _session_path BASE_DIR sid (".webm" +:+ PART_EXT) in
  let webm_path := _session_path BASE_DIR sid ".webm" in
  ready σ → segment sid = true →
  match run BASE_DIR listdir rqs σ with
  | (_, σ', t) =>
      (∀ data, FS.read σ webm_path = Some data →
               FS.read σ' webm_path = Some data)
      ∧ appended_to (K (sid +:+ ".webm")) t = false
      ∧ (renames_from (K (sid +:+ ".webm.partial")) t ≤ 1)%nat
      ∧ (FS.exists_ σ webm_path = true →
         renames_from (K (sid +:+ ".webm.partial")) t = 0%nat
         ∧ ∀ data, FS.read σ partial_path = Some data →
                   ∃ more, FS.read σ' partial_path = Some (data ++ more))
      ∧ (renames_from (K (sid +:+ ".webm.partial")) t = 1%nat →
         FS.exists_ σ' webm_path = true)
  end
  ∧ ∀ data,
      FS.read σ partial_path = Some data →
      FS.exists_ σ webm_path = false →
      match finalize BASE_DIR now ff sid σ with
      | (_, σ1, t1) =>
          renames_from (K (sid +:+ ".webm.partial")) t1 = 1%nat
          ∧ FS.exists_ σ1 partial_path = false
          ∧ FS.read σ1 webm_path = Some data
      end.
Proof.
  intros partial_path webm_path Hr Hs. unfold partial_path, webm_path.
  pose proof (webm_proper _ Hs) as Hwp.
  pose proof (partial_proper _ Hs) as Hpp.
  rewrite (partial_path_stored _ Hs).
  rewrite (session_path_stored sid ".webm" Hs) by done.
  split.
  - destruct (run BASE_DIR listdir rqs σ) as [[rs σ'] t] eqn:E.
    destruct (run_frame _ _ _ _ _ _ Hr Hs E)
      as (Hr' & Hkeep & Happ & Hle & Hzero & Hpos).
    rewrite !(read_stored _ _ Hr Hwp), !(read_stored _ _ Hr' Hwp).
    rewrite !(exists_stored _ _ Hr Hwp), !(exists_stored _ _ Hr' Hwp).
    rewrite (read_stored _ _ Hr Hpp), (read_stored _ _ Hr' Hpp).
    split; [| split; [done | split; [done | split]]].
    + intros data Hd.
      destruct (σ !! K (sid +:+ ".webm")) as [v|] eqn:Ev; [| done].
      by rewrite (Hkeep v eq_refl).
    + intros Hex.
      assert (is_Some (σ !! K (sid +:+ ".webm"))) as Hw
        by (by destruct (σ !! K (sid +:+ ".webm"))).
      split; [by apply Hzero |].
      intros data Hd.
      destruct (σ !! K (sid +:+ ".webm.partial")) as [[d t0|]|] eqn:Ep;
        try done. injection Hd as ->.
      destruct (partial_stays_run _ _ _ _ _ _ _ _ Hr Hs Hw Ep E)
        as (more & t1 & ->).
      by exists more.
    + intros Hone. destruct Hpos as [v ->]; [lia | done].
  - intros data Hp Hw.
    rewrite (read_stored _ _ Hr Hpp) in Hp.
    rewrite (exists_stored _ _ Hr Hwp) in Hw.
    destruct (σ !! K (sid +:+ ".webm.partial")) as [[d t0|]|] eqn:Ep;
      try done. injection Hp as ->.
    destruct (σ !! K (sid +:+ ".webm")) eqn:Ew; [done |].
    destruct (finalize_first σ now ff sid data t0 Hr Hs Ep Ew)
      as (tr & -> & Htr & Hw2 & Hp2 & Hr2).
    rewrite (exists_stored _ _ Hr2 Hpp), (read_stored _ _ Hr2 Hwp).
    rewrite Hw2, Hp2. split; [| done].
    change (Renamed ?a ?b :: tr) with ([Renamed a b] ++ tr).
    rewrite renames_from_app.
    assert (renames_from (K (sid +:+ ".webm.partial")) tr = 0%nat) as ->.
    { pose proof (renames_from_pos (K (sid +:+ ".webm.partial")) tr) as Hq.
      destruct (renames_from _ tr); [done |].
      destruct Hq as [dst Hin]; [lia |]. by apply Htr in Hin. }
    unfold renames_from. simpl. by rewrite bool_decide_eq_true_2.
Qed.

End Proofs.

(** ** The enumeration of the finite map is a directory enumeration *)

Lemma entries_lists_directories : lists_directories FS.entries.
Proof.
  intros σ q n. unfold FS.entries. rewrite list_elem_of_omap. split.
  - intros (k & Hk & Hf). destruct (last k) as [n'|] eqn:El; [| done].
    destruct (bool_decide_reflect (k = q ++ [n'])) as [-> | _]; [| done].
    destruct (proper_name n') eqn:Ep; [| done]. injection Hf as ->.
    split; [done |].
    apply list_elem_of_fmap in Hk as ([k v] & -> & Hin).
    apply elem_of_map_to_list in Hin. by eexists.
  - intros [Hp [v Hv]]. exists (q ++ [n]). split.
    + apply list_elem_of_fmap. exists (q ++ [n], v). split; [done |].
      by apply elem_of_map_to_list.
    + by rewrite last_snoc, bool_decide_eq_true_2, Hp.
Qed.

Lemma NoDup_omap_inj {A B} (f : A → option B) (l : list A) :
  NoDup l → (∀ x x' y, f x = Some y → f x' = Some y → x = x') →
  NoDup (omap f l).
Proof.
  intros Hnd Hinj. induction l as [|x l IH]; [constructor |].
  apply NoDup_cons in Hnd as [Hx Hnd]. simpl.
  destruct (f x) as [y|] eqn:E; [| by apply IH].
  apply NoDup_cons. split; [| by apply IH].
  intros (x' & Hx' & E')%list_elem_of_omap.
  by rewrite (Hinj x x' y E E') in Hx.
Qed.

Lemma entries_lists_once : lists_once FS.entries.
Proof.
  intros σ q. unfold FS.entries. apply NoDup_omap_inj.
  - apply NoDup_fst_map_to_list.
  - intros k k' n Hk Hk'.
    destruct (last k) as [m|]; [| done].
    destruct (bool_decide_reflect (k = q ++ [m])) as [-> | _]; [| done].
    destruct (proper_name m); [| done]. injection Hk as ->.
    destruct (last k') as [m'|]; [| done].
    destruct (bool_decide_reflect (k' = q ++ [m'])) as [-> | _]; [| done].
    destruct (proper_name m'); [| done]. by injection Hk' as ->.
Qed.

(** ** The example deployment *)

Lemma demo_ready : storage_ready Demo.base Demo.disk0.
Proof.
  split; [by repeat constructor |].
  intros [|[|[|[|i]]]]; reflexivity.
Qed.

Lemma demo_ready_insert (n : string) (v : node) (σ : fs) :
  storage_ready Demo.base σ →
  storage_ready Demo.base (<[Demo.videos ++ [n] := v]> σ).
Proof. apply ready_insert. Qed.

Lemma demo_storage_empty (n : string) :
  Demo.disk0 !! stored Demo.base n = None.
Proof. unfold Demo.disk0. by rewrite !lookup_insert_ne, lookup_empty. Qed.

Lemma demo_plain : plain_directory (VIDEO_DIR Demo.base).
Proof. by repeat constructor. Qed.

Lemma demo_prints : listing_prints Demo.base Demo.disk0.
Proof. intros n v Hv. by rewrite demo_storage_empty in Hv. Qed.

Lemma demo_prints_insert (n : string) (v : node) (σ : fs) :
  listing_prints Demo.base σ → printable (st_mtime v) = true →
  listing_prints Demo.base (<[Demo.videos ++ [n] := v]> σ).
Proof.
  intros Hσ Hv n' v' Hn'.
  destruct (decide (n' = n)) as [-> | Hne].
  - change (Demo.videos ++ [n]) with (stored Demo.base n) in Hn'.
    rewrite lookup_insert_eq in Hn'. by injection Hn' as <-.
  - rewrite lookup_insert_ne in Hn'; [by apply (Hσ n') |].
    intros E. apply Hne. symmetry.
    by apply (app_inv_head Demo.videos) in E as [= ->].
Qed.

(** ** Witnesses, examples and counterexamples *)

Lemma upload_chunks_then_finalize_witness :
  ∃ rs r σ' tr,
    run Demo.base FS.entries
      (upload_requests "abc" [(1000000, Demo.A); (2000000, Demo.B)]
       ++ [finalize_request "abc" 3000000 (Demo.working 4000000)])
      Demo.disk0
    = (rs ++ [Some r], σ', tr)
    ∧ length rs = 2%nat
    ∧ status_code r = 200
    ∧ response_field "webm" r = Some (JStr "abc.webm")
    ∧ FS.read σ' (_session_path Demo.base "abc" ".webm")
      = Some (Demo.A ++ Demo.B)
    ∧ FS.getsize σ' (_session_path Demo.base "abc" ".webm") = Some 5.
Proof.
  apply (upload_chunks_then_finalize Demo.base FS.entries Demo.disk0 "abc"
           [(1000000, Demo.A); (2000000, Demo.B)] 3000000
           (Demo.running 4000000) (Demo.working 4000000));
    [apply demo_ready | reflexivity | reflexivity | discriminate
    | reflexivity | reflexivity | reflexivity].
Defined.

Lemma finalize_twice_idempotent_witness :
  ∃ r,
    finalize Demo.base 5000000 (Demo.working 6000000) "abc" Demo.disk_final
    = (Some r, Demo.disk_final, [])
    ∧ status_code r = 200
    ∧ response_field "ok" r = Some (JBool true)
    ∧ response_field "webm" r = Some (JStr "abc.webm")
    ∧ response_field "mp4" r = None.
Proof.
  apply (finalize_twice_idempotent Demo.base Demo.disk_final 5000000
           (Demo.working 6000000) "abc").
  reflexivity.
Defined.

Lemma finalize_without_upload_witness :
  ∃ r,
    finalize Demo.base 5000000 Demo.missing "abc" Demo.disk0
    = (Some r, Demo.disk0, [])
    ∧ status_code r = 404
    ∧ response_field "ok" r = Some (JBool false)
    ∧ response_field "error" r = Some (JStr "no recording").
Proof.
  apply (finalize_without_upload Demo.base Demo.disk0 5000000 Demo.missing
           "abc"); reflexivity.
Defined.

Lemma finalize_swallows_transcoder_failure_witness :
  ∃ r σ' tr,
    finalize Demo.base 5000000 Demo.failing "abc" Demo.disk_partial
    = (Some r, σ', tr)
    ∧ status_code r = 200
    ∧ response_field "ok" r = Some (JBool true)
    ∧ response_field "webm" r = Some (JStr "abc.webm")
    ∧ response_field "mp4" r = Some JNull
    ∧ FS.read σ' (_session_path Demo.base "abc" ".webm") = Some Demo.A.
Proof.
  apply (finalize_swallows_transcoder_failure Demo.base Demo.disk_partial
           5000000 Demo.failing "abc" Demo.A);
    [apply demo_ready_insert, demo_ready | reflexivity | reflexivity
    | reflexivity | by right].
Defined.

(** The claim C4 reads "the transcoded-video field is omitted": after a
    failed encode the answer does carry the key "mp4", with the value
    null. *)
Lemma failed_transcode_keeps_mp4_key :
  match finalize Demo.base 5000000 Demo.failing "abc" Demo.disk_partial with
  | (Some r, _, _) =>
      status_code r = 200
      ∧ response_field "mp4" r = Some JNull
      ∧ response_field "mp4" r ≠ None
  | (None, _, _) => False
  end.
Proof. vm_compute. split; [reflexivity |]. split; [reflexivity | discriminate]. Qed.

Lemma upload_chunk_appends_witness :
  ∃ σ' tr,
    upload_chunk Demo.base 2000000 "abc" Demo.B Demo.disk_partial
    = (Some (received (3 + 2)), σ', tr)
    ∧ FS.read σ' (_session_path Demo.base "abc" (".webm" +:+ PART_EXT))
      = Some (Demo.A ++ Demo.B)
    ∧ FS.getsize σ' (_session_path Demo.base "abc" (".webm" +:+ PART_EXT))
      = Some (3 + 2)
    ∧ (∀ k, ¬ k `prefix_of`
                _session_path Demo.base "abc" (".webm" +:+ PART_EXT) →
            σ' !! k = Demo.disk_partial !! k).
Proof.
  apply (upload_chunk_appends Demo.base Demo.disk_partial 2000000 "abc"
           Demo.B Demo.A);
    [apply demo_ready_insert, demo_ready | reflexivity | reflexivity
    | by left].
Defined.

(** The chunk sink of [app.py] differs: it appends to the final name and
    answers with the size of the chunk, not with the total. *)
Example app_py_upload_reports_chunk_size :
  match AppPy.upload_chunk Demo.videos 2000000 "abc" Demo.B Demo.disk_final
  with
  | (r, σ', t) =>
      r = Some (jsonify 200 (JObj [("ok", JBool true); ("size", JNum 2)]))
      ∧ FS.read σ' (Demo.videos ++ ["abc.webm"]) = Some (Demo.A ++ Demo.B)
      ∧ t = [Opened Append (Demo.videos ++ ["abc.webm"]) false]
  end.
Proof. vm_compute. by repeat split. Qed.

Lemma status_listing_sorted_witness :
  ∃ vids,
    _list_videos Demo.base FS.entries Demo.disk_mixed
    = (Some vids, Demo.disk_mixed, [])
    ∧ status Demo.base FS.entries 200000000 Demo.disk_mixed
      = (Some (jsonify 200 (JObj [("ok", JBool true);
                                  ("videos", JList (entry_json <$> vids));
                                  ("server_time", _now_iso 200000000)])),
         Demo.disk_mixed, [])
    ∧ NoDup vids
    ∧ (∀ e, e ∈ vids ↔
            ∃ n v, proper_name n = true
                   ∧ Demo.disk_mixed !! stored Demo.base n = Some v
                   ∧ ((glob_match ".mp4" n = true ∧ e = entry_of "mp4" n v)
                      ∨ (glob_match ".webm" n = true
                         ∧ e = entry_of "webm" n v)))
    ∧ StronglySorted newest_first vids
    ∧ ∀ i j a b va vb,
        (i < j)%nat → vids !! i = Some a → vids !! j = Some b →
        Demo.disk_mixed !! stored Demo.base (filename a) = Some va →
        Demo.disk_mixed !! stored Demo.base (filename b) = Some vb →
        second_of (st_mtime vb) ≤ second_of (st_mtime va).
Proof.
  apply (status_listing_sorted Demo.base FS.entries Demo.disk_mixed 200000000);
    [apply entries_lists_directories | apply entries_lists_once
    | apply demo_plain
    | apply demo_ready_insert, demo_ready_insert, demo_ready
    | apply demo_prints_insert;
        [apply demo_prints_insert; [apply demo_prints | reflexivity]
        | reflexivity]].
Defined.

(** The claim C6 has the listing sorted strictly by descending modification
    time.  The sort key is the printed time, which has whole seconds:
    "a.mp4", modified at 7.1 s, is listed before "b.webm", modified at
    7.9 s. *)
Lemma listing_within_one_second :
  let σ := <[Demo.videos ++ ["b.webm"] := File Demo.A 7900000]>
             (<[Demo.videos ++ ["a.mp4"] := File Demo.B 7100000]> Demo.disk0) in
  match _list_videos Demo.base FS.entries σ with
  | (Some vids, _, _) =>
      filename <$> vids = ["a.mp4"; "b.webm"]
      ∧ modified <$> vids = [7; 7]
      ∧ FS.getmtime σ (stored Demo.base "a.mp4") = Some 7100000
      ∧ FS.getmtime σ (stored Demo.base "b.webm") = Some 7900000
  | (None, _, _) => False
  end.
Proof. vm_compute. by repeat split. Qed.





Lemma finalized_file_is_stable_witness :
  match run Demo.base FS.entries
          [upload_request "abc" 2000000 Demo.B;
           finalize_request "abc" 3000000 Demo.missing;
           snapshot_request "abc" 4000000 Demo.B;
           get_request "/status" 5000000] Demo.disk_final with
  | (_, σ', t) =>
      (∀ data,
         FS.read Demo.disk_final (_session_path Demo.base "abc" ".webm")
         = Some data →
         FS.read σ' (_session_path Demo.base "abc" ".webm") = Some data)
      ∧ appended_to (stored Demo.base ("abc" +:+ ".webm")) t = false
      ∧ (renames_from (stored Demo.base ("abc" +:+ ".webm.partial")) t ≤ 1)%nat
      ∧ (FS.exists_ Demo.disk_final (_session_path Demo.base "abc" ".webm")
         = true →
         renames_from (stored Demo.base ("abc" +:+ ".webm.partial")) t = 0%nat
         ∧ ∀ data,
             FS.read Demo.disk_final
               (_session_path Demo.base "abc" (".webm" +:+ PART_EXT))
             = Some data →
             ∃ more,
               FS.read σ'
                 (_session_path Demo.base "abc" (".webm" +:+ PART_EXT))
               = Some (data ++ more))
      ∧ (renames_from (stored Demo.base ("abc" +:+ ".webm.partial")) t = 1%nat →
         FS.exists_ σ' (_session_path Demo.base "abc" ".webm") = true)
  end
  ∧ ∀ data,
      FS.read Demo.disk_final
        (_session_path Demo.base "abc" (".webm" +:+ PART_EXT)) = Some data →
      FS.exists_ Demo.disk_final (_session_path Demo.base "abc" ".webm")
      = false →
      match finalize Demo.base 6000000 Demo.missing "abc" Demo.disk_final with
      | (_, σ1, t1) =>
          renames_from (stored Demo.base ("abc" +:+ ".webm.partial")) t1
          = 1%nat
          ∧ FS.exists_ σ1
              (_session_path Demo.base "abc" (".webm" +:+ PART_EXT)) = false
          ∧ FS.read σ1 (_session_path Demo.base "abc" ".webm") = Some data
      end.
Proof.
  apply (finalized_file_is_stable Demo.base FS.entries Demo.disk_final
           [upload_request "abc" 2000000 Demo.B;
            finalize_request "abc" 3000000 Demo.missing;
            snapshot_request "abc" 4000000 Demo.B;
            get_request "/status" 5000000] "abc" 6000000 Demo.missing);
    [apply demo_ready_insert, demo_ready | reflexivity].
Defined.

(** The claim C9 has each partial file renamed exactly once.  A session that
    uploads again after its finalize gets a second partial file; the next
    finalize answers 200 for the finalized video and leaves that partial file
    where it is: two partial files were created and one was renamed. *)
Lemma partial_after_finalize_is_not_consumed :
  match run Demo.base FS.entries
          [upload_request "abc" 1000000 Demo.A;
           finalize_request "abc" 2000000 Demo.missing;
           upload_request "abc" 3000000 Demo.B;
           finalize_request "abc" 4000000 Demo.missing] Demo.disk0 with
  | (rs, σ', t) =>
      creations_at (stored Demo.base "abc.webm.partial") t = 2%nat
      ∧ renames_from (stored Demo.base "abc.webm.partial") t = 1%nat
      ∧ last rs = Some (Some (jsonify 200 (JObj [("ok", JBool true);
                                                 ("webm", JStr "abc.webm")])))
      ∧ FS.read σ' (stored Demo.base "abc.webm.partial") = Some Demo.B
      ∧ FS.read σ' (stored Demo.base "abc.webm") = Some Demo.A
  end.
Proof. vm_compute. repeat split. Qed.

(** C10: GET /video/{filename} answers 404 when nothing exists at the joined
    path and streams a regular file found there ([serve_video_cases]), also
    one outside the storage directory.  But [os.path.exists] is true for a
    directory as well: for the filename ".." the joined path is the program
    directory, no file is there to stream, and the handler does not answer
    404 but raises in [send_file]. *)
Theorem serve_video_directory_raises :
  let fp := os_path_join (VIDEO_DIR Demo.base) ".." in
  FS.resolve Demo.disk0 fp = Some Demo.base
  ∧ FS.exists_ Demo.disk0 fp = true
  ∧ FS.read Demo.disk0 fp = None
  ∧ serve_video Demo.base ".." Demo.disk0 = (None, Demo.disk0, []).
Proof.
  cbv zeta. split; [vm_compute; reflexivity |].
  split; [vm_compute; reflexivity |]. split; [vm_compute; reflexivity |].
  rewrite serve_video_cases.
  assert (FS.stat Demo.disk0 (os_path_join (VIDEO_DIR Demo.base) "..")
          = Some (Dir 4096 0)) as -> by (vm_compute; reflexivity).
  reflexivity.
Qed.

(** A filename with a parent-directory component reaches a file next to the
    storage directory. *)
Example serve_video_leaves_storage :
  FS.resolve Demo.disk_secret
    (os_path_join (VIDEO_DIR Demo.base) "../secret.txt")
  = Some ["srv"; "app"; "secret.txt"]
  ∧ serve_video Demo.base "../secret.txt" Demo.disk_secret
    = (Some {| status_code := 200; payload := Stream Demo.B None;
               headers := [("Access-Control-Allow-Origin", "*");
                           ("Cache-Control", "no-store")] |},
       Demo.disk_secret, []).
Proof.
  split; [vm_compute; reflexivity |].
  rewrite serve_video_cases.
  assert (FS.stat Demo.disk_secret
            (os_path_join (VIDEO_DIR Demo.base) "../secret.txt")
          = Some (File Demo.B 0)) as -> by (vm_compute; reflexivity).
  reflexivity.
Qed.

(** The same through the rule table. *)
Example get_video_parent_directory :
  serve Demo.base FS.entries (get_request ("/video/" +:+ "..") 1000000)
    Demo.disk0
  = (None, Demo.disk0, []).
Proof.
  rewrite (serve_get_video Demo.base FS.entries ".." 1000000 eq_refl).
  rewrite serve_video_cases.
  assert (FS.stat Demo.disk0 (os_path_join (VIDEO_DIR Demo.base) "..")
          = Some (Dir 4096 0)) as -> by (vm_compute; reflexivity).
  reflexivity.
Qed.

(** ** Witnesses of the further properties *)


Lemma snapshot_needs_storage_directory_witness :
  snapshot Demo.base 5000000 "abc" Demo.B Demo.disk_bare
  = (None, Demo.disk_bare, []).
Proof.
  apply (snapshot_needs_storage_directory Demo.base Demo.disk_bare 5000000
           "abc" Demo.B); reflexivity.
Defined.

Lemma upload_chunk_recreates_storage_witness :
  ∃ σ',
    upload_chunk Demo.base 1000000 "abc" Demo.A Demo.disk_bare
    = (Some (received (Z.of_nat (length Demo.A))), σ',
       [Opened Append (stored Demo.base ("abc" +:+ ".webm.partial")) true])
    ∧ storage_ready Demo.base σ'
    ∧ FS.isdir σ' (VIDEO_DIR Demo.base) = true
    ∧ FS.read σ' (_session_path Demo.base "abc" (".webm" +:+ PART_EXT))
      = Some Demo.A
    ∧ (∀ k, ¬ k `prefix_of`
                _session_path Demo.base "abc" (".webm" +:+ PART_EXT) →
            σ' !! k = Demo.disk_bare !! k).
Proof.
  apply (upload_chunk_recreates_storage Demo.base Demo.disk_bare 1000000
           "abc" Demo.A).
  - by repeat constructor.
  - intros [|[|[|i]]] Hi; [simpl in Hi; lia | reflexivity | reflexivity
                          | simpl in Hi; lia].
  - reflexivity.
  - reflexivity.
  - reflexivity.
  - reflexivity.
Defined.

Lemma finalize_with_transcoder_witness :
  ∃ σ' tr,
    finalize Demo.base 3000000 (Demo.working 4000000) "abc" Demo.disk_partial
    = (Some (jsonify 200 (JObj [("ok", JBool true);
                                ("webm", JStr ("abc" +:+ ".webm"));
                                ("mp4", JStr (mp4_name "abc"));
                                ("at", _now_iso 3000000)])), σ', tr)
    ∧ FS.read σ' (_session_path Demo.base "abc" ".webm") = Some Demo.A
    ∧ FS.read σ' (replace_ext (_session_path Demo.base "abc" ".webm") ".mp4")
      = Some Demo.B
    ∧ FS.getmtime σ'
        (replace_ext (_session_path Demo.base "abc" ".webm") ".mp4")
      = Some (encode_time (Demo.working 4000000))
    ∧ FS.exists_ σ'
        (_session_path Demo.base "abc" (".webm" +:+ PART_EXT)) = false.
Proof.
  apply (finalize_with_transcoder Demo.base Demo.disk_partial 3000000
           (Demo.working 4000000) "abc" Demo.A Demo.B);
    [apply demo_ready_insert, demo_ready | reflexivity..].
Defined.

Lemma finalize_always_answers_witness :
  ∃ r σ' tr,
    finalize Demo.base 5000000 Demo.failing "abc" Demo.disk_partial
    = (Some r, σ', tr)
    ∧ (status_code r = 404
       ↔ FS.exists_ Demo.disk_partial
           (_session_path Demo.base "abc" (".webm" +:+ PART_EXT)) = false
         ∧ FS.exists_ Demo.disk_partial
             (_session_path Demo.base "abc" ".webm") = false)
    ∧ (status_code r ≠ 404 →
       status_code r = 200
       ∧ response_field "ok" r = Some (JBool true)
       ∧ response_field "webm" r = Some (JStr ("abc" +:+ ".webm"))
       ∧ FS.exists_ σ' (_session_path Demo.base "abc" ".webm") = true).
Proof.
  apply (finalize_always_answers Demo.base Demo.disk_partial 5000000
           Demo.failed Demo.failing "abc");
    [apply demo_ready_insert, demo_ready | reflexivity | reflexivity].
Defined.

Lemma only_posts_to_three_routes_write_witness :
  POST = POST
  ∧ ∃ sid, segment sid = true
           ∧ ("/upload/abc" = "/upload/" +:+ sid
              ∨ "/upload/abc" = "/finalize/" +:+ sid
              ∨ "/upload/abc" = "/snapshot/" +:+ sid).
Proof.
  apply (only_posts_to_three_routes_write Demo.base FS.entries 1000000
           Demo.missing POST "/upload/abc" Demo.A Demo.disk0
           (<[stored Demo.base ("abc" +:+ ".webm.partial")
                := File Demo.A 1000000]> Demo.disk0)
           (Some (received 3))
           [Opened Append (stored Demo.base ("abc" +:+ ".webm.partial"))
              true]).
  - change (dispatch Demo.base FS.entries 1000000 Demo.missing POST
              "/upload/abc" Demo.A)
      with (upload_chunk Demo.base 1000000 "abc" Demo.A).
    rewrite (upload_chunk_ready Demo.base Demo.disk0 1000000 "abc" Demo.A
               demo_ready eq_refl).
    cbv zeta. by rewrite demo_storage_empty.
  - right. discriminate.
Defined.

Lemma startup_keeps_recordings_witness :
  let σ' := <[VIDEO_DIR Demo.base := Dir 0 7000000]> Demo.disk_bare in
  storage_ready Demo.base σ'
  ∧ FS.isdir σ' (VIDEO_DIR Demo.base) = true
  ∧ (∀ n, σ' !! stored Demo.base n = Demo.disk_bare !! stored Demo.base n)
  ∧ startup Demo.base 8000000 σ' = (Some tt, σ', []).
Proof.
  apply (startup_keeps_recordings Demo.base 7000000 8000000 Demo.disk_bare
           (<[VIDEO_DIR Demo.base := Dir 0 7000000]> Demo.disk_bare) []);
    [by repeat constructor | reflexivity].
Defined.



Lemma app_py_upload_chunk_appends_witness :
  ∃ σ' tr,
    AppPy.upload_chunk (VIDEO_DIR Demo.base) 2000000 "abc" Demo.B
      Demo.disk_final
    = (Some (jsonify 200 (JObj [("ok", JBool true);
                                ("size", JNum (Z.of_nat (length Demo.B)))])),
       σ', tr)
    ∧ FS.read σ' (AppPy._session_path (VIDEO_DIR Demo.base) "abc" ".webm")
      = Some (Demo.A ++ Demo.B)
    ∧ (∀ k, ¬ k `prefix_of`
                AppPy._session_path (VIDEO_DIR Demo.base) "abc" ".webm" →
            σ' !! k = Demo.disk_final !! k).
Proof.
  apply (app_py_upload_chunk_appends Demo.base Demo.disk_final 2000000 "abc"
           Demo.B Demo.A);
    [apply demo_ready_insert, demo_ready | reflexivity | reflexivity
    | by left].
Defined.

Lemma listing_content_witness :
  ∃ vids,
    _list_videos Demo.base FS.entries Demo.disk_mixed
    = (Some vids, Demo.disk_mixed, [])
    ∧ NoDup vids
    ∧ (∀ e, e ∈ vids ↔
            ∃ n v, proper_name n = true
                   ∧ Demo.disk_mixed !! stored Demo.base n = Some v
                   ∧ ((glob_match ".mp4" n = true ∧ e = entry_of "mp4" n v)
                      ∨ (glob_match ".webm" n = true
                         ∧ e = entry_of "webm" n v)))
    ∧ ∀ e, e ∈ vids →
           Str.ends_with ".partial" (filename e) = false
           ∧ Str.ends_with ".jpg" (filename e) = false
           ∧ Str.starts_with "." (filename e) = false.
Proof.
  apply (listing_content Demo.base FS.entries Demo.disk_mixed);
    [apply entries_lists_directories | apply entries_lists_once
    | apply demo_plain
    | apply demo_ready_insert, demo_ready_insert, demo_ready
    | apply demo_prints_insert;
        [apply demo_prints_insert; [apply demo_prints | reflexivity]
        | reflexivity]].
Defined.


Lemma upload_answers_report_running_totals_witness :
  ∃ σ' tr,
    run Demo.base FS.entries
      (upload_requests "abc" [(2000000, Demo.B); (3000000, Demo.A)])
      Demo.disk_partial
    = ((λ z, Some (received z))
         <$> running_totals (Z.of_nat (length Demo.A))
               [(2000000, Demo.B); (3000000, Demo.A)].*2,
       σ', tr).
Proof.
  apply (upload_answers_report_running_totals Demo.base FS.entries
           Demo.disk_partial "abc" [(2000000, Demo.B); (3000000, Demo.A)]
           Demo.A);
    [apply demo_ready_insert, demo_ready | reflexivity | reflexivity
    | by left].
Defined.

Lemma failed_encode_leaves_output_witness :
  ∃ σ' tr,
    finalize Demo.base 3000000 (Demo.crashing 4000000) "abc"
      Demo.disk_partial
    = (Some (jsonify 200 (JObj [("ok", JBool true);
                                ("webm", JStr ("abc" +:+ ".webm"));
                                ("mp4", JNull);
                                ("at", _now_iso 3000000)])), σ', tr)
    ∧ FS.read σ' (_session_path Demo.base "abc" ".webm") = Some Demo.A
    ∧ FS.read σ' (replace_ext (_session_path Demo.base "abc" ".webm") ".mp4")
      = Some Demo.B
    ∧ FS.getmtime σ'
        (replace_ext (_session_path Demo.base "abc" ".webm") ".mp4")
      = Some (encode_time (Demo.crashing 4000000)).
Proof.
  apply (failed_encode_leaves_output Demo.base Demo.disk_partial 3000000
           (Demo.crashing 4000000) "abc" Demo.A Demo.B);
    [apply demo_ready_insert, demo_ready | reflexivity..].
Defined.

Lemma finalize_without_transcoder_only_renames_witness :
  ∃ r σ' tr,
    finalize Demo.base 3000000 Demo.missing "abc" Demo.disk_partial
    = (Some r, σ', tr)
    ∧ FS.read σ' (_session_path Demo.base "abc" ".webm") = Some Demo.A
    ∧ FS.exists_ σ' (_session_path Demo.base "abc" (".webm" +:+ PART_EXT))
      = false
    ∧ FS.getmtime σ' (_session_path Demo.base "abc" ".webm")
      = FS.getmtime Demo.disk_partial
          (_session_path Demo.base "abc" (".webm" +:+ PART_EXT))
    ∧ ∀ k, ¬ k `prefix_of`
               _session_path Demo.base "abc" (".webm" +:+ PART_EXT) →
           ¬ k `prefix_of` _session_path Demo.base "abc" ".webm" →
           σ' !! k = Demo.disk_partial !! k.
Proof.
  apply (finalize_without_transcoder_only_renames Demo.base
           Demo.disk_partial 3000000 Demo.missing "abc" Demo.A);
    [apply demo_ready_insert, demo_ready | reflexivity..].
Defined.

Lemma requests_stay_inside_storage_witness :
  (<[stored Demo.base ("abc" +:+ ".webm.partial")
       := File Demo.A 1000000]> Demo.disk0) !! ["srv"; "app"]
  = Demo.disk0 !! ["srv"; "app"].
Proof.
  apply (requests_stay_inside_storage Demo.base FS.entries
           [upload_request "abc" 1000000 Demo.A] Demo.disk0
           (<[stored Demo.base ("abc" +:+ ".webm.partial")
                := File Demo.A 1000000]> Demo.disk0)
           [Some (received 3)]
           [Opened Append (stored Demo.base ("abc" +:+ ".webm.partial"))
              true]
           ["srv"; "app"]).
  - apply demo_ready.
  - cbn [run].
    rewrite (serve_upload Demo.base FS.entries "abc" 1000000 Demo.A eq_refl).
    rewrite (upload_chunk_ready Demo.base Demo.disk0 1000000 "abc" Demo.A
               demo_ready eq_refl).
    cbv zeta. by rewrite demo_storage_empty.
  - intros [l E]. discriminate E.
Defined.

Lemma finalize_touches_only_session_names_witness :
  (<[stored Demo.base "abc.webm" := File Demo.A 1000000]>
     (delete (stored Demo.base "abc.webm.partial") Demo.disk_partial))
    !! ["srv"; "app"; "videos"; "other.webm"]
  = Demo.disk_partial !! ["srv"; "app"; "videos"; "other.webm"].
Proof.
  apply (finalize_touches_only_session_names Demo.base Demo.disk_partial
           (<[stored Demo.base "abc.webm" := File Demo.A 1000000]>
              (delete (stored Demo.base "abc.webm.partial")
                 Demo.disk_partial))
           5000000 Demo.missing "abc"
           (Some (jsonify 200 (JObj [("ok", JBool true);
                                     ("webm", JStr "abc.webm");
                                     ("mp4", JNull);
                                     ("at", _now_iso 5000000)])))
           [Renamed (stored Demo.base "abc.webm.partial")
              (stored Demo.base "abc.webm")]
           ["srv"; "app"; "videos"; "other.webm"]).
  - apply demo_ready_insert, demo_ready.
  - reflexivity.
  - reflexivity.
  - intros [l E]. discriminate E.
  - intros [l E]. discriminate E.
  - discriminate.
  - intros [l E]. discriminate E.
Defined.

Lemma sessions_are_isolated_witness :
  (<[stored Demo.base ("xyz" +:+ ".webm.partial")
       := File Demo.B 2000000]> Demo.disk_partial)
    !! stored Demo.base ("abc" +:+ ".webm.partial")
  = Demo.disk_partial !! stored Demo.base ("abc" +:+ ".webm.partial").
Proof.
  apply (sessions_are_isolated Demo.base FS.entries Demo.disk_partial
           (<[stored Demo.base ("xyz" +:+ ".webm.partial")
                := File Demo.B 2000000]> Demo.disk_partial)
           2000000 Demo.missing Demo.B "xyz" "abc"
           ("abc" +:+ ".webm.partial")
           (upload_request "xyz" 2000000 Demo.B)
           (Some (received 2))
           [Opened Append (stored Demo.base ("xyz" +:+ ".webm.partial"))
              true]).
  - apply demo_ready_insert, demo_ready.
  - reflexivity.
  - discriminate.
  - reflexivity.
  - reflexivity.
  - apply list_elem_of_here.
  - rewrite (serve_upload Demo.base FS.entries "xyz" 2000000 Demo.B eq_refl).
    rewrite (upload_chunk_ready Demo.base Demo.disk_partial 2000000 "xyz"
               Demo.B (demo_ready_insert _ _ _ demo_ready) eq_refl).
    cbv zeta. unfold Demo.disk_partial.
    rewrite lookup_insert_ne by discriminate.
    by rewrite demo_storage_empty.
  - apply list_elem_of_here.
Defined.

Lemma finalized_video_is_listed_witness :
  ∃ r σ' tr vids,
    finalize Demo.base 3000000 (Demo.working 4000000) "abc" Demo.disk_partial
    = (Some r, σ', tr)
    ∧ _list_videos Demo.base FS.entries σ' = (Some vids, σ', [])
    ∧ {| filename := "abc" +:+ ".webm";
         bytes := Z.of_nat (length Demo.A);
         modified := second_of 1000000;
         url := "/video/" +:+ ("abc" +:+ ".webm");
         type := "webm" |} ∈ vids.
Proof.
  apply (finalized_video_is_listed Demo.base FS.entries Demo.disk_partial
           3000000 (Demo.running 4000000) (Demo.working 4000000) "abc" Demo.A
           1000000);
    [apply entries_lists_directories | apply demo_plain
    | apply demo_ready_insert, demo_ready
    | apply demo_prints_insert; [apply demo_prints | reflexivity]
    | reflexivity..].
Defined.
